(* ===== verification/_CoqProject ===== *)
-Q . S2P
Prelude.v
Text.v
Scalar.v
Rational.v
NdArray.v
World.v
Console.v
Loader.v
ObjReader.v
Normalizer.v
Dedup.v
Serializer.v
Npy.v
Pipeline.v
Machine.v
Cli.v
Scenarios.v
Float64.v
Float64Bytes.v
