(* ===== verification/Prelude.v ===== *)
(** * Verification of the MixAR OBJ preprocessing tool

    Program: [src/mixar_preprocessing_solution/mixar_preprocess.py], a
    single-pass batch pipeline

      load_obj -> normalize_vertices -> remove_duplicate_vertices
               -> save_processed_data

    driven by [preprocess_obj] and the [__main__] block, which reads the
    two paths from the command line.  Every stage is a short Python
    function that delegates the numeric work to NumPy; the development
    therefore models two layers: the library calls of the source (NumPy,
    [argparse], the mesh parser, with the semantics their documentation
    gives them) and the functions of the source, written line for line on
    top of those calls.

    ** Files, in dependency order

    - [Prelude] (this file): Python exceptions ([exn]), results ([result]),
      the state-and-exception monad [py] in which the stages run (a stage
      may print, read or write files, and raise), [py_try] for
      [try/except], the notations of [py_scope], the hint databases and
      tactics the other files share, lemmas on [result] and on runs of a
      deterministic relation.
    - [Text]: strings cut at separators ([str_split1], [str_split]) and
      decimal integers, for the command line and the mesh reader.
    - [Scalar]: the interface between the pipeline and the arithmetic of
      array elements.  Class [Scalar] has the operations NumPy applies to
      one [float64] (add, subtract, multiply, divide, minimum, maximum,
      rint, conversion of an integer, comparison for sorting, [==],
      isnan); class [ScalarOrder] states what sorting and grouping rely on
      (the comparison is a total preorder, [==] implies equal rank, equal
      rank implies [==] unless NaN is involved); class [ExactEq] states
      that [==] is equality.  [CmpOrder] lifts three-way comparisons to
      the lexicographic comparison [row_cmp] of rows.  [vec3] is a row of
      an (n,3) array.
    - [Rational]: the exact instance of the interface, canonical rationals
      [Qc] with round-half-to-even [Q_rint]; it discharges [ScalarOrder]
      and [ExactEq], and carries the tactics [qc_lra] and [qc_field].
    - [NdArray]: the NumPy calls of the source as functions on lists of
      rows: [np_min_axis0], [np_max_axis0], [np_max], broadcasting
      subtraction and division, [np_round], [np_unique_axis0] (the
      argsort / gather / mask / cumsum / scatter algorithm of
      [numpy.unique] with [axis=0, return_inverse=True]), integer fancy
      indexing [np_take] with NumPy's negative-index wrap-around and
      [IndexError], and the [int32] cast [as_int32].  The sort is reached
      through the interface [ArgSort] with the laws [ArgSortPerm] and
      [ArgSortSorted], because NumPy does not promise which of several
      equal rows comes first; [merge_argsort] implements it, and so does
      [rev_argsort], which orders equal rows the other way round.  The
      reference [group_sorted] is the one-pass grouping that the mask and
      running-count steps are proved equal to.
    - [World]: the file store (a finite map from paths to contents), the
      console (the list of printed [message]s), [py_print],
      [os_path_exists], [write_file].
    - [Console]: the text of the printed lines: [render] gives the
      f-string of each [print] of the source, [str_exn] the [str(e)] of
      the error line.
    - [Loader]: [load_obj] (source lines 6-21) over the file store and the
      [MeshSource] interface that stands for the parser behind
      [trimesh.load].
    - [ObjReader]: an implementation of [MeshSource], the reader
      [obj_parse] of the vertex and triangle lines of OBJ text with its
      printer [print_obj]; it is written from the format, not from the
      library, and serves to run the program from the text of a file.
    - [Normalizer]: [normalize_vertices] (lines 24-36), with [bbox_center]
      and [bbox_scale] for lines 31 and 32.
    - [Dedup]: [remove_duplicate_vertices] (lines 39-45), with
      [remap_faces] for line 42.
    - [Serializer]: [save_processed_data] (lines 48-51), [np_savez] as the
      write of an [archive] value under the name [npz_path] gives, and the
      reader [np_load] on that value.
    - [Npy]: the bytes of the members of the archive, in NumPy's array
      file format 1.0: magic string, version, length field, the dictionary
      literal of type code, order and shape padded to a multiple of 64
      bytes, and the elements in row-major order, least significant byte
      first; [npy_bytes] writes an entry, [npy_read] reads one,
      [savez_members] and [members_load] do so for the two keywords of
      line 50.  The element type is reached through the interface
      [ElemCodec]; [i64_codec] is the instance of the faces.
    - [Pipeline]: [preprocess_obj] (lines 54-59) and [main], the
      [try/except] of lines 73-77; [preprocess_obj_cases] is the whole
      behaviour of the driver by cases.
    - [Machine]: the stage machine of the specification (Idle, Loading,
      Normalizing, Deduplicating, Saving, Done, Failed) as the relation
      [step], the function [next] and the fuelled [run]; the
      well-formedness [stage_wf] of what each stage receives and the
      invariant [machine_inv] of a run.
    - [Cli]: the [__main__] block (lines 62-77) as [program]: the parser
      of lines 65-69 with its three actions, [parse_args] (line 71) as
      the classification of the argument strings followed by the
      consuming loop, the exit status of the process.
    - [Scenarios]: the end-to-end scenarios of the specification (the
      cube moved and scaled arbitrarily, two vertices that differ by less
      than the rounding step, with and without a third vertex far from
      them), the program from the command line and the text of a file to
      the archive, and the text it prints.
    - [Float64]: the binary64 instance of [Scalar], on the Standard
      Library's [SpecFloat] (precision 53, maximal exponent 1024, round to
      nearest even): [f64_min], [f64_max], [f64_rint], [f64_cmp]; the
      proof that it satisfies [ScalarOrder]; what NaN, rounding and a
      zero scale do to the pipeline.
    - [Float64Bytes]: the 64-bit word of a float ([f64_bits],
      [f64_of_bits]) and its eight bytes, which make binary64 an instance
      [f64_codec] of [ElemCodec]; the proof that a division returns a
      float of the format; the archive of a run of the binary64 program
      through its bytes.

    ** State and effects

    A stage is a value of type [py W X = W -> result X * W]: it takes the
    world (file store and console), returns a value or a raised exception,
    and the world after it.  A raised exception keeps the world as it was at
    the raise, which is how Python behaves: what was printed stays printed
    and what was written stays written.  [print] appends a structured
    [message] to the console; the only write to the file store is the
    [np.savez] call of [save_processed_data].

    ** Numbers

    The source computes in [float64].  The functions of the development are
    generic in the element type through [Scalar], so one definition of
    [normalize_vertices] or [remove_duplicate_vertices] serves every
    arithmetic.  Theorems that only depend on the shape of the computation
    (lengths, index validity, error paths, world effects, the equivalence of
    [np_unique_axis0] with its reference) are proved for every instance,
    hence for binary64 whatever its rounding.  Theorems that depend on the
    order hold for every instance of [ScalarOrder], which binary64 is
    ([f64_scalar_order]).  Theorems about
    geometry (the normalised bounding box is centred with largest extent 1,
    coordinates lie in [-1/2, 1/2], rounding to 6 decimals moves a
    coordinate by at most 5e-7, normalisation is idempotent) hold in exact
    arithmetic, on [Qc], and say what the program computes up to
    floating-point rounding; no error bound between the two instances is
    proved, and [Float64] shows by evaluation where they differ (a second
    normalisation moves a coordinate by one unit in the last place, a zero
    scale gives NaN).  Integer arrays are lists of [Z]; the [int32]
    cast wraps modulo 2^32, and index arithmetic is unbounded as it is in
    [intp] for arrays that fit in memory.

    ** What the theorems show

    - Normalizer: the guard and its error; totality on non-empty input (a
      zero scale is not rejected); centred unit bounding box, range,
      idempotence and invariance under translation and positive scaling;
      the scale is zero exactly for coinciding vertices.
    - NumPy calls: [np_unique_axis0] against the reference grouping;
      indexing, total specification; as lemmas, the round trip through
      [return_inverse], that a strictly increasing array is a fixed point
      of [np_unique_axis0], and that [merge_argsort] and [rev_argsort]
      implement the sort interface.
    - Deduplicator: output faces are valid indices into the output
      vertices; it returns exactly when every index is in [-n, n) and
      raises [IndexError] otherwise; remapped indices point at the vertex
      equal to the rounded original; two vertices share an output index
      exactly when they are equal after rounding; the output is sorted,
      duplicate-free, already rounded, covers every rounded input and
      does not depend on the sort; a second pass changes nothing.
    - Loader and Serializer: each branch of [load_obj]; [int32] bounds;
      what [np.savez] writes and where.
    - Array files: an entry written as bytes is read back exactly, and
      its data follow a header of a multiple of 64 bytes; from the
      members of the archive the vertices are read back, and the faces
      too, except that faces that are [None] are refused with the default
      [allow_pickle=False]; [np_load] on the archive value answers what
      reading the bytes answers (a lemma).  The hypotheses are that the
      elements have a code ([f64_valid], [i64_range]) and that the first
      dimension is below 2^63.
    - Pipeline: no output on failure; on success, the world in full: the
      archive holds the deduplicated array of the normalised vertices and
      the remapped faces, the console the five lines with their counts;
      when the driver returns, as a condition on the file store, the
      parsed object and the face indices, and which exception it raises
      otherwise; the unit box survives the deduplication (the returned
      vertices stay in [-1/2, 1/2] and reach both ends along the longest
      axis), so a mesh with extent keeps at least two vertices.
    - Console: the text of a line determines the [print] call and the
      values shown, up to the class of the exception on the error line.
    - Stage machine: every transition preserves well-formedness, so every
      reachable configuration is well formed (type); when the input is a
      mesh with vertices and faces in range, every configuration reached
      from [Idle] goes on to [Done] with the archive written (liveness);
      the driver refines the machine.  That no run is infinite and that
      the rank of a stage is enough fuel are lemmas ([step_sn],
      [run_fuel_final]): they hold by the shape of the machine.
    - Command line: a printed list of settings parses back to the
      namespace they describe; abbreviations are the options; the exit
      status is 0 or 2, 2 exactly for a usage error, 0 also after a
      failure of the pipeline.
    - Mesh reader: reading a printed mesh returns it; the program run on
      the text of a mesh whose indices are in range succeeds.
    - Binary64: the order laws; a NaN coordinate makes every output
      coordinate NaN, after which the deduplication merges nothing;
      every mesh without extent is saved with
      coordinates that are NaN or infinite and reported as a success.
      Two runs, as examples: a second normalisation moves a coordinate by
      one unit in the last place; the sign of a zero in the output
      depends on the sort.
    - Binary64 bytes: floats of the format and 64-bit words correspond
      one to one, NaN apart; every quotient is a float of the format, so
      every coordinate the normaliser and the deduplicator return is one,
      whatever the parser returned; the archive of a run is read back
      from its bytes, the vertices bit for bit; the words of 1.0, 0.1 and
      -2.0 and the file of a one-row array, byte by byte, as examples.
    Every theorem with hypotheses is applied to a concrete input by a
    lemma named after it with the suffix [_witness].

    ** Fuel and bounds

    Every function of the source is modelled by a structurally recursive
    function or a composition of list combinators, so every stage is total
    and needs no fuel; so are the parser of the command line and the
    reader of mesh text, which recurse on the list of strings and on the
    characters.  The only fuel is that of [run], the iteration of [next]:
    [stage_rank] transitions reach a final state from any stage
    ([run_fuel_final]), five from [Idle] (start, load, normalise,
    deduplicate, save), where [run_preprocess_obj] shows the result to be
    that of the driver.  The array files bound the first dimension of an
    array by 2^63, which every array in memory satisfies and which keeps
    the length of the header within the two bytes of format version 1.0;
    the integers of the faces are written in 64 bits, which holds every
    index into such an array.  Binary64 is [SpecFloat] at precision 53
    and maximal exponent 1024: no bound on the input is assumed, the
    division that ends each stage returns a float of the format.

    ** Not modelled

    The code of [trimesh] is not modelled: the theorems on the program
    hold for every parser behind [MeshSource], and [ObjReader] is one
    reading of the OBJ format (vertex lines and triangles), not the
    library's, which also reads other formats, polygons, materials and
    scenes.  Of the file [np.savez] writes the members are modelled
    ([Npy]), the zip framing around them (local headers, checksums,
    central directory, time stamps) is not; the pickle of the object
    array that stands for [None] is a parameter, and [npy_read] reads the
    header NumPy writes, not every dictionary literal NumPy accepts.  A
    write that fails is not
    modelled: the file store has no directories, permissions or capacity,
    so [np_savez] always returns, where the library raises [OSError] for
    a directory that does not exist or a path that cannot be written,
    and may leave a partial file.  [os_path_exists] is [True] exactly for
    the paths of the store: a directory, or a file that exists and cannot
    be read, is not modelled.  The arrays of the loader are (n,3) arrays
    of [float64] and [int32]: what [np.asarray] does to another shape or
    to values it cannot convert is left to [MeshSource], which may raise.
    [py_try] is [except Exception]: [KeyboardInterrupt] and [SystemExit]
    raised inside the [try] block are not modelled.  [argparse] is
    modelled where its versions since Python 3.8 agree; for the separator [--], a value [--] after [=],
    clusters of one-letter options, strings that may look like negative
    numbers and an ambiguous abbreviation met after the parser has
    decided, [parse_args] answers [NotModelled]; the texts of the help
    and of the usage messages are not modelled ([render] takes the help
    text as an argument).  The printed lines are UTF-8 bytes; a console
    whose encoding cannot represent the pictographs of the source, where
    [print] itself would raise, is not modelled.  The distance between the
    binary64 results and the exact ones is not bounded. *)

From Stdlib Require Import ZArith.
From stdpp Require Import base tactics option list numbers strings relations.

Declare Scope py_scope.
Delimit Scope py_scope with py.

(** ** Python exceptions and results *)

(** The exceptions the program can raise.  [FileNotFoundError] and the two
    [ValueError]s are raised by the source itself; the others come from the
    libraries it calls. *)
Inductive exn : Type :=
| FileNotFoundError (msg : string)
| ValueError (msg : string)
| IndexError (index : Z) (size : nat)
| LibraryError (msg : string).

#[export] Instance exn_eq_dec : EqDecision exn.
Proof. solve_decision. Defined.

(** The outcome of evaluating a Python expression: a value or a raised
    exception. *)
Inductive result (A : Type) : Type :=
| Ok (a : A)
| Raise (e : exn).
Arguments Ok {A} a.
Arguments Raise {A} e.

#[export] Instance result_eq_dec `{EqDecision A} : EqDecision (result A).
Proof. solve_decision. Defined.

#[export] Instance result_ret : MRet result := @Ok.
#[export] Instance result_bind : MBind result := λ A B f m,
  match m with Ok a => f a | Raise e => Raise e end.
#[export] Instance result_fmap : FMap result := λ A B f m,
  match m with Ok a => Ok (f a) | Raise e => Raise e end.

Definition is_ok {A} (r : result A) : bool :=
  match r with Ok _ => true | Raise _ => false end.

(** [mapM] for [result]: the first element that raises decides. *)
Fixpoint result_mapM {A B} (f : A → result B) (l : list A) : result (list B) :=
  match l with
  | [] => Ok []
  | x :: l' => y ← f x; ys ← result_mapM f l'; Ok (y :: ys)
  end.

(** ** The monad of stages: state passing with exceptions *)

Definition py (W X : Type) : Type := W → result X * W.

#[export] Instance py_ret W : MRet (py W) := λ A a w, (Ok a, w).
#[export] Instance py_bind W : MBind (py W) := λ A B f m w,
  match m w with
  | (Ok a, w') => f a w'
  | (Raise e, w') => (Raise e, w')
  end.

Definition py_raise {W X} (e : exn) : py W X := λ w, (Raise e, w).
Definition py_lift {W X} (r : result X) : py W X := λ w, (r, w).
Definition py_get {W} : py W W := λ w, (Ok w, w).
Definition py_modify {W} (f : W → W) : py W unit := λ w, (Ok tt, f w).

(** [try: body except Exception as e: handler e]. *)
Definition py_try {W X} (body : py W X) (handler : exn → py W X) : py W X :=
  λ w, match body w with
       | (Ok a, w') => (Ok a, w')
       | (Raise e, w') => handler e w'
       end.

Notation "'raise' e" := (py_raise e) (at level 10, e at level 9) : py_scope.
Notation "m ;;; k" := (mbind (λ _, k) m)
  (at level 100, k at level 200, right associativity) : py_scope.

(** ** Hint databases and tactics *)

Create HintDb nd discriminated.
Create Rewrite HintDb py.
Create Rewrite HintDb nd.

(** Case analysis on the scrutinee of the first [match] on a [result] or on
    a pair of a result and a world in the goal. *)
Ltac case_result :=
  match goal with
  | |- context [match ?r with Ok _ => _ | Raise _ => _ end] =>
      let E := fresh "E" in destruct r eqn:E
  | |- context [match ?r with (_, _) => _ end] =>
      let E := fresh "E" in destruct r eqn:E
  end.

(** Unfold the monad of stages in the goal and in the hypotheses. *)
Ltac unfold_py :=
  unfold mbind, mret, py_bind, py_ret, py_raise, py_lift, py_get, py_modify,
    py_try in *.

(** Close a goal about a closed decidable proposition by evaluation. *)
Ltac by_compute := apply (bool_decide_eq_true_1 _); vm_compute; reflexivity.

(** ** Lemmas on [result] *)

Lemma result_bind_ok {A B} (f : A → result B) (m : result A) (b : B) :
  m ≫= f = Ok b ↔ ∃ a, m = Ok a ∧ f a = Ok b.
Proof. destruct m; simpl; naive_solver. Qed.

Lemma result_bind_raise {A B} (f : A → result B) (m : result A) (e : exn) :
  m ≫= f = Raise e ↔ m = Raise e ∨ ∃ a, m = Ok a ∧ f a = Raise e.
Proof. destruct m; simpl; naive_solver. Qed.

Lemma result_fmap_ok {A B} (f : A → B) (m : result A) (b : B) :
  f <$> m = Ok b ↔ ∃ a, m = Ok a ∧ b = f a.
Proof. destruct m; simpl; naive_solver. Qed.

Lemma result_mapM_ok {A B} (f : A → result B) (l : list A) (k : list B) :
  result_mapM f l = Ok k ↔ Forall2 (λ x y, f x = Ok y) l k.
Proof.
  revert k. induction l as [|x l IH]; intros k; simpl.
  - split; [intros [= <-]; constructor | by inversion 1].
  - rewrite result_bind_ok. split.
    + intros (y & Hy & H). apply result_bind_ok in H as (ys & Hys & [= <-]).
      constructor; [done | by apply IH].
    + inversion 1 as [|? y ? ys Hy Hys]; subst. exists y. split; [done|].
      apply IH in Hys. by rewrite Hys.
Qed.

Lemma result_mapM_length {A B} (f : A → result B) (l : list A) (k : list B) :
  result_mapM f l = Ok k → length k = length l.
Proof. rewrite result_mapM_ok. intros H. symmetry. by eapply Forall2_length. Qed.

Lemma result_mapM_total {A B} (f : A → result B) (l : list A) :
  Forall (λ x, is_ok (f x) = true) l → ∃ k, result_mapM f l = Ok k.
Proof.
  induction 1 as [|x l Hx _ [k IH]]; simpl; [by eexists|].
  destruct (f x) as [y|]; [|done]. rewrite IH. by eexists.
Qed.

Lemma result_mapM_raise {A B} (f : A → result B) (l : list A) (e : exn) :
  result_mapM f l = Raise e → ∃ x, x ∈ l ∧ f x = Raise e.
Proof.
  induction l as [|x l IH]; simpl; [done|].
  destruct (f x) as [y|e'] eqn:Hx; simpl.
  - destruct (result_mapM f l); simpl; [done|]. intros [= <-].
    destruct IH as (x' & ? & ?); [done|]. exists x'. split; [by right | done].
  - intros [= <-]. exists x. split; [by left | done].
Qed.

#[export] Hint Rewrite @result_bind_ok @result_fmap_ok : py.

(** ** Runs of a deterministic relation *)

(** Two different elements need a list of two. *)
Lemma elem_of_two_length {B} (x y : B) (l : list B) :
  x ∈ l → y ∈ l → x ≠ y → (2 ≤ length l)%nat.
Proof.
  destruct l as [|a [|b l]]; simpl; [by intros ?%elem_of_nil | | lia].
  intros ->%list_elem_of_singleton ->%list_elem_of_singleton. done.
Qed.

(** Two complete runs of a deterministic relation from the same state end
    in the same state. *)
Lemma rtc_det_nf {S} (R : relation S) (c x y : S) :
  (∀ a b1 b2, R a b1 → R a b2 → b1 = b2) →
  rtc R c x → nf R x → rtc R c y → nf R y → x = y.
Proof.
  intros Hdet Hx. revert y. induction Hx as [c|c c' x Hc Hx IH]; intros y Hnx Hy Hny.
  - by eapply rtc_nf.
  - destruct (rtc_inv _ _ Hy) as [<-|(c'' & Hc' & Hy')].
    + destruct Hny. by exists c'.
    + rewrite <-(Hdet _ _ _ Hc Hc') in Hy'. by apply IH.
Qed.
