(* ===== verification/Text.v ===== *)
(** * Text: cutting strings at separators

    What the command line ([Cli]) and the reader of mesh files
    ([ObjReader]) share: a test on every character of a string, the cut at
    the first separator, the cut at every separator, and decimal integers
    read with the Standard Library's [DecimalString]. *)

From S2P Require Import Prelude.
From Stdlib Require Import ZArith Ascii String Decimal DecimalString DecimalZ.
From stdpp Require Import base tactics option list numbers strings.

(** ** Definitions *)

(** Every character of [s] satisfies [p]. *)
Fixpoint str_forall (p : ascii → bool) (s : string) : bool :=
  match s with
  | EmptyString => true
  | String c rest => p c && str_forall p rest
  end.

(** The part of [s] before the first separator, and the part after it
    when there is one: [s.split(sep, 1)]. *)
Fixpoint str_split1 (sep : ascii → bool) (s : string) : string * option string :=
  match s with
  | EmptyString => (EmptyString, None)
  | String c rest =>
      if sep c then (EmptyString, Some rest)
      else (String c (str_split1 sep rest).1, (str_split1 sep rest).2)
  end.

(** The parts of [s] between separators: [s.split(sep)].  There is one
    part more than there are separators. *)
Fixpoint str_split (sep : ascii → bool) (s : string) : list string :=
  match s with
  | EmptyString => [EmptyString]
  | String c rest =>
      if sep c then EmptyString :: str_split sep rest
      else
        match str_split sep rest with
        | w :: ws => String c w :: ws
        | [] => [String c EmptyString]
        end
  end.

(** A decimal integer: an optional [-] and at least one digit. *)
Definition int_of_str (s : string) : option Z :=
  Z.of_int <$> NilZero.int_of_string s.

Definition str_of_int (z : Z) : string := NilZero.string_of_int (Z.to_int z).

(** The characters of a decimal integer. *)
Definition is_int_char (c : ascii) : bool :=
  let n := nat_of_ascii c in (n =? 45)%nat || (48 <=? n)%nat && (n <=? 57)%nat.

(** ** Lemmas *)

(** Appending to a literal, computed: [String.append] does not unfold
    under [simpl]. *)
Ltac push_app :=
  repeat match goal with
         | |- context [String ?c ?t +:+ ?s] =>
             change (String c t +:+ s) with (String c (t +:+ s))
         | |- context [EmptyString +:+ ?s] => change (EmptyString +:+ s) with s
         end.

Lemma str_forall_app (p : ascii → bool) (s t : string) :
  str_forall p (s +:+ t) = str_forall p s && str_forall p t.
Proof. induction s as [|c s IH]; simpl; [done|]. by rewrite IH, andb_assoc. Qed.

Lemma str_forall_impl (p q : ascii → bool) (s : string) :
  (∀ c, p c = true → q c = true) → str_forall p s = true → str_forall q s = true.
Proof.
  intros Hpq. induction s as [|c s IH]; simpl; [done|].
  intros [??]%andb_true_iff. apply andb_true_iff. auto.
Qed.

(** Cutting a text that was put together with a separator. *)
Lemma str_split1_app (sep : ascii → bool) (s : string) (c : ascii) (t : string) :
  str_forall (λ c, negb (sep c)) s = true → sep c = true →
  str_split1 sep (s +:+ String c t) = (s, Some t).
Proof.
  intros Hs Hc. induction s as [|c' s IH]; simpl in *; [by rewrite Hc|].
  apply andb_true_iff in Hs as [Hc'%negb_true_iff Hs]. by rewrite Hc', IH.
Qed.

Lemma str_split1_none (sep : ascii → bool) (s : string) :
  str_forall (λ c, negb (sep c)) s = true → str_split1 sep s = (s, None).
Proof.
  induction s as [|c' s IH]; simpl; [done|].
  intros [Hc'%negb_true_iff Hs]%andb_true_iff. by rewrite Hc', IH.
Qed.

Lemma str_split_app (sep : ascii → bool) (s : string) (c : ascii) (t : string) :
  str_forall (λ c, negb (sep c)) s = true → sep c = true →
  str_split sep (s +:+ String c t) = s :: str_split sep t.
Proof.
  intros Hs Hc. induction s as [|c' s IH]; simpl in *; [by rewrite Hc|].
  apply andb_true_iff in Hs as [Hc'%negb_true_iff Hs]. by rewrite Hc', IH.
Qed.

Lemma str_split_none (sep : ascii → bool) (s : string) :
  str_forall (λ c, negb (sep c)) s = true → str_split sep s = [s].
Proof.
  induction s as [|c' s IH]; simpl; [done|].
  intros [Hc'%negb_true_iff Hs]%andb_true_iff. by rewrite Hc', IH.
Qed.

(** Printing an integer and reading it back. *)
Lemma uint_of_string_of_uint (d : uint) :
  Z.of_int <$> (Pos <$> NilZero.uint_of_string (NilZero.string_of_uint d))
    = Some (Z.of_int (Pos d)).
Proof. destruct d; simpl; by rewrite ?NilEmpty.usu. Qed.

Lemma string_of_uint_head (d : uint) :
  match NilZero.string_of_uint d with
  | EmptyString => False
  | String c _ => Ascii.eqb c "-" = false
  end.
Proof. by destruct d. Qed.

Lemma int_of_str_of_int (z : Z) : int_of_str (str_of_int z) = Some z.
Proof.
  unfold int_of_str, str_of_int. rewrite <-(DecimalZ.of_to z) at 2.
  destruct (Z.to_int z) as [d|d]; simpl.
  - pose proof (string_of_uint_head d) as Hh. pose proof (uint_of_string_of_uint d) as Hu.
    unfold NilZero.int_of_string.
    destruct (NilZero.string_of_uint d) as [|c s] eqn:E; [done|]. by rewrite Hh.
  - pose proof (uint_of_string_of_uint d) as Hu.
    destruct (NilZero.uint_of_string _) as [d'|]; [|done]. simpl in *.
    by injection Hu as ->.
Qed.

Lemma string_of_uint_chars (d : uint) :
  str_forall is_int_char (NilEmpty.string_of_uint d) = true.
Proof. induction d; simpl; done. Qed.

Lemma str_of_int_chars (z : Z) : str_forall is_int_char (str_of_int z) = true.
Proof.
  unfold str_of_int. destruct (Z.to_int z) as [d|d]; simpl;
    [|change (is_int_char "-") with true; simpl];
    (destruct d; [done|apply (string_of_uint_chars (_ _))..]).
Qed.

Lemma str_of_int_nonempty (z : Z) : str_of_int z ≠ EmptyString.
Proof. unfold str_of_int. destruct (Z.to_int z) as [d|d]; by destruct d. Qed.
