(* ===== verification/Scalar.v ===== *)
(** * The element interface: what the pipeline needs from [float64]

    [Scalar] lists the operations NumPy applies to single array elements in
    the source; [ScalarOrder] states what sorting and grouping rely on.  The
    pipeline is written against [Scalar], its order-dependent theorems are
    proved against [ScalarOrder], and the instances ([Rational], [Float64])
    discharge the laws.  [vec3] is a row of an (n,3) array. *)

From S2P Require Import Prelude.
From Stdlib Require Import ZArith.
From stdpp Require Import base tactics option list numbers.

(** ** Rows of an (n,3) array *)

Record vec3 (A : Type) : Type := V3 { vx : A; vy : A; vz : A }.
Arguments V3 {A} vx vy vz.
Arguments vx {A} v.
Arguments vy {A} v.
Arguments vz {A} v.

#[export] Instance vec3_eq_dec `{EqDecision A} : EqDecision (vec3 A).
Proof. solve_decision. Defined.

Definition v3_map {A B} (f : A → B) (v : vec3 A) : vec3 B :=
  V3 (f (vx v)) (f (vy v)) (f (vz v)).

Definition v3_zip {A B C} (f : A → B → C) (u : vec3 A) (v : vec3 B) : vec3 C :=
  V3 (f (vx u) (vx v)) (f (vy u) (vy v)) (f (vz u) (vz v)).

Definition v3_list {A} (v : vec3 A) : list A := [vx v; vy v; vz v].

Definition v3_Forall {A} (P : A → Prop) (v : vec3 A) : Prop :=
  P (vx v) ∧ P (vy v) ∧ P (vz v).

Definition v3_existsb {A} (p : A → bool) (v : vec3 A) : bool :=
  p (vx v) || p (vy v) || p (vz v).

(** ** Operations on one element *)

(** The [float64] operations the source reaches through NumPy.  [smin] and
    [smax] are [np.minimum] and [np.maximum] (they propagate NaN), [srint]
    is [np.rint] (round half to even), [sofZ] converts the integer literals
    of the source ([2.0], [10**6]), [scmp] is the comparison the sort uses
    (a total preorder: NaN sorts last), [seqb] is [==] (false on NaN). *)
Class Scalar (A : Type) : Type := {
  sadd : A → A → A;
  ssub : A → A → A;
  smul : A → A → A;
  sdiv : A → A → A;
  smin : A → A → A;
  smax : A → A → A;
  srint : A → A;
  sofZ : Z → A;
  scmp : A → A → comparison;
  seqb : A → A → bool;
  sisnan : A → bool
}.

(** Lexicographic combination of two comparisons. *)
Definition lex (c1 c2 : comparison) : comparison :=
  match c1 with Eq => c2 | _ => c1 end.

Section rows.
Context `{Scalar A}.

(** Field-by-field comparison of two rows, as the sort of a structured
    array compares records. *)
Definition row_cmp (u v : vec3 A) : comparison :=
  lex (scmp (vx u) (vx v)) (lex (scmp (vy u) (vy v)) (scmp (vz u) (vz v))).

(** [u == v] on records: all fields equal. *)
Definition row_eqb (u v : vec3 A) : bool :=
  seqb (vx u) (vx v) && seqb (vy u) (vy v) && seqb (vz u) (vz v).

Definition row_isnan (u : vec3 A) : bool := v3_existsb sisnan u.

Definition row_le (u v : vec3 A) : Prop := row_cmp u v ≠ Gt.
Definition row_lt (u v : vec3 A) : Prop := row_cmp u v = Lt.

(** Two rows that NumPy's grouping treats as the same: the same row, or
    rows that compare [==]. *)
Definition row_same (u v : vec3 A) : Prop := u = v ∨ row_eqb u v = true.

End rows.

#[export] Instance comparison_eq_dec : EqDecision comparison.
Proof. solve_decision. Defined.

#[export] Instance row_le_dec `{Scalar A} : RelDecision (row_le (A:=A)).
Proof. intros u v. unfold row_le. apply _. Defined.

#[export] Instance row_lt_dec `{Scalar A} : RelDecision (row_lt (A:=A)).
Proof. intros u v. unfold row_lt. apply _. Defined.

(** ** Laws of the order *)

(** What grouping by sort-and-compare relies on: [scmp] is a total preorder
    (antisymmetry of the three-way result gives reflexivity and totality),
    and [==] is the equivalence of that preorder away from NaN. *)
Class ScalarOrder (A : Type) `{Scalar A} : Prop := {
  scmp_antisym (x y : A) : scmp y x = CompOpp (scmp x y);
  scmp_trans (x y z : A) : scmp x y ≠ Gt → scmp y z ≠ Gt → scmp x z ≠ Gt;
  seqb_scmp (x y : A) : seqb x y = true → scmp x y = Eq;
  scmp_seqb (x y : A) : scmp x y = Eq → sisnan x = false → seqb x y = true;
  seqb_notnan (x y : A) : seqb x y = true → sisnan x = false ∧ sisnan y = false
}.

(** ** Three-way comparisons that are total preorders *)

(** A three-way comparison [c] on [B] that is antisymmetric in its result
    and transitive on [≠ Gt].  [scmp] is one by [ScalarOrder]; so is the
    comparison of rows by one coordinate, and the lexicographic combination
    of two of them. *)
Class CmpOrder {B : Type} (c : B → B → comparison) : Prop := {
  cmp_antisym (x y : B) : c y x = CompOpp (c x y);
  cmp_trans (x y z : B) : c x y ≠ Gt → c y z ≠ Gt → c x z ≠ Gt
}.
Arguments cmp_antisym {B} c {_} x y.
Arguments cmp_trans {B} c {_} x y z.

Section cmp_order.
Context {B : Type} (c : B → B → comparison) `{!CmpOrder c}.

Lemma cmp_refl (x : B) : c x x = Eq.
Proof. pose proof (cmp_antisym c x x) as E. by destruct (c x x). Qed.

Lemma cmp_flip (x y : B) (r : comparison) : c x y = r → c y x = CompOpp r.
Proof. intros <-. apply (cmp_antisym c). Qed.

Lemma cmp_ge_flip (x y : B) : c x y ≠ Lt ↔ c y x ≠ Gt.
Proof. rewrite (cmp_antisym c x y). by destruct (c x y). Qed.

Lemma cmp_total (x y : B) : c x y ≠ Gt ∨ c y x ≠ Gt.
Proof. rewrite (cmp_antisym c x y). destruct (c x y); auto. Qed.

Lemma cmp_eq_trans (x y z : B) : c x y = Eq → c y z = Eq → c x z = Eq.
Proof.
  intros Hxy Hyz.
  assert (c x z ≠ Gt) by (apply (cmp_trans c x y z); congruence).
  assert (c z x ≠ Gt) as Hzx.
  { apply (cmp_trans c z y x); [rewrite (cmp_antisym c y z), Hyz|rewrite (cmp_antisym c x y), Hxy]; done. }
  apply cmp_ge_flip in Hzx. by destruct (c x z).
Qed.

Lemma cmp_lt_le_trans (x y z : B) : c x y = Lt → c y z ≠ Gt → c x z = Lt.
Proof.
  intros Hxy Hyz.
  assert (c x z ≠ Gt) by (apply (cmp_trans c x y z); congruence).
  destruct (c x z) eqn:Hxz; [|done..]. exfalso.
  assert (c y x ≠ Gt) as Hyx.
  { apply (cmp_trans c y z x); [done|]. rewrite (cmp_antisym c x z), Hxz. done. }
  rewrite (cmp_antisym c x y), Hxy in Hyx. by apply Hyx.
Qed.

Lemma cmp_le_lt_trans (x y z : B) : c x y ≠ Gt → c y z = Lt → c x z = Lt.
Proof.
  intros Hxy Hyz.
  assert (c x z ≠ Gt) by (apply (cmp_trans c x y z); congruence).
  destruct (c x z) eqn:Hxz; [|done..]. exfalso.
  assert (c z y ≠ Gt) as Hzy.
  { apply (cmp_trans c z x y); [|done]. rewrite (cmp_antisym c x z), Hxz. done. }
  rewrite (cmp_antisym c y z), Hyz in Hzy. by apply Hzy.
Qed.

End cmp_order.

Lemma lex_eq (c1 c2 : comparison) : lex c1 c2 = Eq ↔ c1 = Eq ∧ c2 = Eq.
Proof. destruct c1, c2; simpl; naive_solver. Qed.

Lemma lex_CompOpp (c1 c2 : comparison) :
  lex (CompOpp c1) (CompOpp c2) = CompOpp (lex c1 c2).
Proof. by destruct c1. Qed.

(** The lexicographic combination of two total preorders is one. *)
#[export] Instance lex_CmpOrder {B} (c1 c2 : B → B → comparison)
  `{!CmpOrder c1, !CmpOrder c2} : CmpOrder (λ x y, lex (c1 x y) (c2 x y)).
Proof.
  split.
  - intros x y. rewrite (cmp_antisym c1 x y), (cmp_antisym c2 x y).
    apply lex_CompOpp.
  - intros x y z Hxy Hyz.
    destruct (c1 x y) eqn:E1; simpl in Hxy; [| |done].
    + destruct (c1 y z) eqn:E2; simpl in Hyz; [| |done].
      * rewrite (cmp_eq_trans c1 x y z E1 E2). simpl. by apply (cmp_trans c2 x y z).
      * rewrite (cmp_le_lt_trans c1 x y z); [done|congruence|done].
    + rewrite (cmp_lt_le_trans c1 x y z); [done|done|].
      destruct (c1 y z); simpl in Hyz; congruence.
Qed.

(** Comparing through a projection keeps a total preorder. *)
#[export] Instance proj_CmpOrder {B C} (f : C → B) (c : B → B → comparison)
  `{!CmpOrder c} : CmpOrder (λ x y, c (f x) (f y)).
Proof. split; intros; [apply (cmp_antisym c) | by eapply (cmp_trans c)]. Qed.

(** ** Consequences of [ScalarOrder] on rows *)

Section row_order.
Context `{ScalarOrder A}.

#[export] Instance scmp_CmpOrder : CmpOrder (scmp (A:=A)).
Proof. split; [apply scmp_antisym | apply scmp_trans]. Qed.

#[export] Instance row_cmp_CmpOrder : CmpOrder (row_cmp (A:=A)).
Proof. unfold row_cmp. apply _. Qed.

#[export] Instance row_le_total : Total (row_le (A:=A)).
Proof. intros u v. apply (cmp_total row_cmp). Qed.

#[export] Instance row_le_trans : Transitive (row_le (A:=A)).
Proof. intros u v w. apply (cmp_trans row_cmp). Qed.

#[export] Instance row_le_refl : Reflexive (row_le (A:=A)).
Proof. intros u. unfold row_le. by rewrite (cmp_refl row_cmp). Qed.

Lemma seqb_sym (x y : A) : seqb x y = true → seqb y x = true.
Proof.
  intros E. destruct (seqb_notnan x y E) as [_ Hy].
  apply scmp_seqb; [|done]. by rewrite (cmp_flip scmp x y Eq (seqb_scmp _ _ E)).
Qed.

Lemma seqb_trans (x y z : A) : seqb x y = true → seqb y z = true → seqb x z = true.
Proof.
  intros E1 E2. destruct (seqb_notnan x y E1) as [Hx _].
  apply scmp_seqb; [|done]. eapply (cmp_eq_trans scmp); by apply seqb_scmp.
Qed.

Lemma row_eqb_spec (u v : vec3 A) :
  row_eqb u v = true ↔
  seqb (vx u) (vx v) = true ∧ seqb (vy u) (vy v) = true ∧ seqb (vz u) (vz v) = true.
Proof. unfold row_eqb. rewrite !andb_true_iff. tauto. Qed.

Lemma row_eqb_cmp (u v : vec3 A) : row_eqb u v = true → row_cmp u v = Eq.
Proof.
  rewrite row_eqb_spec. intros (?&?&?). unfold row_cmp.
  rewrite !lex_eq. auto using seqb_scmp.
Qed.

Lemma row_eqb_notnan (u v : vec3 A) :
  row_eqb u v = true → row_isnan u = false ∧ row_isnan v = false.
Proof.
  rewrite row_eqb_spec. intros (Ex&Ey&Ez). unfold row_isnan, v3_existsb.
  destruct (seqb_notnan _ _ Ex) as [-> ->], (seqb_notnan _ _ Ey) as [-> ->],
    (seqb_notnan _ _ Ez) as [-> ->]. done.
Qed.

Lemma row_cmp_eqb (u v : vec3 A) :
  row_cmp u v = Eq → row_isnan u = false → row_eqb u v = true.
Proof.
  unfold row_cmp, row_isnan, v3_existsb. rewrite !lex_eq, !orb_false_iff.
  intros (?&?&?) [[??]?]. apply row_eqb_spec. auto using scmp_seqb.
Qed.

Lemma row_eqb_sym (u v : vec3 A) : row_eqb u v = true → row_eqb v u = true.
Proof. rewrite !row_eqb_spec. intros (?&?&?). auto using seqb_sym. Qed.

Lemma row_eqb_trans (u v w : vec3 A) :
  row_eqb u v = true → row_eqb v w = true → row_eqb u w = true.
Proof.
  rewrite !row_eqb_spec. intros (?&?&?) (?&?&?).
  split_and!; by eapply seqb_trans.
Qed.

#[export] Instance row_same_refl : Reflexive (row_same (A:=A)).
Proof. by left. Qed.

#[export] Instance row_same_sym : Symmetric (row_same (A:=A)).
Proof. intros u v [->|E]; [by left | right; by apply row_eqb_sym]. Qed.

#[export] Instance row_same_trans : Transitive (row_same (A:=A)).
Proof.
  intros u v w [->|E1] [<-|E2]; [by left | by right | by right |].
  right. by eapply row_eqb_trans.
Qed.

Lemma row_same_cmp (u v : vec3 A) : row_same u v → row_cmp u v = Eq.
Proof. intros [->|E]; [apply (cmp_refl row_cmp) | by apply row_eqb_cmp]. Qed.

(** Two rows the mask keeps apart are strictly ordered when the sort put
    them in order, unless a NaN is involved. *)
Lemma row_le_neq_lt (u v : vec3 A) :
  row_le u v → row_eqb v u = false → row_isnan u = false → row_lt u v.
Proof.
  unfold row_le, row_lt. intros Hle Hne Hnan.
  destruct (row_cmp u v) eqn:E; [|done..].
  apply row_cmp_eqb in E; [|done]. apply row_eqb_sym in E. congruence.
Qed.

Lemma row_lt_not_same (u v : vec3 A) : row_lt u v → ¬ row_same u v.
Proof. unfold row_lt. intros E Hs. apply row_same_cmp in Hs. congruence. Qed.

End row_order.

(** ** Exact equality *)

(** An element type on which [==] is equality: true of exact arithmetic,
    false of [float64] (NaN, and the two zeros). *)
Class ExactEq (A : Type) `{Scalar A} : Prop := {
  seqb_eq (x y : A) : seqb x y = true ↔ x = y
}.

Section exact_eq.
Context `{ExactEq A}.

Lemma row_eqb_eq (u v : vec3 A) : row_eqb u v = true ↔ u = v.
Proof.
  unfold row_eqb. rewrite !andb_true_iff, !seqb_eq.
  destruct u, v; simpl. split; [intros [[-> ->] ->]; done | by intros [= -> -> ->]].
Qed.

Lemma row_same_eq (u v : vec3 A) : row_same u v ↔ u = v.
Proof. unfold row_same. rewrite row_eqb_eq. tauto. Qed.

Lemma exact_notnan `{!ScalarOrder A} (x : A) : sisnan x = false.
Proof. by destruct (seqb_notnan x x (proj2 (seqb_eq x x) eq_refl)). Qed.

Lemma exact_row_notnan `{!ScalarOrder A} (u : vec3 A) : row_isnan u = false.
Proof. unfold row_isnan, v3_existsb. by rewrite !exact_notnan. Qed.

End exact_eq.

(** ** Coordinates by axis *)

Inductive axis : Type := AxisX | AxisY | AxisZ.

Definition coord {A} (a : axis) (v : vec3 A) : A :=
  match a with AxisX => vx v | AxisY => vy v | AxisZ => vz v end.

Lemma vec3_eq {A} (u v : vec3 A) : (∀ a, coord a u = coord a v) → u = v.
Proof.
  intros E. destruct u, v. pose proof (E AxisX). pose proof (E AxisY).
  pose proof (E AxisZ). simpl in *. congruence.
Qed.

Lemma coord_map {A B} (f : A → B) (a : axis) (v : vec3 A) :
  coord a (v3_map f v) = f (coord a v).
Proof. by destruct a. Qed.

Lemma coord_zip {A B C} (f : A → B → C) (a : axis) (u : vec3 A) (v : vec3 B) :
  coord a (v3_zip f u v) = f (coord a u) (coord a v).
Proof. by destruct a. Qed.

Lemma coord_foldl_zip {A} (f : A → A → A) (a : axis) (v : vec3 A) (vs : list (vec3 A)) :
  coord a (foldl (v3_zip f) v vs) = foldl f (coord a v) (coord a <$> vs).
Proof.
  revert v. induction vs as [|u vs IH]; intros v; [done|]. simpl.
  by rewrite IH, coord_zip.
Qed.

Lemma v3_Forall_coord {A} (P : A → Prop) (v : vec3 A) :
  v3_Forall P v ↔ ∀ a, P (coord a v).
Proof.
  unfold v3_Forall. split.
  - intros (?&?&?) []; done.
  - intros E. exact (conj (E AxisX) (conj (E AxisY) (E AxisZ))).
Qed.

#[export] Hint Rewrite @coord_map @coord_zip @coord_foldl_zip : nd.
