(* ===== verification/Rational.v ===== *)
(** * Exact arithmetic: the rational instance of the element interface

    Canonical rationals [Qc] with equality as [==], the usual order, and
    round-half-to-even for [rint].  This is the arithmetic the geometric
    theorems are stated in.  The file also holds the tactic [qc_lra], which
    moves a linear goal on [Qc] to [Q] and calls [lra], and the order and
    rounding lemmas the pipeline theorems share. *)

From S2P Require Import Prelude Scalar.
From Stdlib Require Import ZArith QArith Qcanon Qround Qfield Lqa.
From stdpp Require Import base tactics option list numbers.

Local Open Scope Qc_scope.

(** ** Definitions *)

(** Round to the nearest integer, ties to the even one. *)
Definition Q_rint (q : Q) : Z :=
  let n := Qfloor q in
  match (q - inject_Z n ?= 1 # 2)%Q with
  | Lt => n
  | Gt => (n + 1)%Z
  | Eq => if Z.even n then n else (n + 1)%Z
  end.

Definition Qc_rint (q : Qc) : Qc := Qc_of_Z (Q_rint q).

Definition Qc_min (x y : Qc) : Qc := if decide (x ≤ y) then x else y.
Definition Qc_max (x y : Qc) : Qc := if decide (x ≤ y) then y else x.

#[export] Instance Qc_scalar : Scalar Qc := {|
  sadd := Qcplus;
  ssub := Qcminus;
  smul := Qcmult;
  sdiv := Qcdiv;
  smin := Qc_min;
  smax := Qc_max;
  srint := Qc_rint;
  sofZ := Qc_of_Z;
  scmp := Qccompare;
  seqb := λ x y, bool_decide (x = y);
  sisnan := λ _, false
|}.

(** ** From [Qc] to [Q] *)

Lemma Qc_eq_Qeq (x y : Qc) : x = y ↔ (this x == this y)%Q.
Proof. split; [by intros -> | apply Qc_is_canon]. Qed.

(** Restate every equation and inequality on [Qc] on the underlying
    fractions, with numeric literals evaluated, so that [lra] applies. *)
Ltac qc_to_q :=
  repeat match goal with
  | H : @eq Qc _ _ |- _ => apply Qc_eq_Qeq in H
  | H : ¬ @eq Qc _ _ |- _ => rewrite Qc_eq_Qeq in H
  | |- @eq Qc _ _ => apply Qc_eq_Qeq
  | |- ¬ @eq Qc _ _ => rewrite Qc_eq_Qeq
  end;
  unfold Qcle, Qclt, Qcminus, Qcdiv, Qcplus, Qcmult, Qcopp, Qcinv, Qc_of_Z in *;
  cbn [this Q2Qc] in *;
  rewrite ?Qred_correct in *;
  repeat match goal with
  | |- context [inject_Z (Zpos ?p)] =>
      change (inject_Z (Zpos p)) with (Zpos p # 1)%Q
  | H : context [inject_Z (Zpos ?p)] |- _ =>
      change (inject_Z (Zpos p)) with (Zpos p # 1)%Q in H
  | |- context [Qinv (Zpos ?p # ?q)] =>
      let v := eval vm_compute in (Qinv (Zpos p # q)) in
      change (Qinv (Zpos p # q)) with v
  | H : context [Qinv (Zpos ?p # ?q)] |- _ =>
      let v := eval vm_compute in (Qinv (Zpos p # q)) in
      change (Qinv (Zpos p # q)) with v in H
  end.

Ltac qc_lra := qc_to_q; lra.

(** Field equations on [Qc], proved on [Q]; side conditions are left. *)
Ltac qc_field := qc_to_q; field.

(** ** The laws *)

#[export] Instance Qc_scalar_order : ScalarOrder Qc.
Proof.
  split; simpl.
  - intros x y. symmetry. apply Qcompare_antisym.
  - intros x y z. rewrite <-!Qcle_alt. apply Qcle_trans.
  - intros x y E. apply bool_decide_eq_true_1 in E. by apply Qceq_alt.
  - intros x y E _. apply bool_decide_eq_true_2. by apply Qceq_alt.
  - done.
Qed.

#[export] Instance Qc_exact_eq : ExactEq Qc.
Proof. split. intros x y. simpl. apply bool_decide_eq_true. Qed.

(** ** Minimum and maximum *)

Lemma Qc_min_spec (x y : Qc) : (x ≤ y ∧ Qc_min x y = x) ∨ (y < x ∧ Qc_min x y = y).
Proof.
  unfold Qc_min. case_decide; [by left | right]. split; [|done]. by apply Qclt_nge.
Qed.

Lemma Qc_max_spec (x y : Qc) : (x ≤ y ∧ Qc_max x y = y) ∨ (y < x ∧ Qc_max x y = x).
Proof.
  unfold Qc_max. case_decide; [by left | right]. split; [|done]. by apply Qclt_nge.
Qed.

Lemma Qc_min_le_l (x y : Qc) : Qc_min x y ≤ x.
Proof. destruct (Qc_min_spec x y) as [[? ->]|[? ->]]; qc_lra. Qed.

Lemma Qc_min_le_r (x y : Qc) : Qc_min x y ≤ y.
Proof. destruct (Qc_min_spec x y) as [[? ->]|[? ->]]; qc_lra. Qed.

Lemma Qc_max_ge_l (x y : Qc) : x ≤ Qc_max x y.
Proof. destruct (Qc_max_spec x y) as [[? ->]|[? ->]]; qc_lra. Qed.

Lemma Qc_max_ge_r (x y : Qc) : y ≤ Qc_max x y.
Proof. destruct (Qc_max_spec x y) as [[? ->]|[? ->]]; qc_lra. Qed.

(** A monotone function commutes with minimum and maximum. *)
Lemma Qc_min_mono (f : Qc → Qc) (x y : Qc) :
  (∀ a b, a ≤ b → f a ≤ f b) → f (Qc_min x y) = Qc_min (f x) (f y).
Proof.
  intros Hf.
  destruct (Qc_min_spec x y) as [[Hxy ->]|[Hxy ->]],
    (Qc_min_spec (f x) (f y)) as [[Hf' ->]|[Hf' ->]]; try done.
  - apply Hf in Hxy. qc_lra.
  - apply Qclt_le_weak, Hf in Hxy. qc_lra.
Qed.

Lemma Qc_max_mono (f : Qc → Qc) (x y : Qc) :
  (∀ a b, a ≤ b → f a ≤ f b) → f (Qc_max x y) = Qc_max (f x) (f y).
Proof.
  intros Hf.
  destruct (Qc_max_spec x y) as [[Hxy ->]|[Hxy ->]],
    (Qc_max_spec (f x) (f y)) as [[Hf' ->]|[Hf' ->]]; try done.
  - apply Hf in Hxy. qc_lra.
  - apply Qclt_le_weak, Hf in Hxy. qc_lra.
Qed.

(** ** Division by a positive number *)

Lemma Qc_div_le_mono (x y s : Qc) : 0 < s → x ≤ y → x / s ≤ y / s.
Proof.
  intros Hs Hxy. qc_to_q. apply Qmult_le_compat_r; [done|].
  by apply Qlt_le_weak, Qinv_lt_0_compat.
Qed.

(** The map [x ↦ (x - c) / s] of the normaliser is monotone for [s > 0]. *)
Lemma Qc_affine_mono (c s x y : Qc) : 0 < s → x ≤ y → (x - c) / s ≤ (y - c) / s.
Proof. intros Hs Hxy. apply Qc_div_le_mono; [done|]. qc_lra. Qed.

(** ** Rounding *)

Lemma Q_rint_spec (q : Q) :
  (q - (1 # 2) <= inject_Z (Q_rint q) <= q + (1 # 2))%Q.
Proof.
  unfold Q_rint. pose proof (Qfloor_le q) as Hlo. pose proof (Qlt_floor q) as Hhi.
  rewrite inject_Z_plus in Hhi. change (inject_Z 1) with 1%Q in Hhi.
  destruct (q - inject_Z (Qfloor q) ?= 1 # 2)%Q eqn:E.
  - apply Qeq_alt in E. destruct (Z.even _); rewrite ?inject_Z_plus;
      change (inject_Z 1) with 1%Q; lra.
  - apply Qlt_alt in E. lra.
  - apply Qgt_alt in E. rewrite inject_Z_plus. change (inject_Z 1) with 1%Q. lra.
Qed.

(** Rounding does not leave an interval between two integers. *)
Lemma Q_rint_bounds (q : Q) (n : Z) :
  (- inject_Z n <= q <= inject_Z n)%Q → (- n ≤ Q_rint q ≤ n)%Z.
Proof.
  intros [Hlo Hhi]. pose proof (Q_rint_spec q) as [Hl Hh]. split.
  - destruct (Z.le_gt_cases (- n) (Q_rint q)) as [|Hc]; [done|].
    assert (inject_Z (Q_rint q + 1) <= inject_Z (- n))%Q as Hq by (rewrite <-Zle_Qle; lia).
    rewrite inject_Z_plus, inject_Z_opp in Hq. change (inject_Z 1) with 1%Q in Hq. lra.
  - destruct (Z.le_gt_cases (Q_rint q) n) as [|Hc]; [done|].
    assert (inject_Z (n + 1) <= inject_Z (Q_rint q))%Q as Hq by (rewrite <-Zle_Qle; lia).
    rewrite inject_Z_plus in Hq. change (inject_Z 1) with 1%Q in Hq. lra.
Qed.

Lemma Q_rint_Z (n : Z) : Q_rint (inject_Z n) = n.
Proof.
  unfold Q_rint. rewrite Qfloor_Z.
  replace (inject_Z n - inject_Z n ?= 1 # 2)%Q with Lt; [done|].
  symmetry. apply (proj1 (Qlt_alt _ _)). lra.
Qed.

#[export] Instance Q_rint_proper : Proper (Qeq ==> eq) Q_rint.
Proof.
  intros q q' E. unfold Q_rint. rewrite (Qfloor_comp q q' E).
  by rewrite (Qcompare_comp (q - inject_Z (Qfloor q'))%Q (q' - inject_Z (Qfloor q'))%Q
    ltac:(lra) (1 # 2)%Q (1 # 2)%Q ltac:(lra)).
Qed.

Lemma Qc_rint_of_Z (n : Z) : Qc_rint (Qc_of_Z n) = Qc_of_Z n.
Proof. unfold Qc_rint. simpl. by rewrite Q_rint_Z. Qed.

Lemma Qc_rint_spec (x : Qc) : x - Q2Qc (1 # 2) ≤ Qc_rint x ≤ x + Q2Qc (1 # 2).
Proof. pose proof (Q_rint_spec x). unfold Qc_rint. split; qc_lra. Qed.

Lemma Qc_of_Z_pow10_neq_0 (d : nat) : Qc_of_Z (10 ^ Z.of_nat d) ≠ 0.
Proof.
  intros E. apply Qc_eq_Qeq in E. simpl in E.
  assert (0 < 10 ^ Z.of_nat d)%Z as Hpos by (apply Z.pow_pos_nonneg; lia).
  unfold Qeq in E. simpl in E. lia.
Qed.

(** ** Folds of minimum and maximum *)

Lemma Qc_foldl_min_le (x : Qc) (l : list Qc) :
  foldl Qc_min x l ≤ x ∧ Forall (λ y, foldl Qc_min x l ≤ y) l.
Proof.
  revert x. induction l as [|y l IH]; intros x; simpl.
  { split; [apply Qcle_refl | constructor]. }
  destruct (IH (Qc_min x y)) as [H1 H2].
  pose proof (Qc_min_le_l x y). pose proof (Qc_min_le_r x y).
  split_and?; [|constructor; [|done]]; by etrans.
Qed.

Lemma Qc_foldl_max_ge (x : Qc) (l : list Qc) :
  x ≤ foldl Qc_max x l ∧ Forall (λ y, y ≤ foldl Qc_max x l) l.
Proof.
  revert x. induction l as [|y l IH]; intros x; simpl.
  { split; [apply Qcle_refl | constructor]. }
  destruct (IH (Qc_max x y)) as [H1 H2].
  pose proof (Qc_max_ge_l x y). pose proof (Qc_max_ge_r x y).
  split_and?; [|constructor; [|done]]; by etrans.
Qed.

Lemma Qc_foldl_min_elem_of (x : Qc) (l : list Qc) : foldl Qc_min x l ∈ x :: l.
Proof.
  revert x. induction l as [|y l IH]; intros x; simpl; [by left|].
  specialize (IH (Qc_min x y)). apply elem_of_cons in IH as [->|IH].
  - destruct (Qc_min_spec x y) as [[_ ->]|[_ ->]]; [by left | right; by left].
  - by do 2 right.
Qed.

Lemma Qc_foldl_max_elem_of (x : Qc) (l : list Qc) : foldl Qc_max x l ∈ x :: l.
Proof.
  revert x. induction l as [|y l IH]; intros x; simpl; [by left|].
  specialize (IH (Qc_max x y)). apply elem_of_cons in IH as [->|IH].
  - destruct (Qc_max_spec x y) as [[_ ->]|[_ ->]]; [right; by left | by left].
  - by do 2 right.
Qed.

(** A monotone map commutes with the folds. *)
Lemma Qc_foldl_min_mono (f : Qc → Qc) (x : Qc) (l : list Qc) :
  (∀ a b, a ≤ b → f a ≤ f b) →
  foldl Qc_min (f x) (f <$> l) = f (foldl Qc_min x l).
Proof.
  intros Hf. revert x. induction l as [|y l IH]; intros x; [done|]. simpl.
  by rewrite <-Qc_min_mono, IH.
Qed.

Lemma Qc_foldl_max_mono (f : Qc → Qc) (x : Qc) (l : list Qc) :
  (∀ a b, a ≤ b → f a ≤ f b) →
  foldl Qc_max (f x) (f <$> l) = f (foldl Qc_max x l).
Proof.
  intros Hf. revert x. induction l as [|y l IH]; intros x; [done|]. simpl.
  by rewrite <-Qc_max_mono, IH.
Qed.

Lemma Qc_foldl_min_le_max (x : Qc) (l : list Qc) :
  foldl Qc_min x l ≤ foldl Qc_max x l.
Proof.
  destruct (Qc_foldl_min_le x l) as [? _], (Qc_foldl_max_ge x l) as [? _]. by etrans.
Qed.

Lemma Qc_pos_neq_0 (s : Qc) : 0 < s → s ≠ 0.
Proof. intros Hs E. qc_lra. Qed.

Lemma Qc_of_Z_pos_neq_0 (p : positive) : Qc_of_Z (Zpos p) ≠ 0.
Proof. intros E. apply Qc_eq_Qeq in E. discriminate. Qed.

(** Non-zero side conditions of the field lemmas, for [auto with nd]. *)
#[export] Hint Resolve Qc_pos_neq_0 Qc_of_Z_pos_neq_0 Qc_of_Z_pow10_neq_0 : nd.
