(* ===== verification/NdArray.v ===== *)
(** * The NumPy calls of the source

    Each definition is one NumPy operation the source applies, on lists of
    rows ([vec3]) for (n,3) float arrays and lists of [Z] for integer
    arrays.  [np_unique_axis0] follows [numpy.unique(ar, axis=0,
    return_inverse=True)] step by step: argsort of the rows viewed as
    records, gather, mask of the rows that differ from their predecessor,
    running count of the mask, scatter of the group numbers through the
    sorting permutation.  The sort itself is reached through the interface
    [ArgSort], because NumPy does not promise which of several equal rows
    comes first; [merge_argsort] is the instance used to compute. *)

From S2P Require Import Prelude Scalar Rational.
From Stdlib Require Import ZArith QArith Qcanon.
From stdpp Require Import base tactics option list numbers strings sorting.

Local Open Scope Z_scope.

(** ** Reductions, broadcasting and rounding *)

Section elementwise.
Context `{Scalar A}.

(** [np.min(a, axis=0)]: the column-wise minimum, a left fold of
    [np.minimum] from the first row; an empty array raises. *)
Definition np_min_axis0 (a : list (vec3 A)) : result (vec3 A) :=
  match a with
  | [] => Raise (ValueError
      "zero-size array to reduction operation minimum which has no identity")
  | v :: a' => Ok (foldl (v3_zip smin) v a')
  end.

(** [np.max(a, axis=0)]. *)
Definition np_max_axis0 (a : list (vec3 A)) : result (vec3 A) :=
  match a with
  | [] => Raise (ValueError
      "zero-size array to reduction operation maximum which has no identity")
  | v :: a' => Ok (foldl (v3_zip smax) v a')
  end.

(** [np.max(v)] of a vector of three elements. *)
Definition np_max (v : vec3 A) : A := smax (smax (vx v) (vy v)) (vz v).

(** [u + v], [u - v] on vectors and [v / s] by a scalar. *)
Definition np_add (u v : vec3 A) : vec3 A := v3_zip sadd u v.
Definition np_sub (u v : vec3 A) : vec3 A := v3_zip ssub u v.
Definition np_div_scalar (v : vec3 A) (s : A) : vec3 A := v3_map (λ x, sdiv x s) v.

(** [a - c]: the vector [c] is broadcast over the rows of [a]. *)
Definition np_sub_rows (a : list (vec3 A)) (c : vec3 A) : list (vec3 A) :=
  (λ v, np_sub v c) <$> a.

(** [a / s]: the scalar [s] is broadcast over the elements of [a]. *)
Definition np_div_rows (a : list (vec3 A)) (s : A) : list (vec3 A) :=
  (λ v, np_div_scalar v s) <$> a.

(** [np.round(x, decimals)] for [decimals > 0]: NumPy multiplies by
    [10**decimals], rounds to the nearest integer (ties to even) and
    divides by [10**decimals]. *)
Definition round_scalar (decimals : nat) (x : A) : A :=
  let f := sofZ (10 ^ Z.of_nat decimals) in
  sdiv (srint (smul x f)) f.

Definition np_round (a : list (vec3 A)) (decimals : nat) : list (vec3 A) :=
  v3_map (round_scalar decimals) <$> a.

End elementwise.

(** ** Integer arrays: casting and fancy indexing *)

(** [np.asarray(x, dtype=np.int32)] on an integer array: two's-complement
    wrap-around to 32 bits. *)
Definition wrap_int32 (z : Z) : Z := (z + 2 ^ 31) `mod` 2 ^ 32 - 2 ^ 31.

Definition as_int32 (faces : list (vec3 Z)) : list (vec3 Z) :=
  v3_map wrap_int32 <$> faces.

(** [a[i]] for an integer [i]: a negative index counts from the end, an
    index outside [-n, n) raises [IndexError]. *)
Definition np_index (a : list Z) (i : Z) : result Z :=
  let n := Z.of_nat (length a) in
  let j := if decide (i < 0) then i + n else i in
  if decide (0 ≤ j < n) then
    match a !! Z.to_nat j with
    | Some x => Ok x
    | None => Raise (IndexError i (length a))
    end
  else Raise (IndexError i (length a)).

(** The range of indices NumPy accepts for an axis of [n] entries, and the
    position such an index refers to. *)
Definition index_in_range (n : nat) (i : Z) : Prop :=
  - Z.of_nat n ≤ i < Z.of_nat n.

Definition np_resolve (n : nat) (i : Z) : nat :=
  Z.to_nat (if decide (i < 0) then i + Z.of_nat n else i).

Definition v3_mapM {B C} (f : B → result C) (v : vec3 B) : result (vec3 C) :=
  x ← f (vx v); y ← f (vy v); z ← f (vz v); Ok (V3 x y z).

(** [a[faces]]: fancy indexing of a 1-d array by an (m,3) index array. *)
Definition np_take (a : list Z) (faces : list (vec3 Z)) : result (list (vec3 Z)) :=
  result_mapM (v3_mapM (np_index a)) faces.

(** ** [np.unique(ar, axis=0, return_inverse=True)] *)

(** [ar.argsort()] on the rows viewed as records: the interface to the
    sort. *)
Class ArgSort (A : Type) : Type := argsort : list (vec3 A) → list nat.
#[global] Hint Mode ArgSort ! : typeclass_instances.

(** [ar[perm]]: gather rows by index. *)
Definition np_take_rows {B} (ar : list B) (perm : list nat) : list B :=
  omap (λ i, ar !! i) perm.

(** [aux[mask]]: keep the entries whose mask is [True]. *)
Fixpoint np_compress {B} (mask : list bool) (aux : list B) : list B :=
  match mask, aux with
  | b :: mask', x :: aux' =>
      if b then x :: np_compress mask' aux' else np_compress mask' aux'
  | _, _ => []
  end.

(** [np.cumsum(mask)], with [True] counted as 1. *)
Fixpoint cumsum_from (acc : Z) (l : list bool) : list Z :=
  match l with
  | [] => []
  | b :: l' => (acc + Z.b2z b) :: cumsum_from (acc + Z.b2z b) l'
  end.

Definition np_cumsum (mask : list bool) : list Z := cumsum_from 0 mask.

(** [out = np.empty(n); out[perm] = vals]: scatter.  The cells of
    [np.empty] are arbitrary; every one is overwritten when [perm] is a
    permutation of [0..n-1]. *)
Definition np_scatter (n : nat) (perm : list nat) (vals : list Z) : list Z :=
  foldl (λ out iv, <[iv.1 := iv.2]> out) (replicate n 0) (zip perm vals).

Section unique.
Context `{Scalar A}.

(** [aux[1:] != aux[:-1]] on records. *)
Definition neq_adjacent (aux : list (vec3 A)) : list bool :=
  zip_with (λ cur prev, negb (row_eqb cur prev)) (drop 1 aux) aux.

(** [mask[:1] = True; mask[1:] = aux[1:] != aux[:-1]]. *)
Definition unique_mask (aux : list (vec3 A)) : list bool :=
  match aux with
  | [] => []
  | _ :: _ => true :: neq_adjacent aux
  end.

Definition np_unique_axis0 `{!ArgSort A} (ar : list (vec3 A))
    : list (vec3 A) * list Z :=
  let perm := argsort ar in
  let aux := np_take_rows ar perm in
  let mask := unique_mask aux in
  let imask := (λ c, c - 1) <$> np_cumsum mask in
  let inv_idx := np_scatter (length mask) perm imask in
  (np_compress mask aux, inv_idx).

(** The sort used to compute: a merge sort of the rows paired with their
    positions, ordered by [row_cmp]. *)
Definition keyed_le (p q : nat * vec3 A) : Prop := row_le p.2 q.2.

#[export] Instance keyed_le_dec : RelDecision keyed_le.
Proof. intros p q. unfold keyed_le. apply _. Defined.

#[export] Instance merge_argsort : ArgSort A :=
  λ ar, (merge_sort keyed_le (imap pair ar)).*1.

End unique.

(** What [np_unique_axis0] relies on from the sort: it returns a
    permutation of the positions ([ArgSortPerm]) that puts the rows in
    order ([ArgSortSorted]). *)
Class ArgSortPerm (A : Type) `{!ArgSort A} : Prop :=
  argsort_perm (ar : list (vec3 A)) : argsort ar ≡ₚ seq 0 (length ar).

Class ArgSortSorted (A : Type) `{Scalar A, !ArgSort A} : Prop :=
  argsort_sorted (ar : list (vec3 A)) :
    Sorted row_le (np_take_rows ar (argsort ar)).

(** ** Reference definition of grouping

    One pass over the sorted rows that keeps the previous row [p] and the
    number [g] of the current group: a row that compares [==] to its
    predecessor stays in the group, any other row opens the next one.  It
    returns the rows that open a group (after the first) and the group
    number of every row. *)
Section reference.
Context `{Scalar A}.

Fixpoint group_from (p : vec3 A) (g : Z) (l : list (vec3 A))
    : list (vec3 A) * list Z :=
  match l with
  | [] => ([], [])
  | y :: l' =>
      if row_eqb y p then
        let r := group_from y g l' in (r.1, g :: r.2)
      else
        let r := group_from y (g + 1) l' in (y :: r.1, (g + 1) :: r.2)
  end.

Definition group_sorted (aux : list (vec3 A)) : list (vec3 A) * list Z :=
  match aux with
  | [] => ([], [])
  | x :: l => let r := group_from x 0 l in (x :: r.1, 0 :: r.2)
  end.

End reference.

(** ** Lemmas: gather, compress, running sums, scatter *)

Section gather.
Context {B : Type}.
Implicit Types (ar : list B) (perm : list nat) (mask : list bool).

Lemma np_take_rows_lookup ar perm (k : nat) :
  Forall (λ i, (i < length ar)%nat) perm →
  np_take_rows ar perm !! k = perm !! k ≫= (ar !!.).
Proof.
  unfold np_take_rows. intros Hv. revert k.
  induction Hv as [|i perm Hi _ IH]; intros k; [done|]. simpl.
  destruct (lookup_lt_is_Some_2 ar i Hi) as [x Hx]. rewrite Hx.
  destruct k; simpl; [done | apply IH].
Qed.

Lemma np_take_rows_length ar perm :
  Forall (λ i, (i < length ar)%nat) perm →
  length (np_take_rows ar perm) = length perm.
Proof.
  unfold np_take_rows. induction 1 as [|i perm Hi _ IH]; [done|]. simpl.
  destruct (lookup_lt_is_Some_2 ar i Hi) as [x ->]. simpl. by f_equal.
Qed.

Lemma np_take_rows_seq ar : np_take_rows ar (seq 0 (length ar)) = ar.
Proof.
  apply list_eq. intros k. rewrite np_take_rows_lookup.
  - destruct (decide (k < length ar)%nat).
    + by rewrite lookup_seq_lt.
    + rewrite lookup_seq_ge, lookup_ge_None_2 by lia. done.
  - apply Forall_forall. intros i Hi%elem_of_seq. lia.
Qed.

Lemma perm_seq_valid perm (n : nat) :
  perm ≡ₚ seq 0 n → Forall (λ i, (i < n)%nat) perm.
Proof.
  intros Hp. rewrite Hp. apply Forall_forall. intros i Hi%elem_of_seq. lia.
Qed.

Lemma np_take_rows_perm ar perm :
  perm ≡ₚ seq 0 (length ar) → np_take_rows ar perm ≡ₚ ar.
Proof.
  intros Hp. unfold np_take_rows. rewrite Hp. apply (reflexive_eq (R:=Permutation)).
  apply np_take_rows_seq.
Qed.

Lemma np_compress_sublist mask (aux : list B) :
  np_compress mask aux `sublist_of` aux.
Proof.
  revert aux. induction mask as [|b mask IH]; intros [|x aux]; simpl;
    try apply sublist_nil_l.
  destruct b; [by apply sublist_skip | by apply sublist_cons].
Qed.

Lemma np_compress_length mask (aux : list B) :
  (length (np_compress mask aux) ≤ length aux)%nat.
Proof. apply sublist_length, np_compress_sublist. Qed.

End gather.

Lemma cumsum_from_length (acc : Z) (l : list bool) :
  length (cumsum_from acc l) = length l.
Proof. revert acc. induction l as [|b l IH]; intros acc; simpl; [done|]. by rewrite IH. Qed.

(** Scatter leaves the positions it does not name untouched. *)
Lemma np_scatter_foldl_notin (out : list Z) (perm : list nat) (vals : list Z)
    (i : nat) :
  i ∉ perm →
  foldl (λ out iv, <[iv.1 := iv.2]> out) out (zip perm vals) !! i = out !! i.
Proof.
  revert out vals. induction perm as [|j perm IH]; intros out vals Hi; [done|].
  destruct vals as [|w vals]; [done|]. apply not_elem_of_cons in Hi as [Hne Hi].
  simpl. rewrite IH by done. by apply list_lookup_insert_ne.
Qed.

(** Scatter through a duplicate-free index list: position [perm[k]]
    receives [vals[k]]. *)
Lemma np_scatter_foldl_lookup (out : list Z) (perm : list nat) (vals : list Z)
    (k i : nat) (v : Z) :
  NoDup perm → Forall (λ i, (i < length out)%nat) perm →
  perm !! k = Some i → vals !! k = Some v →
  foldl (λ out iv, <[iv.1 := iv.2]> out) out (zip perm vals) !! i = Some v.
Proof.
  intros Hnd. revert out vals k.
  induction Hnd as [|j perm Hj Hnd IH]; intros out vals k Hv Hk Hvk; [done|].
  destruct vals as [|w vals]; [done|]. apply Forall_cons in Hv as [Hjv Hv].
  destruct k as [|k]; simpl in *.
  - injection Hk as ->. injection Hvk as ->.
    rewrite np_scatter_foldl_notin by done. by apply list_lookup_insert_eq.
  - apply (IH _ _ k); rewrite ?length_insert; auto.
Qed.

Lemma np_scatter_length (n : nat) (perm : list nat) (vals : list Z) :
  length (np_scatter n perm vals) = n.
Proof.
  unfold np_scatter. generalize (length_replicate n 0%Z). generalize (replicate n 0%Z).
  generalize (zip perm vals). intros l. induction l as [|iv l IH]; intros out Hn; [done|].
  simpl. apply IH. by rewrite length_insert.
Qed.

Lemma np_scatter_lookup (n : nat) (perm : list nat) (vals : list Z)
    (k i : nat) (v : Z) :
  perm ≡ₚ seq 0 n → perm !! k = Some i → vals !! k = Some v →
  np_scatter n perm vals !! i = Some v.
Proof.
  intros Hp Hk Hv. unfold np_scatter. eapply np_scatter_foldl_lookup; try done.
  - rewrite Hp. apply NoDup_seq.
  - rewrite length_replicate. by apply perm_seq_valid.
Qed.

(** ** The mask / cumsum / compress steps compute the reference grouping *)

Section grouping.
Context `{Scalar A}.
Implicit Types (p h u r : vec3 A) (l aux us : list (vec3 A)) (g : Z).

Lemma neq_adjacent_cons p r l :
  neq_adjacent (p :: r :: l) = negb (row_eqb r p) :: neq_adjacent (r :: l).
Proof. done. Qed.

Lemma group_from_mask p g l :
  np_compress (neq_adjacent (p :: l)) l = (group_from p g l).1 ∧
  (λ c, c - 1) <$> cumsum_from (g + 1) (neq_adjacent (p :: l)) = (group_from p g l).2.
Proof.
  revert p g. induction l as [|r l IH]; intros p g; [done|].
  rewrite neq_adjacent_cons. simpl. destruct (row_eqb r p); simpl.
  - destruct (IH r g) as [-> <-]. rewrite Z.add_0_r. split; [done|]. f_equal. lia.
  - destruct (IH r (g + 1)) as [-> <-]. split; [done|]. f_equal. lia.
Qed.

(** The three NumPy steps on the sorted rows are the one-pass grouping. *)
Lemma unique_mask_group aux :
  (np_compress (unique_mask aux) aux,
   (λ c, c - 1) <$> np_cumsum (unique_mask aux)) = group_sorted aux.
Proof.
  destruct aux as [|x l]; [done|]. unfold np_cumsum. simpl.
  by destruct (group_from_mask x 0 l) as [-> <-].
Qed.

Lemma unique_mask_length aux : length (unique_mask aux) = length aux.
Proof.
  destruct aux as [|x l]; [done|]. unfold unique_mask, neq_adjacent. simpl.
  rewrite drop_0, length_zip_with_l; [done | simpl; lia].
Qed.

Lemma group_from_length p g l : length (group_from p g l).2 = length l.
Proof.
  revert p g. induction l as [|r l IH]; intros p g; [done|]. simpl.
  destruct (row_eqb r p); simpl; by rewrite IH.
Qed.

Lemma group_from_sublist p g l : (group_from p g l).1 `sublist_of` l.
Proof. destruct (group_from_mask p g l) as [<- _]. apply np_compress_sublist. Qed.

(** Group numbers start at [g] and never exceed [g] plus the number of
    groups opened. *)
Lemma group_from_bounds p g l :
  Forall (λ i, g ≤ i ≤ g + Z.of_nat (length (group_from p g l).1)) (group_from p g l).2.
Proof.
  revert p g. induction l as [|r l IH]; intros p g; [by constructor|]. simpl.
  destruct (row_eqb r p); simpl; constructor; try lia.
  - apply IH.
  - eapply Forall_impl; [apply IH|]. simpl. lia.
Qed.

End grouping.

Section grouping_order.
Context `{ScalarOrder A}.
Implicit Types (p h u r : vec3 A) (l aux us : list (vec3 A)) (g : Z).

(** Every row is in the group of a row that is the same to NumPy: with [h]
    the row that opened the group of [p], the group number of a row of [l],
    counted from [g], indexes into [h :: us] a row the same as it. *)
Lemma group_from_lookup p h g l (k : nat) r i :
  row_same h p → l !! k = Some r → (group_from p g l).2 !! k = Some i →
  ∃ u, (h :: (group_from p g l).1) !! Z.to_nat (i - g) = Some u ∧ row_same u r.
Proof.
  revert p h g k. induction l as [|y l IH]; intros p h g k Hh Hk Hi; [done|].
  simpl in Hi |- *. destruct (row_eqb y p) eqn:E; simpl in *.
  - assert (row_same h y) as Hy.
    { etrans; [done|]. right. by apply row_eqb_sym. }
    destruct k as [|k]; simpl in *.
    + injection Hk as ->. injection Hi as <-. rewrite Z.sub_diag. by exists h.
    + by apply (IH y h g k).
  - destruct k as [|k]; simpl in *.
    + injection Hk as ->. injection Hi as <-.
      replace (g + 1 - g) with 1 by lia. by exists r.
    + destruct (IH y y (g + 1) k) as (u & Hu & Hs); [done..|].
      pose proof (group_from_bounds y (g + 1) l) as Hb.
      rewrite Forall_lookup in Hb. specialize (Hb _ _ Hi). simpl in Hb.
      exists u. split; [|done].
      replace (Z.to_nat (i - g)) with (S (Z.to_nat (i - (g + 1)))) by lia. done.
Qed.

(** Reconstruction on the sorted rows: the group number of a row indexes a
    row of the output that NumPy treats as the same. *)
Lemma group_sorted_lookup aux (k : nat) r :
  aux !! k = Some r →
  ∃ i u, (group_sorted aux).2 !! k = Some i ∧
    0 ≤ i < Z.of_nat (length (group_sorted aux).1) ∧
    (group_sorted aux).1 !! Z.to_nat i = Some u ∧ row_same u r.
Proof.
  destruct aux as [|x l]; [done|]. simpl. intros Hk.
  destruct k as [|k]; simpl in *.
  - injection Hk as ->. exists 0, r. split_and!; [done|lia|lia|done|done].
  - destruct (lookup_lt_is_Some_2 (group_from x 0 l).2 k) as [i Hi].
    { rewrite group_from_length. by eapply lookup_lt_Some. }
    destruct (group_from_lookup x x 0 l k r i) as (u & Hu & Hs); [done..|].
    pose proof (group_from_bounds x 0 l) as Hb.
    rewrite Forall_lookup in Hb. specialize (Hb _ _ Hi). simpl in Hb.
    rewrite Z.sub_0_r in Hu. exists i, u. split_and!; [done|lia|lia|done|done].
Qed.

End grouping_order.

Section grouping_sorted.
Context `{ScalarOrder A}.
Implicit Types (p h u r : vec3 A) (l aux us : list (vec3 A)) (g : Z).

#[export] Instance row_lt_trans : Transitive (row_lt (A:=A)).
Proof.
  intros u v w Huv Hvw. unfold row_lt in *.
  apply (cmp_lt_le_trans row_cmp u v w); [done | congruence].
Qed.

#[export] Instance row_lt_irrefl : Irreflexive (row_lt (A:=A)).
Proof. intros u Hu. unfold row_lt in Hu. by rewrite (cmp_refl row_cmp) in Hu. Qed.

(** On sorted rows without NaN, the rows that open a group are strictly
    increasing. *)
Lemma group_from_sorted p h g l :
  row_same h p → Sorted row_le (p :: l) →
  Forall (λ r, row_isnan r = false) (p :: l) →
  Sorted row_lt (h :: (group_from p g l).1).
Proof.
  revert p h g. induction l as [|y l IH]; intros p h g Hh Hs Hn.
  { repeat constructor. }
  apply Sorted_inv in Hs as [Hs Hpy]. apply HdRel_inv in Hpy.
  apply Forall_cons in Hn as [Hp Hn].
  simpl. destruct (row_eqb y p) eqn:E; simpl.
  - apply IH; [|done..]. etrans; [done|]. right. by apply row_eqb_sym.
  - constructor; [by apply IH|]. constructor.
    apply (cmp_le_lt_trans row_cmp h p y).
    + by rewrite (row_same_cmp h p).
    + by apply row_le_neq_lt.
Qed.

Lemma group_sorted_sorted aux :
  Sorted row_le aux → Forall (λ r, row_isnan r = false) aux →
  StronglySorted row_lt (group_sorted aux).1.
Proof.
  intros Hs Hn. apply Sorted_StronglySorted; [apply _|].
  destruct aux as [|x l]; [constructor|]. simpl. by apply group_from_sorted.
Qed.

(** A row with a NaN equals no row, itself included, so a run of such
    rows is never merged: every one of them opens a group. *)
Lemma group_from_nan p g l :
  Forall (λ r, row_isnan r = true) l → (group_from p g l).1 = l.
Proof.
  intros Hl. revert p g. induction Hl as [|r l Hr _ IH]; intros p g; [done|]. simpl.
  destruct (row_eqb r p) eqn:E; [|simpl; by rewrite IH].
  apply row_eqb_notnan in E as [E _]. congruence.
Qed.

Lemma group_sorted_nan aux :
  Forall (λ r, row_isnan r = true) aux → (group_sorted aux).1 = aux.
Proof. destruct 1 as [|r l Hr Hl]; [done|]. simpl. by rewrite group_from_nan. Qed.

End grouping_sorted.

Section grouping_bounds.
Context `{Scalar A}.

Lemma group_sorted_length (aux : list (vec3 A)) :
  length (group_sorted aux).2 = length aux.
Proof. destruct aux as [|x l]; [done|]. simpl. by rewrite group_from_length. Qed.

Lemma group_sorted_bounds (aux : list (vec3 A)) :
  Forall (λ i, 0 ≤ i < Z.of_nat (length (group_sorted aux).1)) (group_sorted aux).2.
Proof.
  destruct aux as [|x l]; [constructor|]. simpl. constructor; [lia|].
  eapply Forall_impl; [apply group_from_bounds|]. simpl. lia.
Qed.

Lemma group_sorted_sublist (aux : list (vec3 A)) :
  (group_sorted aux).1 `sublist_of` aux.
Proof.
  destruct aux as [|x l]; [done|]. simpl. apply sublist_skip, group_from_sublist.
Qed.

End grouping_bounds.

(** ** [np_unique_axis0] *)

Section np_unique.
Context `{Scalar A, !ArgSort A, !ArgSortPerm A}.
Implicit Types (ar : list (vec3 A)) (u r : vec3 A).

Lemma sorted_rows_perm ar : np_take_rows ar (argsort ar) ≡ₚ ar.
Proof. apply np_take_rows_perm, argsort_perm. Qed.

Lemma sorted_rows_length ar : length (np_take_rows ar (argsort ar)) = length ar.
Proof. by rewrite sorted_rows_perm. Qed.

(** [np_unique_axis0] in terms of the reference grouping of the sorted
    rows. *)
Lemma np_unique_axis0_group ar :
  np_unique_axis0 ar =
    ((group_sorted (np_take_rows ar (argsort ar))).1,
     np_scatter (length ar) (argsort ar)
       (group_sorted (np_take_rows ar (argsort ar))).2).
Proof.
  unfold np_unique_axis0.
  pose proof (unique_mask_group (np_take_rows ar (argsort ar))) as E.
  apply (f_equal fst) in E as E1. apply (f_equal snd) in E as E2. simpl in E1, E2.
  by rewrite E1, E2, unique_mask_length, sorted_rows_length.
Qed.

(** The position in sorted order of an original position. *)
Lemma argsort_position ar (j : nat) r :
  ar !! j = Some r →
  ∃ k, argsort ar !! k = Some j ∧ np_take_rows ar (argsort ar) !! k = Some r.
Proof.
  intros Hj. assert (j ∈ argsort ar) as [k Hk]%list_elem_of_lookup.
  { rewrite (argsort_perm ar), elem_of_seq. apply lookup_lt_Some in Hj. lia. }
  exists k. split; [done|]. rewrite np_take_rows_lookup, Hk; [done|].
  apply perm_seq_valid, argsort_perm.
Qed.

Lemma np_unique_inverse_length ar : length (np_unique_axis0 ar).2 = length ar.
Proof. rewrite np_unique_axis0_group. apply np_scatter_length. Qed.

Lemma np_unique_length ar : (length (np_unique_axis0 ar).1 ≤ length ar)%nat.
Proof.
  rewrite np_unique_axis0_group. simpl.
  etrans; [apply sublist_length, group_sorted_sublist|]. by rewrite sorted_rows_length.
Qed.

Lemma np_unique_elem_of ar u : u ∈ (np_unique_axis0 ar).1 → u ∈ ar.
Proof.
  rewrite np_unique_axis0_group. simpl. intros Hu.
  rewrite <-(sorted_rows_perm ar). eapply elem_of_sublist; [done|].
  apply group_sorted_sublist.
Qed.

(** The inverse index of a position is the group number of that position
    in sorted order. *)
Lemma np_unique_inverse_lookup ar (j k : nat) :
  argsort ar !! k = Some j →
  (np_unique_axis0 ar).2 !! j =
    (group_sorted (np_take_rows ar (argsort ar))).2 !! k.
Proof.
  intros Hk. rewrite np_unique_axis0_group. simpl.
  destruct ((group_sorted (np_take_rows ar (argsort ar))).2 !! k) as [i|] eqn:Hi.
  - eapply np_scatter_lookup; [apply argsort_perm|done..].
  - apply lookup_ge_None in Hi. apply lookup_lt_Some in Hk.
    rewrite group_sorted_length, sorted_rows_length in Hi.
    rewrite (argsort_perm ar), length_seq in Hk. lia.
Qed.

(** Every inverse index is a valid index into the unique rows, for any
    element type. *)
Lemma np_unique_inverse_valid ar :
  Forall (λ i, 0 ≤ i < Z.of_nat (length (np_unique_axis0 ar).1)) (np_unique_axis0 ar).2.
Proof.
  apply Forall_lookup. intros j i Hi.
  destruct (lookup_lt_is_Some_2 ar j) as [r Hr].
  { rewrite <-np_unique_inverse_length. by eapply lookup_lt_Some. }
  destruct (argsort_position ar j r Hr) as (k & Hk & _).
  rewrite (np_unique_inverse_lookup ar j k Hk) in Hi.
  pose proof (group_sorted_bounds (np_take_rows ar (argsort ar))) as Hb.
  rewrite Forall_lookup in Hb. specialize (Hb _ _ Hi).
  by rewrite np_unique_axis0_group.
Qed.

End np_unique.

Section np_unique_order.
Context `{ScalarOrder A, !ArgSort A, !ArgSortPerm A}.
Implicit Types (ar : list (vec3 A)) (u r : vec3 A).

(** [unique[inverse[j]]] is row [j] of the input, up to [==]. *)
Lemma np_unique_inverse ar (j : nat) r :
  ar !! j = Some r →
  ∃ i u, (np_unique_axis0 ar).2 !! j = Some i ∧
    (np_unique_axis0 ar).1 !! Z.to_nat i = Some u ∧ row_same u r.
Proof.
  intros Hr. destruct (argsort_position ar j r Hr) as (k & Hk & Haux).
  destruct (group_sorted_lookup _ k r Haux) as (i & u & Hi & _ & Hu & Hs).
  exists i, u. rewrite (np_unique_inverse_lookup ar j k Hk).
  by rewrite np_unique_axis0_group.
Qed.

(** Without NaN the unique rows are strictly increasing in the
    lexicographic order. *)
Lemma np_unique_sorted `{!ArgSortSorted A} ar :
  Forall (λ r, row_isnan r = false) ar →
  StronglySorted row_lt (np_unique_axis0 ar).1.
Proof.
  intros Hn. rewrite np_unique_axis0_group. simpl.
  apply group_sorted_sorted; [apply argsort_sorted|]. by rewrite sorted_rows_perm.
Qed.

(** When every row has a NaN, [np.unique] removes nothing: its rows are
    the input in the order of the sort. *)
Lemma np_unique_all_nan ar :
  Forall (λ r, row_isnan r = true) ar → (np_unique_axis0 ar).1 ≡ₚ ar.
Proof.
  intros Hn. rewrite np_unique_axis0_group. cbn [fst].
  rewrite group_sorted_nan; [apply sorted_rows_perm|]. by rewrite sorted_rows_perm.
Qed.

End np_unique_order.

(** ** The merge sort discharges the sort interface *)

Section merge_argsort.
Context `{Scalar A}.
Implicit Types (ar : list (vec3 A)).

Lemma index_rows_fst ar : (imap pair ar).*1 = seq 0 (length ar).
Proof.
  rewrite fmap_imap. etrans; [apply (imap_seq_0 ar id)|]. apply list_fmap_id.
Qed.

Lemma index_rows_lookup ar : Forall (λ p, ar !! p.1 = Some p.2) (imap pair ar).
Proof.
  apply Forall_lookup. intros k [i r]. rewrite list_lookup_imap.
  destruct (ar !! k) eqn:E; simpl; [|done]. by intros [= <- <-].
Qed.

Lemma np_take_rows_keyed ar (ps : list (nat * vec3 A)) :
  Forall (λ p, ar !! p.1 = Some p.2) ps → np_take_rows ar ps.*1 = ps.*2.
Proof.
  unfold np_take_rows. induction 1 as [|[i r] ps Hp _ IH]; [done|].
  simpl in *. rewrite Hp. simpl. by f_equal.
Qed.

#[export] Instance merge_argsort_perm : ArgSortPerm A.
Proof.
  intros ar. unfold argsort, merge_argsort.
  by rewrite merge_sort_Permutation, index_rows_fst.
Qed.

Lemma merge_argsort_rows ar :
  np_take_rows ar (argsort ar) = (merge_sort keyed_le (imap pair ar)).*2.
Proof.
  apply np_take_rows_keyed. rewrite merge_sort_Permutation. apply index_rows_lookup.
Qed.

End merge_argsort.

#[export] Instance keyed_le_total `{ScalarOrder A} : Total (keyed_le (A:=A)).
Proof. intros p q. apply (total row_le). Qed.

#[export] Instance merge_argsort_sorted `{ScalarOrder A} : ArgSortSorted A.
Proof.
  intros ar. rewrite merge_argsort_rows.
  apply (Sorted_fmap snd keyed_le row_le); [done|]. apply Sorted_merge_sort, _.
Qed.

(** ** A second sort

    Sorting the reversed array and reading the positions backwards also
    implements the interface; among equal rows it returns the positions in
    the opposite order.  It is not an instance: it serves to apply the
    theorems to two sorts that break ties differently. *)
Section rev_argsort.
Context `{ScalarOrder A}.
Implicit Types (ar : list (vec3 A)).

Definition rev_argsort : ArgSort A := λ ar,
  (λ i, length ar - S i)%nat <$> merge_argsort (reverse ar).

Lemma rev_positions (n : nat) : (λ i, n - S i)%nat <$> seq 0 n ≡ₚ seq 0 n.
Proof.
  replace ((λ i, n - S i)%nat <$> seq 0 n) with (reverse (seq 0 n));
    [apply reverse_Permutation|].
  symmetry. apply list_eq. intros i. rewrite list_lookup_fmap.
  destruct (decide (i < n)%nat) as [Hi|Hi].
  - rewrite reverse_lookup, length_seq, !lookup_seq_lt by (rewrite ?length_seq; lia).
    done.
  - rewrite !lookup_ge_None_2; [done|..]; rewrite ?length_reverse, length_seq; lia.
Qed.

Lemma rev_argsort_perm : @ArgSortPerm A rev_argsort.
Proof.
  intros ar. unfold argsort at 1, rev_argsort.
  pose proof (argsort_perm (ArgSort0:=merge_argsort) (reverse ar)) as E.
  unfold argsort in E. rewrite E, length_reverse. apply rev_positions.
Qed.

Lemma rev_argsort_rows ar :
  np_take_rows ar (rev_argsort ar) = np_take_rows (reverse ar) (merge_argsort (reverse ar)).
Proof.
  unfold np_take_rows, rev_argsort. apply list_omap_ext, Forall2_fmap_l.
  apply Forall_Forall2_diag, Forall_forall. intros i Hi. cbn [compose].
  pose proof (argsort_perm (ArgSort0:=merge_argsort) (reverse ar)) as E.
  unfold argsort in E. rewrite E, length_reverse in Hi.
  apply elem_of_seq in Hi. by rewrite reverse_lookup by lia.
Qed.

Lemma rev_argsort_sorted : @ArgSortSorted A _ rev_argsort.
Proof.
  intros ar. unfold argsort. rewrite rev_argsort_rows.
  apply (argsort_sorted (ArgSort0:=merge_argsort)).
Qed.

End rev_argsort.

(** ** Integer indexing and the [int32] cast *)

Lemma np_index_ok (a : list Z) (i x : Z) :
  np_index a i = Ok x ↔
  (0 ≤ i ∧ a !! Z.to_nat i = Some x) ∨
  (- Z.of_nat (length a) ≤ i < 0 ∧ a !! Z.to_nat (i + Z.of_nat (length a)) = Some x).
Proof.
  unfold np_index. split.
  - repeat case_decide; try done; destruct (a !! _) eqn:E; intros [= <-];
      [right | left]; split; (lia || done).
  - intros [[Hi Hx]|[Hi Hx]]; pose proof (lookup_lt_Some _ _ _ Hx);
      repeat case_decide; try lia; by rewrite Hx.
Qed.

Lemma np_index_raise (a : list Z) (i : Z) (e : exn) :
  np_index a i = Raise e ↔
  e = IndexError i (length a) ∧
  (i < - Z.of_nat (length a) ∨ Z.of_nat (length a) ≤ i).
Proof.
  unfold np_index. split.
  - repeat case_decide; try (intros [= <-]; split; [done|lia]);
      (destruct (a !! _) eqn:E; [done|]); apply lookup_ge_None in E; lia.
  - intros [-> Hi]. repeat case_decide; try done; lia.
Qed.

(** The position an in-range index refers to. *)
Lemma np_index_resolve (a : list Z) (i x : Z) :
  np_index a i = Ok x ↔
  index_in_range (length a) i ∧ a !! np_resolve (length a) i = Some x.
Proof.
  rewrite np_index_ok. unfold index_in_range, np_resolve. split.
  - intros [[Hi Hx]|[Hi Hx]]; pose proof (lookup_lt_Some _ _ _ Hx);
      case_decide; try lia; split; (lia || done).
  - intros [Hi Hx]. case_decide; [right | left]; split; (lia || done).
Qed.

Lemma np_index_elem_of (a : list Z) (i x : Z) : np_index a i = Ok x → x ∈ a.
Proof.
  rewrite np_index_ok. intros [[_ Hx]|[_ Hx]]; by eapply list_elem_of_lookup_2.
Qed.

Lemma np_index_total (a : list Z) (i : Z) :
  - Z.of_nat (length a) ≤ i < Z.of_nat (length a) → is_ok (np_index a i) = true.
Proof.
  intros Hi. destruct (np_index a i) as [x|e] eqn:E; [done|].
  apply np_index_raise in E. lia.
Qed.

Lemma v3_mapM_ok {B C} (f : B → result C) (v : vec3 B) (w : vec3 C) :
  v3_mapM f v = Ok w ↔
  f (vx v) = Ok (vx w) ∧ f (vy v) = Ok (vy w) ∧ f (vz v) = Ok (vz w).
Proof.
  unfold v3_mapM. destruct w as [x y z]; simpl.
  destruct (f (vx v)), (f (vy v)), (f (vz v)); simpl; naive_solver.
Qed.

Lemma v3_mapM_raise {B C} (f : B → result C) (v : vec3 B) (e : exn) :
  v3_mapM f v = Raise e → ∃ x, x ∈ v3_list v ∧ f x = Raise e.
Proof.
  unfold v3_mapM, v3_list.
  destruct (f (vx v)) eqn:?, (f (vy v)) eqn:?, (f (vz v)) eqn:?; simpl;
    intros [= <-]; eexists; (split; [|eassumption]); repeat constructor.
Qed.

(** Fancy indexing returns elements of the indexed array, one triple per
    index triple. *)
Lemma np_take_ok (a : list Z) (faces out : list (vec3 Z)) :
  np_take a faces = Ok out ↔
  Forall2 (λ f o, np_index a (vx f) = Ok (vx o) ∧ np_index a (vy f) = Ok (vy o) ∧
                  np_index a (vz f) = Ok (vz o)) faces out.
Proof.
  unfold np_take. rewrite result_mapM_ok.
  split; intros Hf; (eapply Forall2_impl; [exact Hf|]); intros f o; apply v3_mapM_ok.
Qed.

Lemma np_take_length (a : list Z) (faces out : list (vec3 Z)) :
  np_take a faces = Ok out → length out = length faces.
Proof. apply result_mapM_length. Qed.

(** What fancy indexing returns are elements of the indexed array. *)
Lemma np_take_elem_of (a : list Z) (faces out : list (vec3 Z)) :
  np_take a faces = Ok out → Forall (v3_Forall (λ x, x ∈ a)) out.
Proof.
  rewrite np_take_ok. intros Hf. eapply Forall2_Forall_r; [done|].
  apply Forall_true. intros f o (?&?&?). split_and!; by eapply np_index_elem_of.
Qed.

(** Fancy indexing succeeds exactly when every index is in [[-n, n)]. *)
Lemma np_take_total (a : list Z) (faces : list (vec3 Z)) :
  Forall (v3_Forall (index_in_range (length a))) faces ↔
  ∃ out, np_take a faces = Ok out.
Proof.
  split.
  - intros Hf. apply result_mapM_total. eapply Forall_impl; [done|].
    intros f (Hx&Hy&Hz). simpl in *. unfold v3_mapM.
    apply np_index_total in Hx, Hy, Hz.
    by destruct (np_index a (vx f)), (np_index a (vy f)), (np_index a (vz f)).
  - intros [out Hout%np_take_ok]. eapply Forall2_Forall_l; [done|].
    apply Forall_true. intros f o (Hx&Hy&Hz). unfold index_in_range.
    apply np_index_ok in Hx, Hy, Hz.
    pose proof (lookup_lt_Some a) as Hlt.
    split_and!; simpl;
      match goal with H : _ ∨ _ |- _ => destruct H as [[? E]|[? E]]; apply Hlt in E; lia end.
Qed.

(** When it raises, the exception names an index of [faces] that is out of
    range. *)
Lemma np_take_raise (a : list Z) (faces : list (vec3 Z)) (e : exn) :
  np_take a faces = Raise e →
  ∃ f i, f ∈ faces ∧ i ∈ v3_list f ∧ ¬ index_in_range (length a) i ∧
    e = IndexError i (length a).
Proof.
  intros (f & Hf & Hr)%result_mapM_raise.
  apply v3_mapM_raise in Hr as (i & Hi & Hr). apply np_index_raise in Hr as [-> Hr].
  exists f, i. split_and!; [done..| |done]. unfold index_in_range. lia.
Qed.

(** Indexing the array [0, 1, ..., n-1] by valid indices returns them. *)
Lemma np_index_arange (n : nat) (i : Z) :
  0 ≤ i < Z.of_nat n → np_index (Z.of_nat <$> seq 0 n) i = Ok i.
Proof.
  intros Hi. apply np_index_ok. left. split; [lia|].
  rewrite list_lookup_fmap, lookup_seq_lt by lia. simpl. f_equal. lia.
Qed.

Lemma np_take_arange (n : nat) (faces : list (vec3 Z)) :
  Forall (v3_Forall (λ i, 0 ≤ i < Z.of_nat n)) faces →
  np_take (Z.of_nat <$> seq 0 n) faces = Ok faces.
Proof.
  intros Hf. apply np_take_ok, Forall_Forall2_diag. eapply Forall_impl; [done|].
  intros f (?&?&?). split_and!; by apply np_index_arange.
Qed.

Lemma wrap_int32_range (z : Z) : - 2 ^ 31 ≤ wrap_int32 z < 2 ^ 31.
Proof. unfold wrap_int32. pose proof (Z.mod_pos_bound (z + 2 ^ 31) (2 ^ 32)). lia. Qed.

Lemma wrap_int32_id (z : Z) : - 2 ^ 31 ≤ z < 2 ^ 31 → wrap_int32 z = z.
Proof. intros Hz. unfold wrap_int32. rewrite Z.mod_small; lia. Qed.

Lemma wrap_int32_congr (z : Z) : (wrap_int32 z - z) `mod` 2 ^ 32 = 0.
Proof.
  unfold wrap_int32. rewrite (Z.mod_eq (z + 2 ^ 31) (2 ^ 32)) by lia.
  replace (_ - _ - _ - _) with (- ((z + 2 ^ 31) `div` 2 ^ 32) * 2 ^ 32) by lia.
  apply Z.mod_mul. lia.
Qed.

(** ** [np_unique_axis0] when [==] is equality *)

Lemma StronglySorted_NoDup {B} (R : relation B) `{!Irreflexive R} (l : list B) :
  StronglySorted R l → NoDup l.
Proof.
  induction 1 as [|x l _ IH Hx]; constructor; [|done].
  intros Hin. rewrite Forall_forall in Hx. by apply (irreflexivity R x), Hx.
Qed.

Section np_unique_exact.
Context `{ScalarOrder A, !ExactEq A}.
Implicit Types (ar : list (vec3 A)) (u r : vec3 A).

(** The unique rows are the rows of the input, as a set. *)
Lemma np_unique_elem_of_iff `{!ArgSort A, !ArgSortPerm A} ar u :
  u ∈ (np_unique_axis0 ar).1 ↔ u ∈ ar.
Proof.
  split; [apply np_unique_elem_of|]. intros [j Hj]%list_elem_of_lookup.
  destruct (np_unique_inverse ar j u Hj) as (i & u' & _ & Hu & ->%row_same_eq).
  by eapply list_elem_of_lookup_2.
Qed.

(** [unique[inverse[j]] = ar[j]]. *)
Lemma np_unique_inverse_eq `{!ArgSort A, !ArgSortPerm A} ar (j : nat) r :
  ar !! j = Some r →
  ∃ i, (np_unique_axis0 ar).2 !! j = Some i ∧
       (np_unique_axis0 ar).1 !! Z.to_nat i = Some r.
Proof.
  intros Hj. destruct (np_unique_inverse ar j r Hj) as (i & u & Hi & Hu & ->%row_same_eq).
  by exists i.
Qed.

Lemma np_unique_strictly_sorted `{!ArgSort A, !ArgSortPerm A, !ArgSortSorted A} ar :
  StronglySorted row_lt (np_unique_axis0 ar).1.
Proof. apply np_unique_sorted, Forall_forall. intros r _. apply exact_row_notnan. Qed.

Lemma np_unique_NoDup `{!ArgSort A, !ArgSortPerm A, !ArgSortSorted A} ar :
  NoDup (np_unique_axis0 ar).1.
Proof. apply (StronglySorted_NoDup row_lt), np_unique_strictly_sorted. Qed.

(** Two positions get the same inverse index exactly when their rows are
    equal. *)
Lemma np_unique_inverse_inj `{!ArgSort A, !ArgSortPerm A, !ArgSortSorted A}
    ar (i j : nat) ri rj :
  ar !! i = Some ri → ar !! j = Some rj →
  (np_unique_axis0 ar).2 !! i = (np_unique_axis0 ar).2 !! j ↔ ri = rj.
Proof.
  intros Hi Hj.
  destruct (np_unique_inverse_eq ar i ri Hi) as (ki & Hki & Hui).
  destruct (np_unique_inverse_eq ar j rj Hj) as (kj & Hkj & Huj).
  pose proof (np_unique_inverse_valid ar) as V. rewrite Forall_lookup in V.
  pose proof (V _ _ Hki). pose proof (V _ _ Hkj). rewrite Hki, Hkj. split.
  - intros [= ->]. congruence.
  - intros ->. f_equal.
    pose proof (NoDup_lookup _ _ _ _ (np_unique_NoDup ar) Hui Huj). lia.
Qed.

(** The unique rows are the one strictly increasing list with the
    elements of the input. *)
Lemma np_unique_rows_eq `{!ArgSort A, !ArgSortPerm A, !ArgSortSorted A} ar (l : list (vec3 A)) :
  StronglySorted row_lt l → (∀ u, u ∈ l ↔ u ∈ ar) → (np_unique_axis0 ar).1 = l.
Proof.
  intros Hl Hel. apply (StronglySorted_unique_strong row_lt);
    [|apply np_unique_strictly_sorted|done|].
  - intros x1 x2 _ _ H12 H21. by destruct (irreflexivity row_lt x1); trans x2.
  - apply NoDup_Permutation;
      [apply np_unique_NoDup | by apply (StronglySorted_NoDup row_lt) |].
    intros u. by rewrite np_unique_elem_of_iff, Hel.
Qed.

(** The inverse is determined by the unique rows. *)
Lemma np_unique_inverse_eq_lookup `{!ArgSort A, !ArgSortPerm A, !ArgSortSorted A}
    ar (j k : nat) r :
  ar !! j = Some r → (np_unique_axis0 ar).1 !! k = Some r →
  (np_unique_axis0 ar).2 !! j = Some (Z.of_nat k).
Proof.
  intros Hj Hk. destruct (np_unique_inverse_eq ar j r Hj) as (i & Hi & Hu).
  pose proof (NoDup_lookup _ _ _ _ (np_unique_NoDup ar) Hu Hk) as E.
  pose proof (np_unique_inverse_valid ar) as V. rewrite Forall_lookup in V.
  specialize (V _ _ Hi). simpl in V. rewrite Hi. f_equal. lia.
Qed.

(** A strictly increasing array is returned as it is, with the identity
    as inverse: a second [np.unique] changes nothing. *)
Lemma np_unique_fixed `{!ArgSort A, !ArgSortPerm A, !ArgSortSorted A} ar :
  StronglySorted row_lt ar →
  np_unique_axis0 ar = (ar, Z.of_nat <$> seq 0 (length ar)).
Proof.
  intros Hs. pose proof (np_unique_rows_eq ar ar Hs (λ _, reflexivity _)) as E1.
  apply injective_projections; [done|]. apply list_eq. intros j. cbn [snd].
  destruct (ar !! j) as [r|] eqn:Hj.
  - rewrite (np_unique_inverse_eq_lookup ar j j r), list_lookup_fmap by congruence.
    by rewrite lookup_seq_lt by by eapply lookup_lt_Some.
  - apply lookup_ge_None in Hj.
    rewrite !(lookup_ge_None_2 _ j); [done|..];
      by rewrite ?np_unique_inverse_length, ?length_fmap, ?length_seq.
Qed.

(** The result does not depend on which lawful sort is used: NumPy's
    unspecified order among equal rows cannot be observed. *)
Lemma np_unique_sort_independent (S1 S2 : ArgSort A)
    `{!@ArgSortPerm A S1, !@ArgSortSorted A _ S1,
      !@ArgSortPerm A S2, !@ArgSortSorted A _ S2} ar :
  @np_unique_axis0 A _ S1 ar = @np_unique_axis0 A _ S2 ar.
Proof.
  assert ((@np_unique_axis0 A _ S1 ar).1 = (@np_unique_axis0 A _ S2 ar).1) as E1.
  { apply (np_unique_rows_eq (ArgSort0:=S1));
      [apply (np_unique_strictly_sorted (ArgSort0:=S2))|].
    intros u. apply (np_unique_elem_of_iff (ArgSort0:=S2)). }
  apply injective_projections; [done|]. apply list_eq. intros j.
  destruct (ar !! j) as [r|] eqn:Hj.
  - destruct (np_unique_inverse_eq (ArgSort0:=S2) ar j r Hj) as (i2 & Hi2 & Hu2).
    pose proof (np_unique_inverse_valid (ArgSort0:=S2) ar) as V.
    rewrite Forall_lookup in V. specialize (V _ _ Hi2). simpl in V.
    rewrite <-E1 in Hu2.
    rewrite (np_unique_inverse_eq_lookup (ArgSort0:=S1) ar j _ r Hj Hu2), Hi2.
    f_equal. lia.
  - apply lookup_ge_None in Hj.
    rewrite !(lookup_ge_None_2 _ j); [done|..];
      by rewrite np_unique_inverse_length.
Qed.

End np_unique_exact.

(** ** Theorems on the NumPy calls *)

Section numpy_claims.
Context `{Scalar A, !ArgSort A, !ArgSortPerm A}.
Implicit Types (ar : list (vec3 A)).

(** C4: the mask / running-count / scatter steps of [numpy.unique]
    compute the one-pass reference grouping of the sorted rows: the kept
    rows are the rows that open a group, and the inverse index of a row is
    the number of its group, moved back to the position the row had before
    sorting. *)
Theorem np_unique_reference ar :
  let aux := np_take_rows ar (argsort ar) in
  (np_compress (unique_mask aux) aux,
   (λ c, c - 1) <$> np_cumsum (unique_mask aux)) = group_sorted aux ∧
  np_unique_axis0 ar =
    ((group_sorted aux).1, np_scatter (length ar) (argsort ar) (group_sorted aux).2).
Proof. split; [apply unique_mask_group | apply np_unique_axis0_group]. Qed.

End numpy_claims.

(** ** The theorems at concrete inputs *)

(** Four rows, two of them equal, not in order. *)
Definition sample_rows : list (vec3 Qc) :=
  [V3 (Qc_of_Z 2) 0%Qc 0%Qc; V3 (Qc_of_Z 1) (Qc_of_Z 5) 0%Qc;
   V3 (Qc_of_Z 2) 0%Qc 0%Qc; V3 (Qc_of_Z 1) (Qc_of_Z 4) 0%Qc].

Example np_unique_sample :
  np_unique_axis0 sample_rows =
    ([V3 (Qc_of_Z 1) (Qc_of_Z 4) 0%Qc; V3 (Qc_of_Z 1) (Qc_of_Z 5) 0%Qc;
      V3 (Qc_of_Z 2) 0%Qc 0%Qc], [2; 1; 2; 0]).
Proof. vm_compute. reflexivity. Qed.

Lemma np_unique_reference_witness :
  let aux := np_take_rows sample_rows (argsort sample_rows) in
  (np_compress (unique_mask aux) aux,
   (λ c, c - 1) <$> np_cumsum (unique_mask aux)) = group_sorted aux ∧
  np_unique_axis0 sample_rows =
    ((group_sorted aux).1,
     np_scatter (length sample_rows) (argsort sample_rows) (group_sorted aux).2).
Proof. exact (np_unique_reference sample_rows). Defined.
