(* ===== verification/World.v ===== *)
(** * The world of the program: console and file store

    The stages run in [py (world A)].  The console is the list of lines
    printed so far, each a structured [message] named after the [print]
    call of the source that produces it.  The file store maps a path to
    what is stored there: bytes that a mesh parser may understand, or an
    [.npz] archive written by [np.savez]. *)

From S2P Require Import Prelude Scalar.
From Stdlib Require Import ZArith.
From stdpp Require Import base tactics option list numbers strings gmap.

(** ** Console *)

(** One constructor per [print] of the source, with the values the
    f-string interpolates; [MsgHelp] is the help text that [argparse]
    prints for [-h]. *)
Inductive message : Type :=
| MsgLoading (path : string)
| MsgLoaded (n_verts n_faces : nat)
| MsgNormalized
| MsgRemoved (removed : Z)
| MsgSaved (out_path : string)
| MsgCompleted
| MsgError (e : exn)
| MsgHelp.

#[export] Instance message_eq_dec : EqDecision message.
Proof. solve_decision. Defined.

(** ** Archives and files *)

(** One array stored in an archive: a float (n,3) array, an integer (m,3)
    array, or the 0-d object array that [np.asanyarray(None)] is, which
    NumPy stores pickled. *)
Inductive npy (A : Type) : Type :=
| NpyFloat (a : list (vec3 A))
| NpyInt (a : list (vec3 Z))
| NpyNone.
Arguments NpyFloat {A} a.
Arguments NpyInt {A} a.
Arguments NpyNone {A}.

#[export] Instance npy_eq_dec `{EqDecision A} : EqDecision (npy A).
Proof. solve_decision. Defined.

(** An [.npz] archive: named arrays, and whether the members are
    deflated ([np.savez_compressed]) or stored ([np.savez]). *)
Record archive (A : Type) : Type := Archive {
  arc_entries : gmap string (npy A);
  arc_compressed : bool
}.
Arguments Archive {A} arc_entries arc_compressed.
Arguments arc_entries {A} a.
Arguments arc_compressed {A} a.

Inductive file (A : Type) : Type :=
| FileBytes (content : string)
| FileNpz (a : archive A).
Arguments FileBytes {A} content.
Arguments FileNpz {A} a.

Record world (A : Type) : Type := World {
  files : gmap string (file A);
  console : list message
}.
Arguments World {A} files console.
Arguments files {A} w.
Arguments console {A} w.

Section effects.
Context {A : Type}.

(** [print(m)]. *)
Definition py_print (m : message) : py (world A) unit :=
  py_modify (λ w, World (files w) (console w ++ [m])).

(** [os.path.exists(path)]. *)
Definition os_path_exists (path : string) : py (world A) bool :=
  w ← py_get; mret (bool_decide (is_Some (files w !! path))).

(** Replace what is stored at [path]. *)
Definition write_file (path : string) (f : file A) : py (world A) unit :=
  py_modify (λ w, World (<[path := f]> (files w)) (console w)).

End effects.

(** ** Lemmas *)

Section effects_lemmas.
Context {A : Type}.
Implicit Types (w : world A).

Lemma py_print_run (m : message) w :
  py_print m w = (Ok tt, World (files w) (console w ++ [m])).
Proof. done. Qed.

Lemma os_path_exists_run (path : string) w :
  os_path_exists path w = (Ok (bool_decide (is_Some (files w !! path))), w).
Proof. done. Qed.

Lemma write_file_run (path : string) (f : file A) w :
  write_file path f w = (Ok tt, World (<[path := f]> (files w)) (console w)).
Proof. done. Qed.

End effects_lemmas.

#[export] Hint Rewrite @py_print_run @os_path_exists_run @write_file_run : py.
