(* ===== verification/Console.v ===== *)
(** * Console: the text of the printed lines

    [World] keeps each printed line as a [message]; this file gives the
    text: the f-strings of the [print] calls of the source, with the
    counts in decimal and [str(e)] for the exception of the error line.
    The texts are strings of bytes, the UTF-8 encoding of what Python
    prints; a console that cannot encode the pictographs is not modelled.

    The theorems read a line back: its text determines the [print] call
    and the values it interpolated, except that the error line shows the
    text of the exception and not its class. *)

From S2P Require Import Prelude Text Scalar World.
From Stdlib Require Import ZArith Ascii String.
From stdpp Require Import base tactics option list numbers strings.
Local Open Scope string_scope.

(** ** Definitions *)

(** [str(e)]: the one argument of the exception; for NumPy's
    [IndexError] the text NumPy builds from the index and the length. *)
Definition str_exn (e : exn) : string :=
  match e with
  | FileNotFoundError msg | ValueError msg | LibraryError msg => msg
  | IndexError index size =>
      "index " +:+ str_of_int index +:+ " is out of bounds for axis 0 with size "
        +:+ str_of_int (Z.of_nat size)
  end.

(** The text of one line; [help] is what [argparse] prints for [-h]. *)
Definition render (help : string) (m : message) : string :=
  match m with
  | MsgLoading path => "📦 Loading OBJ file: " +:+ path
  | MsgLoaded n_verts n_faces =>
      "✅ Loaded " +:+ str_of_int (Z.of_nat n_verts) +:+ " vertices and "
        +:+ str_of_int (Z.of_nat n_faces) +:+ " faces."
  | MsgNormalized => "🎯 Vertices normalized (centered at origin, scaled to unit size)."
  | MsgRemoved removed => "🧹 Removed " +:+ str_of_int removed +:+ " duplicate vertices."
  | MsgSaved out_path => "💾 Saved processed data to: " +:+ out_path
  | MsgCompleted => "🎉 Preprocessing completed successfully."
  | MsgError e => "❌ Error during preprocessing: " +:+ str_exn e
  | MsgHelp => help
  end.

(** The lines on the console, as text. *)
Definition console_lines {A} (help : string) (w : world A) : list string :=
  render help <$> console w.

(** The messages whose text comes from the source. *)
Definition printed_by_source (m : message) : bool :=
  match m with MsgHelp => false | _ => true end.

(** ** Lemmas *)

Lemma str_app_inv_head (s t1 t2 : string) : s +:+ t1 = s +:+ t2 → t1 = t2.
Proof. induction s as [|c s IH]; [done|]. intros [= ?]. auto. Qed.

(** A decimal followed by a character that is not of a decimal ends
    there. *)
Lemma str_of_int_sep_inj (z1 z2 : Z) (c : ascii) (t1 t2 : string) :
  is_int_char c = false →
  str_of_int z1 +:+ String c t1 = str_of_int z2 +:+ String c t2 → z1 = z2 ∧ t1 = t2.
Proof.
  intros Hc E.
  assert (∀ z t, str_split1 (λ a, negb (is_int_char a)) (str_of_int z +:+ String c t)
                 = (str_of_int z, Some t)) as Hs.
  { intros z t. apply str_split1_app; [|by rewrite Hc].
    eapply str_forall_impl, str_of_int_chars. intros a ->. done. }
  pose proof (Hs z1 t1) as H1. rewrite E, Hs in H1. injection H1 as Hz ->.
  split; [|done]. apply (inj Some). by rewrite <-!int_of_str_of_int, Hz.
Qed.

(** Texts of different [print] calls differ in the first bytes. *)
Local Ltac read_line :=
  repeat match goal with
         | H : context [String ?c ?t +:+ ?s] |- _ =>
             change (String c t +:+ s) with (String c (t +:+ s)) in H
         | H : context [EmptyString +:+ ?s] |- _ => change (EmptyString +:+ s) with s in H
         end.

Lemma render_same_call (help : string) (m1 m2 : message) :
  printed_by_source m1 = true → printed_by_source m2 = true →
  render help m1 = render help m2 →
  match m1, m2 with
  | MsgLoading _, MsgLoading _ | MsgLoaded _ _, MsgLoaded _ _
  | MsgNormalized, MsgNormalized | MsgRemoved _, MsgRemoved _ | MsgSaved _, MsgSaved _
  | MsgCompleted, MsgCompleted | MsgError _, MsgError _ => True
  | _, _ => False
  end.
Proof.
  destruct m1, m2; try done; intros _ _ E; unfold render in E; read_line; discriminate E.
Qed.

Lemma render_loaded_inj (n1 f1 n2 f2 : nat) help :
  render help (MsgLoaded n1 f1) = render help (MsgLoaded n2 f2) → n1 = n2 ∧ f1 = f2.
Proof.
  intros E%(str_app_inv_head "✅ Loaded "). read_line.
  apply str_of_int_sep_inj in E as [?%(inj Z.of_nat) E]; [|done].
  apply (str_app_inv_head "vertices and ") in E. read_line.
  by apply str_of_int_sep_inj in E as [?%(inj Z.of_nat) _].
Qed.

Lemma render_removed_inj (k1 k2 : Z) help :
  render help (MsgRemoved k1) = render help (MsgRemoved k2) → k1 = k2.
Proof.
  intros E%(str_app_inv_head "🧹 Removed "). read_line.
  by apply str_of_int_sep_inj in E as [? _].
Qed.

(** The text of a line determines the message, up to the class of the
    exception on the error line. *)
Theorem render_inj (help : string) (m1 m2 : message) :
  printed_by_source m1 = true → printed_by_source m2 = true →
  render help m1 = render help m2 →
  m1 = m2 ∨ ∃ e1 e2, m1 = MsgError e1 ∧ m2 = MsgError e2 ∧ str_exn e1 = str_exn e2.
Proof.
  intros H1 H2 E. pose proof (render_same_call help m1 m2 H1 H2 E) as Hc.
  destruct m1, m2; try done.
  - left. f_equal. by eapply str_app_inv_head.
  - left. by apply render_loaded_inj in E as [-> ->].
  - by left.
  - left. by apply render_removed_inj in E as ->.
  - left. f_equal. by eapply str_app_inv_head.
  - by left.
  - right. eexists _, _. split_and!; [done..|]. by eapply str_app_inv_head.
Qed.

(** The error line does not tell a [FileNotFoundError] from a
    [ValueError] with the same text. *)
Example render_error_class :
  render "" (MsgError (FileNotFoundError "x")) = render "" (MsgError (ValueError "x")).
Proof. reflexivity. Qed.

Example render_samples :
  render "" <$> [MsgLoaded 8 12; MsgRemoved 0; MsgError (IndexError (-5) 3)] =
    ["✅ Loaded 8 vertices and 12 faces."; "🧹 Removed 0 duplicate vertices.";
     "❌ Error during preprocessing: index -5 is out of bounds for axis 0 with size 3"].
Proof. reflexivity. Qed.
