(* ===== verification/Loader.v ===== *)
(** * The loader: [load_obj] (source lines 6-21)

    The mesh parser behind [trimesh.load] is an interface, [MeshSource]:
    given a path and what is stored there it returns an object that may or
    may not carry a [vertices] and a [faces] attribute, or it raises.  The
    loader checks that the file exists, calls the parser, checks for
    vertices, casts the faces to [int32] and reports the counts. *)

From S2P Require Import Prelude Scalar Rational NdArray World.
From Stdlib Require Import ZArith QArith Qcanon.
From stdpp Require Import base tactics option list numbers strings gmap.

Local Open Scope py_scope.

(** ** Definitions *)

(** The object [trimesh.load] returns, seen through the two [hasattr]
    tests of the source. *)
Record mesh_object (A : Type) : Type := MeshObject {
  mesh_vertices : option (list (vec3 A));
  mesh_faces : option (list (vec3 Z))
}.
Arguments MeshObject {A} mesh_vertices mesh_faces.
Arguments mesh_vertices {A} m.
Arguments mesh_faces {A} m.

(** [trimesh.load(path, process=False)] applied to the content found at
    [path]. *)
Class MeshSource (A : Type) : Type :=
  trimesh_parse : string → file A → result (mesh_object A).
#[global] Hint Mode MeshSource ! : typeclass_instances.

Section loader.
Context {A : Type} {src : MeshSource A}.

(** [trimesh.load(path, process=False)]: read the file, parse it. *)
Definition trimesh_load (path : string) : py (world A) (mesh_object A) :=
  w ← py_get;
  match files w !! path with
  | Some f => py_lift (trimesh_parse path f)
  | None => raise (FileNotFoundError path)
  end.

(** [len(faces) if faces is not None else 0]. *)
Definition faces_count (faces : option (list (vec3 Z))) : nat :=
  from_option length 0%nat faces.

Definition load_obj (path : string)
    : py (world A) (list (vec3 A) * option (list (vec3 Z))) :=
  found ← os_path_exists path;
  if negb found then raise (FileNotFoundError ("File not found: " +:+ path))
  else
    py_print (MsgLoading path);;;
    mesh ← trimesh_load path;
    match mesh_vertices mesh with
    | None => raise (ValueError "Loaded object has no vertices")
    | Some vertices =>
        let verts := vertices in
        let faces := as_int32 <$> mesh_faces mesh in
        py_print (MsgLoaded (length verts) (faces_count faces));;;
        mret (verts, faces)
    end.

End loader.

(** ** Lemmas *)

Section loader_lemmas.
Context {A : Type} {src : MeshSource A}.
Implicit Types (w : world A) (path : string).

(** The whole behaviour of [load_obj], by cases on the file store and on
    what the parser returns. *)
Lemma load_obj_run path w :
  load_obj path w =
    match files w !! path with
    | None => (Raise (FileNotFoundError ("File not found: " +:+ path)), w)
    | Some f =>
        let w1 := World (files w) (console w ++ [MsgLoading path]) in
        match trimesh_parse path f with
        | Raise e => (Raise e, w1)
        | Ok mesh =>
            match mesh_vertices mesh with
            | None => (Raise (ValueError "Loaded object has no vertices"), w1)
            | Some verts =>
                let faces := as_int32 <$> mesh_faces mesh in
                (Ok (verts, faces),
                 World (files w)
                   (console w ++ [MsgLoading path;
                                  MsgLoaded (length verts) (faces_count faces)]))
            end
        end
    end.
Proof.
  unfold load_obj, trimesh_load. unfold_py. unfold os_path_exists. unfold_py.
  destruct (files w !! path) as [f|] eqn:E; simpl; [|done]. rewrite E.
  destruct (trimesh_parse path f) as [mesh|e]; [|done].
  destruct (mesh_vertices mesh); [|done]. simpl. by rewrite <-app_assoc.
Qed.

(** What a successful call returned and did. *)
Lemma load_obj_ok_inv path w verts (faces : option (list (vec3 Z))) w' :
  load_obj path w = (Ok (verts, faces), w') →
  ∃ f mesh, files w !! path = Some f ∧ trimesh_parse path f = Ok mesh ∧
    mesh_vertices mesh = Some verts ∧ faces = as_int32 <$> mesh_faces mesh ∧
    w' = World (files w)
           (console w ++ [MsgLoading path; MsgLoaded (length verts) (faces_count faces)]).
Proof.
  rewrite load_obj_run. destruct (files w !! path) as [f|]; [|done]. simpl.
  destruct (trimesh_parse path f) as [mesh|e] eqn:Ep; [|done].
  destruct (mesh_vertices mesh) eqn:Ev; [|done]. intros [= <- <- <-].
  by exists f, mesh.
Qed.

Lemma load_obj_files path w : files (load_obj path w).2 = files w.
Proof.
  rewrite load_obj_run. destruct (files w !! path) as [f|]; [|done]. simpl.
  by destruct (trimesh_parse path f) as [mesh|e]; [destruct (mesh_vertices mesh)|].
Qed.

Lemma load_obj_console path w : console w `prefix_of` console (load_obj path w).2.
Proof.
  rewrite load_obj_run. destruct (files w !! path) as [f|]; [|done]. simpl.
  destruct (trimesh_parse path f) as [mesh|e]; [destruct (mesh_vertices mesh)|];
    by apply prefix_app_r.
Qed.

Lemma as_int32_range (faces : list (vec3 Z)) :
  Forall (v3_Forall (λ i, (- 2 ^ 31 ≤ i < 2 ^ 31)%Z)) (as_int32 faces).
Proof.
  apply Forall_fmap, Forall_true. intros f. apply v3_Forall_coord. intros a.
  autorewrite with nd. apply wrap_int32_range.
Qed.

Lemma as_int32_id (faces : list (vec3 Z)) :
  Forall (v3_Forall (λ i, (- 2 ^ 31 ≤ i < 2 ^ 31)%Z)) faces → as_int32 faces = faces.
Proof.
  intros Hf. unfold as_int32. etrans; [|apply list_fmap_id].
  apply list_fmap_ext. intros k f Hk. rewrite Forall_lookup in Hf.
  specialize (Hf k f Hk). rewrite v3_Forall_coord in Hf. apply vec3_eq. intros a.
  autorewrite with nd. by apply wrap_int32_id.
Qed.

End loader_lemmas.

(** ** Concrete inputs *)

(** A parser for the witnesses: it knows three contents, a tetrahedron
    with faces (one index needs the [int32] wrap), a point cloud without
    faces and a scene without vertices, and rejects everything else. *)
Definition tetra_verts : list (vec3 Qc) :=
  [V3 0%Qc 0%Qc 0%Qc; V3 (Qc_of_Z 4) 0%Qc 0%Qc; V3 0%Qc (Qc_of_Z 2) 0%Qc;
   V3 0%Qc 0%Qc (Qc_of_Z 1)].

Definition tetra_faces : list (vec3 Z) :=
  [V3 0 1 2; V3 0 1 3; V3 0 2 3; V3 1 2 (2 ^ 32 + 3)]%Z.

Definition toy_parse : MeshSource Qc := λ path f,
  match f with
  | FileBytes "tetra" => Ok (MeshObject (Some tetra_verts) (Some tetra_faces))
  | FileBytes "cloud" => Ok (MeshObject (Some tetra_verts) None)
  | FileBytes "scene" => Ok (MeshObject None None)
  | _ => Raise (LibraryError "cannot load file")
  end.

Definition toy_world : world Qc :=
  World {[ "tetra.obj" := FileBytes "tetra"; "cloud.ply" := FileBytes "cloud";
           "scene.glb" := FileBytes "scene"; "notes.txt" := FileBytes "hello" ]} [].

(** ** Theorems *)

Section loader_claims.
Context {A : Type} {src : MeshSource A}.
Implicit Types (w : world A) (path : string).

(** C8: a path that is not in the file store makes [load_obj] raise
    [FileNotFoundError] before anything is printed or parsed; the world is
    unchanged. *)
Theorem load_obj_missing path w :
  files w !! path = None →
  load_obj path w = (Raise (FileNotFoundError ("File not found: " +:+ path)), w).
Proof. intros E. by rewrite load_obj_run, E. Qed.

(** C35: when the file exists and the parser returns an object,
    [load_obj] prints the loading line; it raises
    [ValueError("Loaded object has no vertices")] when the object has no
    [vertices] attribute, and otherwise prints the counts and returns the
    vertices as parsed (no merging, no reordering) with the faces cast to
    [int32]: every index in [[-2^31, 2^31)], an index outside having been
    wrapped modulo 2^32, and [None] when the object has no faces. *)
Theorem load_obj_ok path w f mesh :
  files w !! path = Some f → trimesh_parse path f = Ok mesh →
  let w1 := World (files w) (console w ++ [MsgLoading path]) in
  let faces := as_int32 <$> mesh_faces mesh in
  load_obj path w =
    match mesh_vertices mesh with
    | None => (Raise (ValueError "Loaded object has no vertices"), w1)
    | Some verts =>
        (Ok (verts, faces),
         World (files w)
           (console w1 ++ [MsgLoaded (length verts) (faces_count faces)]))
    end ∧
  from_option (Forall (v3_Forall (λ i, (- 2 ^ 31 ≤ i < 2 ^ 31)%Z))) True faces.
Proof.
  intros E1 E2. cbn zeta. rewrite load_obj_run, E1, E2. split.
  - destruct (mesh_vertices mesh); [|done]. cbn [console]. by rewrite <-app_assoc.
  - destruct (mesh_faces mesh); [apply as_int32_range | done].
Qed.

(** [load_obj] never writes: whatever it returns or raises, the file store
    is as before and the console has only grown. *)
Lemma load_obj_read_only path w :
  files (load_obj path w).2 = files w ∧ console w `prefix_of` console (load_obj path w).2.
Proof. split; [apply load_obj_files | apply load_obj_console]. Qed.

End loader_claims.

Lemma load_obj_missing_witness :
  load_obj (src:=toy_parse) "airboat.obj" toy_world
    = (Raise (FileNotFoundError "File not found: airboat.obj"), toy_world).
Proof. apply (load_obj_missing (src:=toy_parse) "airboat.obj" toy_world). reflexivity. Defined.

Lemma load_obj_ok_witness :
  load_obj (src:=toy_parse) "tetra.obj" toy_world
    = (Ok (tetra_verts, Some [V3 0 1 2; V3 0 1 3; V3 0 2 3; V3 1 2 3]%Z),
       World (files toy_world) [MsgLoading "tetra.obj"; MsgLoaded 4 4]) ∧
  Forall (v3_Forall (λ i, (- 2 ^ 31 ≤ i < 2 ^ 31)%Z))
    [V3 0 1 2; V3 0 1 3; V3 0 2 3; V3 1 2 3]%Z.
Proof.
  apply (load_obj_ok (src:=toy_parse) "tetra.obj" toy_world (FileBytes "tetra")
           (MeshObject (Some tetra_verts) (Some tetra_faces))); reflexivity.
Defined.
