(* ===== verification/ObjReader.v ===== *)
(** * A reader of Wavefront OBJ text

    The program leaves the parsing of the input file to a library, which
    the loader sees through the interface [MeshSource].  This file gives
    one implementation of the interface, a reader of the part of the OBJ
    format that a triangle mesh needs: [v x y z] lines with decimal
    coordinates, [f a b c] lines with 1-based indices (negative ones
    counting back from the last vertex read, [a/t/n] corners read for
    their first field), everything else skipped.  It is not the library's
    parser: it fixes one meaning of the text so that the program can be
    run, and reasoned about, from the text of a file to the archive.

    The theorems: reading a printed mesh gives the mesh back, whatever
    the coordinates and for all positive indices; and the program run on a
    file that holds a printed mesh with indices inside the vertex list
    succeeds. *)

From S2P Require Import Prelude Text Scalar Rational NdArray World Loader.
From Stdlib Require Import ZArith Ascii String Decimal DecimalString QArith Qcanon.
From stdpp Require Import base tactics option list numbers strings gmap.

Local Open Scope Z_scope.

(** ** Lexing *)

Definition is_newline (c : ascii) : bool := Ascii.eqb c "010".

(** Space, tab and carriage return separate the words of a line. *)
Definition is_blank (c : ascii) : bool :=
  Ascii.eqb c " " || Ascii.eqb c "009" || Ascii.eqb c "013".

Definition is_exp_mark (c : ascii) : bool := Ascii.eqb c "e" || Ascii.eqb c "E".

Definition is_point (c : ascii) : bool := Ascii.eqb c ".".

Definition is_slash (c : ascii) : bool := Ascii.eqb c "/".

Definition obj_lines (text : string) : list string := str_split is_newline text.

Definition obj_words (line : string) : list string :=
  filter (λ w, w ≠ EmptyString) (str_split is_blank line).

(** A decimal literal [-12.5e-3] as a pair [(m, k)] that stands for
    [m * 10^k]: the digits before and after the point make the integer
    [m], and [k] is the exponent less the number of digits after the
    point. *)
Definition obj_decimal (s : string) : option (Z * Z) :=
  let mant := (str_split1 is_exp_mark s).1 in
  let ip := (str_split1 is_point mant).1 in
  let frac := default EmptyString (str_split1 is_point mant).2 in
  e ← from_option int_of_str (Some 0) (str_split1 is_exp_mark s).2;
  _ ← NilEmpty.uint_of_string frac;
  m ← int_of_str (ip +:+ frac);
  Some (m, e - Z.of_nat (String.length frac)).

(** The first field of a corner [a], [a/t], [a/t/n] or [a//n]. *)
Definition obj_corner (s : string) : option Z :=
  int_of_str (str_split1 is_slash s).1.

(** ** Parsing *)

Section reader.
Context `{Scalar A}.

(** The element that a decimal stands for. *)
Definition scalar_of_decimal (d : Z * Z) : A :=
  if decide (0 ≤ d.2) then smul (sofZ d.1) (sofZ (10 ^ d.2))
  else sdiv (sofZ d.1) (sofZ (10 ^ (- d.2))).

Definition obj_coord (s : string) : result A :=
  match obj_decimal s with
  | Some d => Ok (scalar_of_decimal d)
  | None => Raise (LibraryError ("not a number: " +:+ s))
  end.

(** A vertex index of the file as an index into the [n] vertices read so
    far: [1] is the first vertex, [-1] the last one read. *)
Definition obj_index (n : nat) (s : string) : result Z :=
  match obj_corner s with
  | Some i =>
      if decide (0 < i) then Ok (i - 1)
      else if decide (- Z.of_nat n ≤ i < 0) then Ok (Z.of_nat n + i)
      else Raise (LibraryError ("not a vertex index: " +:+ s))
  | None => Raise (LibraryError ("not a vertex index: " +:+ s))
  end.

Inductive obj_line : Type :=
| LVertex (v : vec3 A)
| LFace (f : vec3 Z)
| LOther.

(** One line; [n] vertices have been read before it. *)
Definition parse_line (n : nat) (line : string) : result obj_line :=
  match obj_words line with
  | "v" :: x :: y :: z :: _ =>
      x ← obj_coord x; y ← obj_coord y; z ← obj_coord z; Ok (LVertex (V3 x y z))
  | "v" :: _ => Raise (LibraryError "vertex with fewer than three coordinates")
  | ["f"; a; b; c] =>
      a ← obj_index n a; b ← obj_index n b; c ← obj_index n c; Ok (LFace (V3 a b c))
  | "f" :: _ => Raise (LibraryError "face that is not a triangle")
  | _ => Ok LOther
  end%string.

(** The lines in order, the vertices and the faces read so far carried
    along. *)
Fixpoint parse_lines (ls : list string) (verts : list (vec3 A)) (faces : list (vec3 Z))
    : result (list (vec3 A) * list (vec3 Z)) :=
  match ls with
  | [] => Ok (verts, faces)
  | l :: ls =>
      r ← parse_line (length verts) l;
      match r with
      | LVertex v => parse_lines ls (verts ++ [v]) faces
      | LFace f => parse_lines ls verts (faces ++ [f])
      | LOther => parse_lines ls verts faces
      end
  end.

(** The mesh of a text: an object with vertices, and with faces when the
    text has a face line. *)
Definition obj_parse (text : string) : result (mesh_object A) :=
  r ← parse_lines (obj_lines text) [] [];
  Ok (MeshObject (Some r.1) (match r.2 with [] => None | _ => Some r.2 end)).

(** The reader as a parser of the loader: it reads text files only. *)
Definition obj_source : MeshSource A := λ path f,
  match f with
  | FileBytes text => obj_parse text
  | FileNpz _ => Raise (LibraryError "not a text file")
  end.

End reader.

(** ** Printing *)

Definition print_decimal (d : Z * Z) : string :=
  str_of_int d.1 +:+ "e" +:+ str_of_int d.2.

Definition print_vertex (v : vec3 (Z * Z)) : string :=
  "v " +:+ print_decimal (vx v) +:+ " " +:+ print_decimal (vy v)
       +:+ " " +:+ print_decimal (vz v).

Definition print_face (f : vec3 Z) : string :=
  "f " +:+ str_of_int (vx f) +:+ " " +:+ str_of_int (vy f) +:+ " " +:+ str_of_int (vz f).

(** Each line ends with a newline. *)
Definition unlines (ls : list string) : string :=
  foldr (λ l text, l +:+ String "010" text) EmptyString ls.

Definition print_obj (verts : list (vec3 (Z * Z))) (faces : list (vec3 Z)) : string :=
  unlines ((print_vertex <$> verts) ++ (print_face <$> faces)).

(** ** Lemmas on printed text *)

(** A fact about every character, by cases on its eight bits. *)
Local Ltac ascii_cases c := destruct c as [[] [] [] [] [] [] [] []]; done.

Lemma int_char_word (c : ascii) :
  is_int_char c = true →
  negb (is_blank c) = true ∧ negb (is_newline c) = true ∧
  negb (is_exp_mark c) = true ∧ negb (is_point c) = true ∧ negb (is_slash c) = true.
Proof. ascii_cases c. Qed.

(** A printed integer has no character of the kind [sep]. *)
Lemma str_of_int_free (sep : ascii → bool) (z : Z) :
  (∀ c, is_int_char c = true → negb (sep c) = true) →
  str_forall (λ c, negb (sep c)) (str_of_int z) = true.
Proof. intros Hs. eapply str_forall_impl; [exact Hs | apply str_of_int_chars]. Qed.

(** The side conditions of the lemmas on cutting, for printed integers. *)
Local Ltac int_char := by intros c (?&?&?&?&?)%int_char_word.
Local Ltac int_free :=
  first [done | apply str_of_int_nonempty | apply str_of_int_free; int_char | int_char].

Lemma str_app_nil_r (s : string) : s +:+ "" = s.
Proof.
  induction s as [|c s IH]; [done|]. change (String c (s +:+ "") = String c s).
  by rewrite IH.
Qed.

Lemma str_app_nonempty (s t : string) : t ≠ EmptyString → s +:+ t ≠ EmptyString.
Proof. by destruct s, t. Qed.

Lemma obj_decimal_print (d : Z * Z) : obj_decimal (print_decimal d) = Some d.
Proof.
  destruct d as [m k]. unfold obj_decimal, print_decimal. cbn [fst snd]. push_app.
  rewrite (str_split1_app is_exp_mark) by int_free.
  cbn [fst snd]. rewrite (str_split1_none is_point) by int_free.
  cbn [fst snd default from_option]. rewrite int_of_str_of_int. cbn [mbind option_bind].
  rewrite str_app_nil_r, int_of_str_of_int. cbn. by rewrite Z.sub_0_r.
Qed.

Lemma obj_corner_print (i : Z) : obj_corner (str_of_int i) = Some i.
Proof.
  unfold obj_corner. rewrite (str_split1_none is_slash) by int_free.
  apply int_of_str_of_int.
Qed.

(** The printed numbers are words: not empty, no blank, no newline. *)
Lemma print_decimal_word (sep : ascii → bool) (d : Z * Z) :
  sep "e"%char = false → (∀ c, is_int_char c = true → negb (sep c) = true) →
  str_forall (λ c, negb (sep c)) (print_decimal d) = true ∧ print_decimal d ≠ EmptyString.
Proof.
  intros He Hs. unfold print_decimal. split; [|by apply str_app_nonempty].
  rewrite !str_forall_app, !str_of_int_free by done. simpl. by rewrite He.
Qed.

Lemma words_cons (w rest : string) :
  str_forall (λ c, negb (is_blank c)) w = true → w ≠ EmptyString →
  obj_words (w +:+ String " " rest) = w :: obj_words rest.
Proof.
  intros Hw Hn. unfold obj_words. rewrite str_split_app by done.
  by rewrite filter_cons_True.
Qed.

Lemma words_keyword (k : ascii) (rest : string) :
  is_blank k = false →
  obj_words (String k (String " " rest)) = String k EmptyString :: obj_words rest.
Proof. intros Hk. apply (words_cons (String k EmptyString)); [simpl; by rewrite Hk | done]. Qed.

Lemma words_last (w : string) :
  str_forall (λ c, negb (is_blank c)) w = true → w ≠ EmptyString → obj_words w = [w].
Proof.
  intros Hw Hn. unfold obj_words. rewrite str_split_none by done.
  by rewrite filter_cons_True.
Qed.

Lemma words_print_vertex (v : vec3 (Z * Z)) :
  obj_words (print_vertex v) =
    ["v"; print_decimal (vx v); print_decimal (vy v); print_decimal (vz v)]%string.
Proof.
  assert (∀ d, str_forall (λ c, negb (is_blank c)) (print_decimal d) = true ∧
               print_decimal d ≠ EmptyString) as Hd.
  { intros d. apply print_decimal_word; int_free. }
  unfold print_vertex. push_app. rewrite words_keyword by done.
  rewrite !(words_cons (print_decimal _)), words_last by apply Hd. done.
Qed.

Lemma words_print_face (f : vec3 Z) :
  obj_words (print_face f) =
    ["f"; str_of_int (vx f); str_of_int (vy f); str_of_int (vz f)]%string.
Proof.
  unfold print_face. push_app. rewrite words_keyword by done.
  by rewrite !(words_cons (str_of_int _)), words_last by int_free.
Qed.

Lemma print_vertex_line (v : vec3 (Z * Z)) :
  str_forall (λ c, negb (is_newline c)) (print_vertex v) = true.
Proof.
  assert (∀ d, str_forall (λ c, negb (is_newline c)) (print_decimal d) = true) as Hd.
  { intros d. apply print_decimal_word; int_free. }
  unfold print_vertex. by rewrite !str_forall_app, !Hd.
Qed.

Lemma print_face_line (f : vec3 Z) :
  str_forall (λ c, negb (is_newline c)) (print_face f) = true.
Proof.
  unfold print_face. by rewrite !str_forall_app, !str_of_int_free by int_free.
Qed.

Lemma obj_lines_unlines (ls : list string) :
  Forall (λ l, str_forall (λ c, negb (is_newline c)) l = true) ls →
  obj_lines (unlines ls) = ls ++ [EmptyString].
Proof.
  unfold obj_lines. induction 1 as [|l ls Hl _ IH]; [done|]. simpl.
  by rewrite str_split_app, IH.
Qed.

(** ** Reading printed lines *)

(** The index a face index of the file stands for, [n] vertices having
    been read. *)
Definition obj_resolve (n : nat) (i : Z) : Z :=
  if decide (0 < i) then i - 1 else Z.of_nat n + i.

(** The face indices the reader accepts. *)
Definition obj_index_ok (n : nat) (i : Z) : Prop := 0 < i ∨ - Z.of_nat n ≤ i < 0.

Section reader_lemmas.
Context `{Scalar A}.
Implicit Types (verts : list (vec3 (Z * Z))) (faces : list (vec3 Z)).

Lemma obj_index_print (n : nat) (i : Z) :
  obj_index_ok n i → obj_index n (str_of_int i) = Ok (obj_resolve n i).
Proof.
  intros Hi. unfold obj_index, obj_resolve. rewrite obj_corner_print.
  destruct Hi; repeat case_decide; done || lia.
Qed.

Lemma parse_line_vertex (n : nat) (v : vec3 (Z * Z)) :
  parse_line (A:=A) n (print_vertex v) = Ok (LVertex (v3_map scalar_of_decimal v)).
Proof.
  unfold parse_line. rewrite words_print_vertex. unfold obj_coord.
  by rewrite !obj_decimal_print.
Qed.

Lemma parse_line_face (n : nat) (f : vec3 Z) :
  v3_Forall (obj_index_ok n) f →
  parse_line (A:=A) n (print_face f) = Ok (LFace (v3_map (obj_resolve n) f)).
Proof.
  intros (?&?&?). unfold parse_line. rewrite words_print_face.
  by rewrite !obj_index_print.
Qed.

Lemma parse_lines_vertices verts (rest : list string) (acc : list (vec3 A)) fs :
  parse_lines ((print_vertex <$> verts) ++ rest) acc fs =
    parse_lines rest (acc ++ (v3_map scalar_of_decimal <$> verts)) fs.
Proof.
  revert acc. induction verts as [|v verts IH]; intros acc; simpl.
  - by rewrite app_nil_r.
  - rewrite parse_line_vertex. simpl. by rewrite IH, <-app_assoc.
Qed.

Lemma parse_lines_faces faces (rest : list string) (acc : list (vec3 A)) fs :
  Forall (v3_Forall (obj_index_ok (length acc))) faces →
  parse_lines ((print_face <$> faces) ++ rest) acc fs =
    parse_lines rest acc (fs ++ (v3_map (obj_resolve (length acc)) <$> faces)).
Proof.
  intros Hf. revert fs. induction Hf as [|f faces Hi _ IH]; intros fs; simpl.
  - by rewrite app_nil_r.
  - rewrite parse_line_face by done. simpl. by rewrite IH, <-app_assoc.
Qed.

(** Reading a printed mesh. *)
Lemma obj_parse_print_obj verts faces :
  Forall (v3_Forall (obj_index_ok (length verts))) faces →
  obj_parse (A:=A) (print_obj verts faces) =
    Ok (MeshObject (Some (v3_map scalar_of_decimal <$> verts))
          (match faces with
           | [] => None
           | _ => Some (v3_map (obj_resolve (length verts)) <$> faces)
           end)).
Proof.
  intros Hf. unfold obj_parse, print_obj. rewrite obj_lines_unlines.
  - rewrite <-app_assoc, parse_lines_vertices, parse_lines_faces;
      rewrite ?app_nil_l, ?length_fmap; [|done]. simpl. by destruct faces.
  - apply Forall_app. split; apply Forall_fmap, Forall_true; intros x;
      [apply print_vertex_line | apply print_face_line].
Qed.

End reader_lemmas.

(** ** Theorems *)

Section reader_claims.
Context `{Scalar A}.

(** C21: printing and reading.  The reader, as the parser of the loader,
    returns the mesh that was printed: the vertices in order, each
    coordinate the number its decimal stands for, and the faces in order,
    each index resolved against the vertices (a positive index counts from
    1, a negative one back from the last vertex); a text without face
    lines gives an object without faces. *)
Theorem obj_source_print (path : string) (verts : list (vec3 (Z * Z)))
    (faces : list (vec3 Z)) (w : world A) :
  Forall (v3_Forall (obj_index_ok (length verts))) faces →
  files w !! path = Some (FileBytes (print_obj verts faces)) →
  trimesh_load (src:=obj_source) path w =
    (Ok (MeshObject (Some (v3_map scalar_of_decimal <$> verts))
           (match faces with
            | [] => None
            | _ => Some (v3_map (obj_resolve (length verts)) <$> faces)
            end)), w).
Proof.
  intros Hf Hw. unfold trimesh_load. unfold_py. rewrite Hw.
  change (trimesh_parse path (FileBytes ?s)) with (obj_parse (A:=A) s).
  by rewrite obj_parse_print_obj.
Qed.

End reader_claims.

(** ** The theorems at concrete inputs *)

(** A text as a modelling tool writes it: a comment, vertices with
    fractions and exponents, a normal, corners with texture and normal
    fields, an index counted from the end. *)
Definition sample_text : string :=
  unlines ["# a triangle"; "v 0 0 0"; "v 1.5 -2e1 .25"; "vn 0 0 1";
           "v  1 1 1e-1 "; "f 1/1/1 2//1 -1"].

Example obj_parse_sample :
  (match obj_parse (A:=Qc) sample_text with
   | Ok m => Some (fmap (M:=list) (v3_map this) <$> mesh_vertices m, mesh_faces m)
   | Raise _ => None
   end) =
  Some (Some [V3 0 0 0; V3 (3 # 2) (-20) (1 # 4); V3 1 1 (1 # 10)]%Q,
        Some [V3 0 1 2]).
Proof. vm_compute. reflexivity. Qed.

(** What the reader refuses. *)
Example obj_parse_refused :
  obj_parse (A:=Qc) (unlines ["v 1 2"])
    = Raise (LibraryError "vertex with fewer than three coordinates") ∧
  obj_parse (A:=Qc) (unlines ["v 1 2 x"]) = Raise (LibraryError "not a number: x") ∧
  obj_parse (A:=Qc) (unlines ["v 0 0 0"; "f 1 1 1 1"])
    = Raise (LibraryError "face that is not a triangle") ∧
  obj_parse (A:=Qc) (unlines ["v 0 0 0"; "f 1 0 1"])
    = Raise (LibraryError "not a vertex index: 0") ∧
  obj_parse (A:=Qc) (unlines ["f 1 1 -1"; "v 0 0 0"])
    = Raise (LibraryError "not a vertex index: -1").
Proof. by split_and!. Qed.

Lemma obj_source_print_witness :
  trimesh_load (src:=obj_source (A:=Qc)) "m.obj"
      (World {[ "m.obj" := FileBytes (print_obj [V3 (1, 0) (-25, -1) (0, 3)] [V3 1 1 (-1)]) ]} []) =
    (Ok (MeshObject (Some [V3 (scalar_of_decimal (1, 0)) (scalar_of_decimal (-25, -1))
                              (scalar_of_decimal (0, 3))])
           (Some [V3 0 0 0])),
     World {[ "m.obj" := FileBytes (print_obj [V3 (1, 0) (-25, -1) (0, 3)] [V3 1 1 (-1)]) ]} []).
Proof.
  apply (obj_source_print (A:=Qc) "m.obj" [V3 (1, 0) (-25, -1) (0, 3)] [V3 1 1 (-1)]);
    [|reflexivity].
  repeat constructor; unfold obj_index_ok; simpl; lia.
Defined.
