(* ===== verification/Normalizer.v ===== *)
(** * The normaliser: [normalize_vertices] (source lines 24-36)

    The function recentres the vertices on the midpoint of their bounding
    box and divides by the largest extent of the box.  The definition is
    generic in the element type.  The theorems of the first part hold for
    every element type (error paths, length, what is printed); those of the
    second part are about the geometry and hold in exact arithmetic. *)

From S2P Require Import Prelude Scalar Rational NdArray World.
From Stdlib Require Import ZArith QArith Qcanon Qfield Lqa.
From stdpp Require Import base tactics option list numbers strings gmap.

Local Open Scope py_scope.

(** ** Definitions *)

Section normalizer.
Context `{Scalar A}.

(** [verts is None or len(verts) == 0]. *)
Definition no_vertices (verts : option (list (vec3 A))) : bool :=
  match verts with
  | None => true
  | Some vs => bool_decide (length vs = 0%nat)
  end.

(** [center = (min_vals + max_vals) / 2.0]. *)
Definition bbox_center (min_vals max_vals : vec3 A) : vec3 A :=
  np_div_scalar (np_add min_vals max_vals) (sofZ 2).

(** [scale = np.max(max_vals - min_vals)]. *)
Definition bbox_scale (min_vals max_vals : vec3 A) : A :=
  np_max (np_sub max_vals min_vals).

Definition normalize_vertices (verts : option (list (vec3 A)))
    : py (world A) (list (vec3 A)) :=
  if no_vertices verts then raise (ValueError "No vertices to normalize")
  else
    let verts := default [] verts in
    min_vals ← py_lift (np_min_axis0 verts);
    max_vals ← py_lift (np_max_axis0 verts);
    let center := bbox_center min_vals max_vals in
    let scale := bbox_scale min_vals max_vals in
    let normalized := np_div_rows (np_sub_rows verts center) scale in
    py_print MsgNormalized;;;
    mret normalized.

(** The value [normalize_vertices] computes on a non-empty array whose
    first row is [v]: the bounding box is folded from [v]. *)
Definition rows_min (v : vec3 A) (vs : list (vec3 A)) : vec3 A :=
  foldl (v3_zip smin) v vs.

Definition rows_max (v : vec3 A) (vs : list (vec3 A)) : vec3 A :=
  foldl (v3_zip smax) v vs.

Definition normalized (v : vec3 A) (vs : list (vec3 A)) : list (vec3 A) :=
  np_div_rows
    (np_sub_rows (v :: vs) (bbox_center (rows_min v vs) (rows_max v vs)))
    (bbox_scale (rows_min v vs) (rows_max v vs)).

(** What one row goes through: [(u - c) / s]. *)
Definition affine (c : vec3 A) (s : A) (u : vec3 A) : vec3 A :=
  np_div_scalar (np_sub u c) s.

End normalizer.

(** ** Behaviour for every element type *)

Section normalizer_generic.
Context `{Scalar A}.
Implicit Types (w : world A) (v : vec3 A) (vs : list (vec3 A)).

(** The guard: no array, or an empty one, raises [ValueError] and leaves
    the world as it was. *)
Lemma normalize_vertices_none w :
  normalize_vertices None w = (Raise (ValueError "No vertices to normalize"), w).
Proof. done. Qed.

Lemma normalize_vertices_empty w :
  normalize_vertices (Some []) w = (Raise (ValueError "No vertices to normalize"), w).
Proof. done. Qed.

(** On a non-empty array the function returns, prints one line and
    touches no file. *)
Lemma normalize_vertices_run v vs w :
  normalize_vertices (Some (v :: vs)) w =
    (Ok (normalized v vs), World (files w) (console w ++ [MsgNormalized])).
Proof. done. Qed.

(** What a successful call returned and did. *)
Lemma normalize_vertices_ok_inv vs (out : list (vec3 A)) w w' :
  normalize_vertices (Some vs) w = (Ok out, w') →
  ∃ v vs', vs = v :: vs' ∧ out = normalized v vs' ∧
    w' = World (files w) (console w ++ [MsgNormalized]).
Proof.
  destruct vs as [|v vs']; [done|]. rewrite normalize_vertices_run.
  intros [= <- <-]. by exists v, vs'.
Qed.

Lemma normalized_length v vs : length (normalized v vs) = S (length vs).
Proof. unfold normalized, np_div_rows, np_sub_rows. by rewrite !length_fmap. Qed.

Lemma normalized_affine v vs :
  normalized v vs =
    affine (bbox_center (rows_min v vs) (rows_max v vs))
           (bbox_scale (rows_min v vs) (rows_max v vs)) <$> (v :: vs).
Proof. unfold normalized, np_div_rows, np_sub_rows. by rewrite <-list_fmap_compose. Qed.

Lemma coord_affine (a : axis) (c : vec3 A) (s : A) (u : vec3 A) :
  coord a (affine c s u) = sdiv (ssub (coord a u) (coord a c)) s.
Proof. by destruct a. Qed.

(** The bounding box of copies of one point is the point, when the
    minimum and the maximum of a value with itself are that value. *)
Lemma rows_min_replicate v (n : nat) :
  (∀ x : A, smin x x = x) → rows_min v (replicate n v) = v.
Proof.
  intros Hd. unfold rows_min. induction n as [|n IH]; simpl; [done|].
  replace (v3_zip smin v v) with v; [done|]. destruct v. unfold v3_zip. simpl.
  by rewrite !Hd.
Qed.

Lemma rows_max_replicate v (n : nat) :
  (∀ x : A, smax x x = x) → rows_max v (replicate n v) = v.
Proof.
  intros Hd. unfold rows_max. induction n as [|n IH]; simpl; [done|].
  replace (v3_zip smax v v) with v; [done|]. destruct v. unfold v3_zip. simpl.
  by rewrite !Hd.
Qed.

Lemma coord_bbox_center (a : axis) (mn mx : vec3 A) :
  coord a (bbox_center mn mx) = sdiv (sadd (coord a mn) (coord a mx)) (sofZ 2).
Proof. by destruct a. Qed.

End normalizer_generic.

(** ** Geometry, in exact arithmetic *)

Section normalizer_exact.
Implicit Types (v u c mn mx : vec3 Qc) (vs : list (vec3 Qc)) (s : Qc) (a : axis).
Local Open Scope Qc_scope.

Lemma coord_rows_min a v vs :
  coord a (rows_min v vs) = foldl Qc_min (coord a v) (coord a <$> vs).
Proof. apply (coord_foldl_zip Qc_min). Qed.

Lemma coord_rows_max a v vs :
  coord a (rows_max v vs) = foldl Qc_max (coord a v) (coord a <$> vs).
Proof. apply (coord_foldl_zip Qc_max). Qed.

Lemma coord_affine_Qc a c s u : coord a (affine c s u) = (coord a u - coord a c) / s.
Proof. by destruct a. Qed.

Lemma coord_bbox_center_Qc a mn mx :
  coord a (bbox_center mn mx) = (coord a mn + coord a mx) / Qc_of_Z 2.
Proof. by destruct a. Qed.

Lemma coord_affine_fmap a c s vs :
  coord a <$> (affine c s <$> vs) = (λ x, (x - coord a c) / s) <$> (coord a <$> vs).
Proof.
  rewrite <-!list_fmap_compose. apply list_fmap_ext. intros _ u _. simpl.
  apply coord_affine_Qc.
Qed.

(** The bounding box of the image is the image of the bounding box. *)
Lemma rows_min_affine c s v vs :
  0 < s → rows_min (affine c s v) (affine c s <$> vs) = affine c s (rows_min v vs).
Proof.
  intros Hs. apply vec3_eq. intros a.
  rewrite coord_rows_min, coord_affine_fmap, !coord_affine_Qc, coord_rows_min.
  apply (Qc_foldl_min_mono (λ x, (x - coord a c) / s)).
  intros ??. by apply Qc_affine_mono.
Qed.

Lemma rows_max_affine c s v vs :
  0 < s → rows_max (affine c s v) (affine c s <$> vs) = affine c s (rows_max v vs).
Proof.
  intros Hs. apply vec3_eq. intros a.
  rewrite coord_rows_max, coord_affine_fmap, !coord_affine_Qc, coord_rows_max.
  apply (Qc_foldl_max_mono (λ x, (x - coord a c) / s)).
  intros ??. by apply Qc_affine_mono.
Qed.

Lemma rows_min_le_max a v vs : coord a (rows_min v vs) ≤ coord a (rows_max v vs).
Proof. rewrite coord_rows_min, coord_rows_max. apply Qc_foldl_min_le_max. Qed.

(** The scale is the extent along some axis and bounds every extent. *)
Lemma bbox_scale_ge a mn mx : coord a mx - coord a mn ≤ bbox_scale mn mx.
Proof.
  unfold bbox_scale, np_max. simpl.
  pose proof (Qc_max_ge_l (vx mx - vx mn) (vy mx - vy mn)).
  pose proof (Qc_max_ge_r (vx mx - vx mn) (vy mx - vy mn)).
  pose proof (Qc_max_ge_l (Qc_max (vx mx - vx mn) (vy mx - vy mn)) (vz mx - vz mn)).
  pose proof (Qc_max_ge_r (Qc_max (vx mx - vx mn) (vy mx - vy mn)) (vz mx - vz mn)).
  destruct a; simpl; try done; by etrans.
Qed.

Lemma bbox_scale_attained mn mx : ∃ a, bbox_scale mn mx = coord a mx - coord a mn.
Proof.
  unfold bbox_scale, np_max. simpl.
  destruct (Qc_max_spec (vx mx - vx mn) (vy mx - vy mn)) as [[_ ->]|[_ ->]],
    (Qc_max_spec (vy mx - vy mn) (vz mx - vz mn)) as [[_ E1]|[_ E1]],
    (Qc_max_spec (vx mx - vx mn) (vz mx - vz mn)) as [[_ E2]|[_ E2]];
    rewrite ?E1, ?E2; by ((by exists AxisX) || (by exists AxisY) || (by exists AxisZ)).
Qed.

Lemma bbox_scale_nonneg v vs : 0 ≤ bbox_scale (rows_min v vs) (rows_max v vs).
Proof.
  etrans; [|apply (bbox_scale_ge AxisX)].
  pose proof (rows_min_le_max AxisX v vs). qc_lra.
Qed.

(** Dividing the box by [s > 0] divides the scale by [s]. *)
Lemma bbox_scale_affine c s mn mx :
  0 < s → bbox_scale (affine c s mn) (affine c s mx) = bbox_scale mn mx / s.
Proof.
  intros Hs. unfold bbox_scale, np_max. simpl.
  assert (∀ x y cc, (x - cc) / s - (y - cc) / s = (x - y) / s) as E.
  { intros. qc_field. lra. }
  rewrite !E.
  rewrite <-!(Qc_max_mono (λ x, x / s)); [done|intros ??; by apply Qc_div_le_mono..].
Qed.

Lemma bbox_center_affine s mn mx :
  s ≠ 0 →
  bbox_center (affine (bbox_center mn mx) s mn) (affine (bbox_center mn mx) s mx)
    = V3 0 0 0.
Proof.
  intros Hs. apply vec3_eq. intros a.
  rewrite coord_bbox_center_Qc, !coord_affine_Qc, coord_bbox_center_Qc.
  transitivity (0 : Qc); [|by destruct a]. by qc_field.
Qed.


Lemma rows_bounds a v vs u :
  u ∈ v :: vs →
  coord a (rows_min v vs) ≤ coord a u ≤ coord a (rows_max v vs).
Proof.
  intros Hu. rewrite coord_rows_min, coord_rows_max.
  destruct (Qc_foldl_min_le (coord a v) (coord a <$> vs)) as [Hmv Hm].
  destruct (Qc_foldl_max_ge (coord a v) (coord a <$> vs)) as [HMv HM].
  apply elem_of_cons in Hu as [->|Hu]; [done|].
  rewrite Forall_forall in Hm, HM.
  split; [apply Hm | apply HM]; by apply list_elem_of_fmap_2.
Qed.

(** The bounding box of the normalised array, in closed form. *)
Lemma normalized_bbox v vs :
  let mn := rows_min v vs in let mx := rows_max v vs in
  0 < bbox_scale mn mx →
  np_min_axis0 (normalized v vs)
    = Ok (affine (bbox_center mn mx) (bbox_scale mn mx) mn) ∧
  np_max_axis0 (normalized v vs)
    = Ok (affine (bbox_center mn mx) (bbox_scale mn mx) mx).
Proof.
  intros mn mx Hs. rewrite normalized_affine. simpl.
  split; f_equal; [by apply rows_min_affine | by apply rows_max_affine].
Qed.

(** A quantity within half the scale of zero lands in [-1/2, 1/2]. *)
Lemma Qc_div_half_range (t s : Qc) :
  0 < s → - (s / Qc_of_Z 2) ≤ t ≤ s / Qc_of_Z 2 →
  - Q2Qc (1 # 2) ≤ t / s ≤ Q2Qc (1 # 2).
Proof.
  intros Hs [Hlo Hhi].
  apply (Qc_div_le_mono _ _ s Hs) in Hlo, Hhi.
  assert (s / Qc_of_Z 2 / s = Q2Qc (1 # 2)) as E by (qc_field; lra).
  assert (- (s / Qc_of_Z 2) / s = - Q2Qc (1 # 2)) as E' by (qc_field; lra).
  by rewrite E in Hhi; rewrite E' in Hlo.
Qed.

(** The midpoint of a box is within half of every extent of its points. *)
Lemma bbox_center_dist a mn mx (x : Qc) :
  coord a mn ≤ x ≤ coord a mx →
  - ((coord a mx - coord a mn) / Qc_of_Z 2) ≤ x - coord a (bbox_center mn mx)
    ≤ (coord a mx - coord a mn) / Qc_of_Z 2.
Proof. rewrite coord_bbox_center_Qc. intros [??]. split; qc_lra. Qed.

(** Every normalised coordinate lies in [-1/2, 1/2]. *)
Lemma normalized_range v vs :
  0 < bbox_scale (rows_min v vs) (rows_max v vs) →
  Forall (v3_Forall (λ x, - Q2Qc (1 # 2) ≤ x ≤ Q2Qc (1 # 2))) (normalized v vs).
Proof.
  intros Hs. rewrite normalized_affine. apply Forall_fmap, Forall_forall. intros u Hu.
  apply v3_Forall_coord. intros a. cbv beta. rewrite coord_affine_Qc.
  apply Qc_div_half_range; [done|].
  pose proof (bbox_center_dist a _ _ _ (rows_bounds a v vs u Hu)) as [Hlo Hhi].
  pose proof (bbox_scale_ge a (rows_min v vs) (rows_max v vs)) as Hge.
  apply (Qc_div_le_mono _ _ (Qc_of_Z 2)) in Hge; [|done].
  split; qc_lra.
Qed.

(** Some row attains the minimum of an axis, and some row the maximum. *)
Lemma rows_min_attained a v vs : ∃ u, u ∈ v :: vs ∧ coord a u = coord a (rows_min v vs).
Proof.
  pose proof (Qc_foldl_min_elem_of (coord a v) (coord a <$> vs)) as Hm.
  rewrite <-coord_rows_min in Hm. change (coord a (rows_min v vs) ∈ coord a <$> v :: vs) in Hm.
  apply list_elem_of_fmap in Hm as (u & ? & ?). eauto.
Qed.

Lemma rows_max_attained a v vs : ∃ u, u ∈ v :: vs ∧ coord a u = coord a (rows_max v vs).
Proof.
  pose proof (Qc_foldl_max_elem_of (coord a v) (coord a <$> vs)) as Hm.
  rewrite <-coord_rows_max in Hm. change (coord a (rows_max v vs) ∈ coord a <$> v :: vs) in Hm.
  apply list_elem_of_fmap in Hm as (u & ? & ?). eauto.
Qed.

(** Along the axis of the largest extent the normalised vertices reach
    both faces of the unit box. *)
Lemma normalized_extremes v vs :
  0 < bbox_scale (rows_min v vs) (rows_max v vs) →
  ∃ a u1 u2, u1 ∈ normalized v vs ∧ u2 ∈ normalized v vs ∧
    coord a u1 = - Q2Qc (1 # 2) ∧ coord a u2 = Q2Qc (1 # 2).
Proof.
  intros Hs. destruct (bbox_scale_attained (rows_min v vs) (rows_max v vs)) as [a Ea].
  destruct (rows_min_attained a v vs) as (u1 & H1 & E1),
    (rows_max_attained a v vs) as (u2 & H2 & E2).
  rewrite normalized_affine.
  set (c := bbox_center _ _) in *. set (s := bbox_scale _ _) in *.
  exists a, (affine c s u1), (affine c s u2). subst c s.
  split_and!; [by apply list_elem_of_fmap_2..| |];
    rewrite coord_affine_Qc, coord_bbox_center_Qc, ?E1, ?E2, Ea; rewrite Ea in Hs;
    revert Hs; generalize (coord a (rows_min v vs)) (coord a (rows_max v vs));
    intros x y Hs; qc_field; lra.
Qed.

Lemma affine_id u : affine (V3 0 0 0) 1 u = u.
Proof.
  apply vec3_eq. intros a. rewrite coord_affine_Qc.
  replace (coord a (V3 0 0 0 : vec3 Qc)) with (0 : Qc) by (by destruct a). by qc_field.
Qed.

(** Composition of two maps [(u - c) / s]. *)
Lemma affine_affine c0 s0 c s u :
  s0 ≠ 0 → s ≠ 0 →
  affine (affine c0 s0 c) (s / s0) (affine c0 s0 u) = affine c s u.
Proof.
  intros H0 Hs. apply vec3_eq. intros a. rewrite !coord_affine_Qc. qc_field. done.
Qed.

Lemma bbox_center_affine_commute c0 s0 mn mx :
  s0 ≠ 0 →
  bbox_center (affine c0 s0 mn) (affine c0 s0 mx) = affine c0 s0 (bbox_center mn mx).
Proof.
  intros H0. apply vec3_eq. intros a.
  rewrite coord_bbox_center_Qc, !coord_affine_Qc, coord_bbox_center_Qc. by qc_field.
Qed.

End normalizer_exact.

(** Moving and scaling the input does not change the result. *)
Lemma normalized_invariant (c0 : vec3 Qc) (s0 : Qc) (v : vec3 Qc) (vs : list (vec3 Qc)) :
  (0 < s0)%Qc → (0 < bbox_scale (rows_min v vs) (rows_max v vs))%Qc →
  normalized (affine c0 s0 v) (affine c0 s0 <$> vs) = normalized v vs.
Proof.
  intros H0 Hs.
  rewrite !normalized_affine, rows_min_affine, rows_max_affine by done.
  rewrite bbox_center_affine_commute by auto with nd.
  rewrite bbox_scale_affine by done.
  change (affine c0 s0 v :: (affine c0 s0 <$> vs)) with (affine c0 s0 <$> v :: vs).
  rewrite <-list_fmap_compose. apply list_fmap_ext. intros _ u _. simpl.
  apply affine_affine; auto with nd.
Qed.

(** ** Concrete inputs *)

(** The eight corners of the cube [(±1, ±1, ±1)], and the same cube scaled
    by 2 and moved by [(3, -2, 5)]. *)
Definition Qz (n : Z) : Qc := Qc_of_Z n.

Definition cube_head : vec3 Qc := V3 (Qz (-1)) (Qz (-1)) (Qz (-1)).

Definition cube_tail : list (vec3 Qc) :=
  [V3 (Qz (-1)) (Qz (-1)) (Qz 1); V3 (Qz (-1)) (Qz 1) (Qz (-1));
   V3 (Qz (-1)) (Qz 1) (Qz 1); V3 (Qz 1) (Qz (-1)) (Qz (-1));
   V3 (Qz 1) (Qz (-1)) (Qz 1); V3 (Qz 1) (Qz 1) (Qz (-1)); V3 (Qz 1) (Qz 1) (Qz 1)].

Definition moved (u : vec3 Qc) : vec3 Qc :=
  V3 (Qz 2 * vx u + Qz 3)%Qc (Qz 2 * vy u - Qz 2)%Qc (Qz 2 * vz u + Qz 5)%Qc.

Definition empty_world : world Qc := World ∅ [].

(** ** Theorems *)

Section normalizer_claims.
Context `{Scalar A}.
Implicit Types (w : world A).

(** C6: the two branches of [normalize_vertices].  A missing or empty
    vertex array is rejected with [ValueError("No vertices to normalize")],
    nothing is printed and the world is untouched.  On any non-empty array
    the function returns (it never raises, whatever the coordinates, a
    zero scale included); the result has one row per input row, in the
    same order, each row being [(u - center) / scale] for the centre and
    the scale of the bounding box; exactly one line is printed and no file
    is touched. *)
Theorem normalize_vertices_spec (verts : option (list (vec3 A))) w :
  (verts = None ∨ verts = Some [] →
   normalize_vertices verts w = (Raise (ValueError "No vertices to normalize"), w)) ∧
  (∀ v vs, verts = Some (v :: vs) →
   ∃ out, normalize_vertices verts w
            = (Ok out, World (files w) (console w ++ [MsgNormalized])) ∧
          length out = S (length vs) ∧
          out = affine (bbox_center (rows_min v vs) (rows_max v vs))
                       (bbox_scale (rows_min v vs) (rows_max v vs)) <$> v :: vs).
Proof.
  split; [by intros [-> | ->]|]. intros v vs ->. exists (normalized v vs).
  split_and!; [done | apply normalized_length | apply normalized_affine].
Qed.

End normalizer_claims.

Lemma normalize_vertices_spec_witness :
  normalize_vertices (A:=Qc) (Some []) empty_world
    = (Raise (ValueError "No vertices to normalize"), empty_world).
Proof. apply (normalize_vertices_spec (Some []) empty_world). by right. Defined.

Section normalizer_exact_claims.
Implicit Types (v u c : vec3 Qc) (vs out : list (vec3 Qc)) (w : world Qc).
Local Open Scope Qc_scope.

(** C2: in exact arithmetic, for a mesh with non-zero extent, the
    bounding box of the normalised vertices is centred at the origin and
    its largest extent is 1. *)
Theorem normalize_bbox_unit v vs w out w' :
  0 < bbox_scale (rows_min v vs) (rows_max v vs) →
  normalize_vertices (Some (v :: vs)) w = (Ok out, w') →
  ∃ mn mx, np_min_axis0 out = Ok mn ∧ np_max_axis0 out = Ok mx ∧
    bbox_center mn mx = V3 0 0 0 ∧ bbox_scale mn mx = 1.
Proof.
  intros Hs. rewrite normalize_vertices_run. intros [= <- <-].
  destruct (normalized_bbox v vs Hs) as [Hmn Hmx].
  eexists _, _. split_and!; [done|done| |].
  - apply bbox_center_affine. auto with nd.
  - rewrite bbox_scale_affine by done. qc_field. lra.
Qed.

(** C27: in exact arithmetic, for a mesh with non-zero extent, every
    coordinate of every normalised vertex lies in [-1/2, 1/2]. *)
Theorem normalize_range v vs w out w' :
  0 < bbox_scale (rows_min v vs) (rows_max v vs) →
  normalize_vertices (Some (v :: vs)) w = (Ok out, w') →
  Forall (v3_Forall (λ x, - Q2Qc (1 # 2) ≤ x ≤ Q2Qc (1 # 2))) out.
Proof.
  intros Hs. rewrite normalize_vertices_run. intros [= <- <-]. by apply normalized_range.
Qed.

(** C29: in exact arithmetic normalisation is idempotent: normalising the
    normalised vertices of a mesh with non-zero extent returns them
    unchanged. *)
Theorem normalize_idempotent v vs w out w' w'' :
  0 < bbox_scale (rows_min v vs) (rows_max v vs) →
  normalize_vertices (Some (v :: vs)) w = (Ok out, w') →
  (normalize_vertices (Some out) w'').1 = Ok out.
Proof.
  intros Hs. rewrite normalize_vertices_run. intros [= <- <-].
  rewrite (normalized_affine v vs). cbn [fmap list_fmap].
  rewrite normalize_vertices_run. cbn [fst]. f_equal.
  rewrite normalized_affine, rows_min_affine, rows_max_affine by done.
  rewrite bbox_center_affine by auto with nd.
  rewrite bbox_scale_affine by done.
  replace (_ / _) with (1 : Qc) by (qc_field; lra).
  etrans; [|apply list_fmap_id]. apply list_fmap_ext. intros _ u _. apply affine_id.
Qed.

(** C30: in exact arithmetic the result does not depend on where the mesh
    sits or how large it is: moving every vertex by the same offset and
    dividing by the same positive factor (any map [u ↦ (u - c0) / s0] with
    [s0 > 0], that is any [u ↦ k u + t] with [k > 0]) gives the same
    normalised vertices. *)
Theorem normalize_invariant c0 s0 v vs w :
  0 < s0 → 0 < bbox_scale (rows_min v vs) (rows_max v vs) →
  (normalize_vertices (Some (affine c0 s0 <$> v :: vs)) w).1
    = (normalize_vertices (Some (v :: vs)) w).1.
Proof.
  intros H0 Hs. cbn [fmap list_fmap]. rewrite !normalize_vertices_run. cbn [fst].
  f_equal. by apply normalized_invariant.
Qed.

(** C28: the scale by which [normalize_vertices] divides is zero exactly
    when all vertices coincide (the degenerate mesh); it is never
    negative. *)
Theorem bbox_scale_zero_iff v vs :
  0 ≤ bbox_scale (rows_min v vs) (rows_max v vs) ∧
  (bbox_scale (rows_min v vs) (rows_max v vs) = 0 ↔ Forall (λ u, u = v) vs).
Proof.
  split; [apply bbox_scale_nonneg|]. split.
  - intros E. apply Forall_forall. intros u Hu. apply vec3_eq. intros a.
    pose proof (bbox_scale_ge a (rows_min v vs) (rows_max v vs)) as Hge.
    rewrite E in Hge.
    pose proof (rows_bounds a v vs u (list_elem_of_further _ _ _ Hu)) as [??].
    pose proof (rows_bounds a v vs v (list_elem_of_here _ _)) as [??]. qc_lra.
  - intros Hall. destruct (bbox_scale_attained (rows_min v vs) (rows_max v vs)) as [a ->].
    assert (∀ x, x ∈ coord a v :: (coord a <$> vs) → x = coord a v) as Hx.
    { intros x [->|(u & -> & Hu)%list_elem_of_fmap]%elem_of_cons; [done|].
      rewrite Forall_forall in Hall. by rewrite (Hall u Hu). }
    rewrite coord_rows_min, coord_rows_max.
    rewrite (Hx _ (Qc_foldl_min_elem_of _ _)), (Hx _ (Qc_foldl_max_elem_of _ _)).
    qc_lra.
Qed.

End normalizer_exact_claims.

Lemma normalize_bbox_unit_witness :
  ∃ mn mx, np_min_axis0 (normalized cube_head cube_tail) = Ok mn ∧
    np_max_axis0 (normalized cube_head cube_tail) = Ok mx ∧
    bbox_center mn mx = V3 0%Qc 0%Qc 0%Qc ∧ bbox_scale mn mx = 1%Qc.
Proof.
  apply (normalize_bbox_unit cube_head cube_tail empty_world _ (World ∅ [MsgNormalized]));
    [vm_compute; reflexivity | reflexivity].
Defined.

Lemma normalize_range_witness :
  Forall (v3_Forall (λ x, (- Q2Qc (1 # 2) ≤ x ≤ Q2Qc (1 # 2))%Qc))
    (normalized (moved cube_head) (moved <$> cube_tail)).
Proof.
  apply (normalize_range (moved cube_head) (moved <$> cube_tail) empty_world _
           (World ∅ [MsgNormalized]));
    [vm_compute; reflexivity | reflexivity].
Defined.

Lemma normalize_idempotent_witness :
  (normalize_vertices (Some (normalized cube_head cube_tail)) empty_world).1
    = Ok (normalized cube_head cube_tail).
Proof.
  apply (normalize_idempotent cube_head cube_tail empty_world _
           (World ∅ [MsgNormalized]) empty_world);
    [vm_compute; reflexivity | reflexivity].
Defined.

Lemma normalize_invariant_witness :
  (normalize_vertices
     (Some (affine (V3 (Qz 3) (Qz (-2)) (Qz 5)) (Qz 4) <$> cube_head :: cube_tail))
     empty_world).1
    = (normalize_vertices (Some (cube_head :: cube_tail)) empty_world).1.
Proof.
  apply (normalize_invariant (V3 (Qz 3) (Qz (-2)) (Qz 5)) (Qz 4) cube_head cube_tail);
    vm_compute; reflexivity.
Defined.
