(* ===== verification/Dedup.v ===== *)
(** * The deduplicator: [remove_duplicate_vertices] (source lines 39-45)

    Vertices are rounded to six decimals and grouped by [np.unique]; the
    faces, when present, are rewritten through the inverse index array by
    fancy indexing.  The first group of theorems holds for every element
    type and every sort that returns a permutation (index validity, error
    paths, effects); the second needs the order laws; the third is about
    rounding in exact arithmetic. *)

From S2P Require Import Prelude Scalar Rational NdArray World.
From Stdlib Require Import ZArith QArith Qcanon Qfield Lqa.
From stdpp Require Import base tactics option list numbers strings gmap sorting.

Local Open Scope py_scope.

(** ** Definitions *)

Section dedup.
Context `{Scalar A, !ArgSort A}.

(** [inverse_indices[faces] if faces is not None else None]. *)
Definition remap_faces (inverse_indices : list Z) (faces : option (list (vec3 Z)))
    : result (option (list (vec3 Z))) :=
  match faces with
  | Some faces => Some <$> np_take inverse_indices faces
  | None => Ok None
  end.

Definition remove_duplicate_vertices (verts : list (vec3 A))
    (faces : option (list (vec3 Z)))
    : py (world A) (list (vec3 A) * option (list (vec3 Z))) :=
  let unique := np_unique_axis0 (np_round verts 6) in
  let unique_verts := unique.1 in
  let inverse_indices := unique.2 in
  updated_faces ← py_lift (remap_faces inverse_indices faces);
  let removed := (Z.of_nat (length verts) - Z.of_nat (length unique_verts))%Z in
  py_print (MsgRemoved removed);;;
  mret (unique_verts, updated_faces).

(** The two arrays [np.unique] returns inside the function. *)
Definition unique_verts (verts : list (vec3 A)) : list (vec3 A) :=
  (np_unique_axis0 (np_round verts 6)).1.

Definition inverse_indices (verts : list (vec3 A)) : list Z :=
  (np_unique_axis0 (np_round verts 6)).2.

(** The precondition on the faces: every index is in [[-n, n)], which is
    what NumPy's indexing accepts for an array of [n] entries. *)
Definition faces_in_range (n : nat) (faces : option (list (vec3 Z))) : Prop :=
  match faces with
  | None => True
  | Some fs => Forall (v3_Forall (index_in_range n)) fs
  end.

End dedup.

(** ** Lemmas for every element type *)

Section dedup_generic.
Context `{Scalar A, !ArgSort A, !ArgSortPerm A}.
Implicit Types (verts uv : list (vec3 A)) (w : world A).

Lemma np_round_length verts (d : nat) : length (np_round verts d) = length verts.
Proof. apply length_fmap. Qed.

Lemma unique_verts_length verts : (length (unique_verts verts) ≤ length verts)%nat.
Proof.
  unfold unique_verts. etrans; [apply np_unique_length|]. by rewrite np_round_length.
Qed.

Lemma inverse_indices_length verts : length (inverse_indices verts) = length verts.
Proof. unfold inverse_indices. by rewrite np_unique_inverse_length, np_round_length. Qed.

Lemma inverse_indices_valid verts :
  Forall (λ i, (0 ≤ i < Z.of_nat (length (unique_verts verts)))%Z) (inverse_indices verts).
Proof. apply np_unique_inverse_valid. Qed.

(** At least one row is left of a non-empty array. *)
Lemma unique_verts_nonempty verts : verts ≠ [] → unique_verts verts ≠ [].
Proof.
  intros Hv Hu. pose proof (inverse_indices_valid verts) as Hi.
  pose proof (inverse_indices_length verts) as Hl.
  destruct (inverse_indices verts) as [|i l]; [by destruct verts|].
  apply Forall_cons_1 in Hi as [Hi _]. rewrite Hu in Hi. simpl in Hi. lia.
Qed.

(** The function in terms of its two intermediate arrays. *)
Lemma remove_duplicate_vertices_run verts (faces : option (list (vec3 Z))) w :
  remove_duplicate_vertices verts faces w =
    match remap_faces (inverse_indices verts) faces with
    | Ok fs =>
        (Ok (unique_verts verts, fs),
         World (files w)
           (console w ++ [MsgRemoved (Z.of_nat (length verts)
                                      - Z.of_nat (length (unique_verts verts)))]))
    | Raise e => (Raise e, w)
    end.
Proof.
  unfold remove_duplicate_vertices, unique_verts, inverse_indices.
  unfold_py. by destruct (remap_faces _ faces).
Qed.

(** What a successful call returned and did. *)
Lemma remove_duplicate_vertices_ok verts (faces : option (list (vec3 Z))) uv fs w w' :
  remove_duplicate_vertices verts faces w = (Ok (uv, fs), w') →
  uv = unique_verts verts ∧ remap_faces (inverse_indices verts) faces = Ok fs ∧
  w' = World (files w)
         (console w ++ [MsgRemoved (Z.of_nat (length verts) - Z.of_nat (length uv))]).
Proof.
  rewrite remove_duplicate_vertices_run.
  destruct (remap_faces _ _) as [fs0|]; [|done]. by intros [= <- <- <-].
Qed.

Lemma remap_faces_ok (inv : list Z) (faces fs : option (list (vec3 Z))) :
  remap_faces inv faces = Ok fs ↔
  (faces = None ∧ fs = None) ∨
  (∃ f f', faces = Some f ∧ fs = Some f' ∧ np_take inv f = Ok f').
Proof.
  destruct faces as [f|]; simpl.
  - rewrite result_fmap_ok. split.
    + intros (f' & ? & ->). right. by exists f, f'.
    + intros [[? _]|(? & f' & [= <-] & -> & ?)]; [done|]. by exists f'.
  - split; [intros [= <-]; by left | by intros [[_ ->]|(?&?&?&_)]].
Qed.

Lemma remap_faces_total (inv : list Z) (faces : option (list (vec3 Z))) :
  faces_in_range (length inv) faces ↔ ∃ fs, remap_faces inv faces = Ok fs.
Proof.
  destruct faces as [f|]; simpl; [|split; [by eexists|done]].
  rewrite np_take_total. split; intros [f' Hf'].
  - exists (Some f'). by rewrite Hf'.
  - destruct (np_take inv f); [by eexists | done].
Qed.

(** When the remapping raises, the exception names a face index that is
    out of range. *)
Lemma remap_faces_raise (inv : list Z) (faces : option (list (vec3 Z))) e :
  remap_faces inv faces = Raise e →
  ∃ fs f i, faces = Some fs ∧ f ∈ fs ∧ i ∈ v3_list f ∧
    ¬ index_in_range (length inv) i ∧ e = IndexError i (length inv).
Proof.
  destruct faces as [fs|]; [|done]. simpl.
  destruct (np_take _ fs) eqn:Ht; [done|]. intros [= <-].
  apply np_take_raise in Ht as (f & i & ? & ? & ? & ->). by exists fs, f, i.
Qed.

(** Remapping valid faces by the identity returns them. *)
Lemma remap_faces_arange (n : nat) (faces : option (list (vec3 Z))) :
  from_option (Forall (v3_Forall (λ i, (0 ≤ i < Z.of_nat n)%Z))) True faces →
  remap_faces (Z.of_nat <$> seq 0 n) faces = Ok faces.
Proof.
  destruct faces as [fs|]; [|done]. simpl. intros Hf. by rewrite np_take_arange.
Qed.

(** The invariant of a mesh: every face index is a valid index into the
    vertex array. *)
Lemma remap_faces_valid verts (faces fs : option (list (vec3 Z))) :
  remap_faces (inverse_indices verts) faces = Ok fs →
  from_option (Forall (v3_Forall (λ i,
    (0 ≤ i < Z.of_nat (length (unique_verts verts)))%Z))) True fs.
Proof.
  intros [[_ ->]|(f & f' & -> & -> & Ht)]%remap_faces_ok; [done|]. simpl.
  eapply Forall_impl; [by eapply np_take_elem_of|].
  intros o Ho. apply v3_Forall_coord. intros a.
  rewrite v3_Forall_coord in Ho. specialize (Ho a).
  pose proof (inverse_indices_valid verts) as Hv. rewrite Forall_forall in Hv. eauto.
Qed.

End dedup_generic.

(** ** Theorems for every element type *)

Section dedup_claims.
Context `{Scalar A, !ArgSort A, !ArgSortPerm A}.
Implicit Types (verts uv : list (vec3 A)) (w : world A).

(** C1: when [remove_duplicate_vertices] returns faces, there is one
    output face per input face and every index of every output face is a
    valid index into the deduplicated vertex array (at least 0, below its
    length); this holds for any element type, NaN and infinities
    included. *)
Theorem dedup_faces_valid verts (faces : list (vec3 Z)) uv fs w w' :
  remove_duplicate_vertices verts (Some faces) w = (Ok (uv, fs), w') →
  ∃ faces', fs = Some faces' ∧ length faces' = length faces ∧
    Forall (v3_Forall (λ i, (0 ≤ i < Z.of_nat (length uv))%Z)) faces'.
Proof.
  intros (-> & E & _)%remove_duplicate_vertices_ok.
  pose proof (remap_faces_valid _ _ _ E) as Hv.
  apply remap_faces_ok in E as [[? _]|(f & f' & [= <-] & -> & Ht)]; [done|].
  exists f'. split_and!; [done | by eapply np_take_length | done].
Qed.

(** C25: [remove_duplicate_vertices] returns exactly when the faces are
    absent or every face index is in [[-n, n)] for [n] input vertices;
    otherwise the fancy indexing raises: the exception is the [IndexError]
    of an index of a face that is outside [[-n, n)], nothing has been
    printed and no file has been touched. *)
Theorem dedup_returns_iff verts (faces : option (list (vec3 Z))) w :
  ((∃ uv fs w', remove_duplicate_vertices verts faces w = (Ok (uv, fs), w')) ↔
   faces_in_range (length verts) faces) ∧
  (∀ e w', remove_duplicate_vertices verts faces w = (Raise e, w') →
     w' = w ∧
     ∃ fs f i, faces = Some fs ∧ f ∈ fs ∧ i ∈ v3_list f ∧
       ¬ index_in_range (length verts) i ∧ e = IndexError i (length verts)).
Proof.
  rewrite remove_duplicate_vertices_run, <-(inverse_indices_length verts).
  rewrite remap_faces_total. split; [split|].
  - intros (uv & fs & w' & E). destruct (remap_faces _ _); [by eexists | done].
  - intros [fs ->]. by eexists _, _, _.
  - intros e w'. destruct (remap_faces _ _) as [|e'] eqn:E; [done|].
    intros [= <- <-]. split; [done|]. by apply remap_faces_raise.
Qed.

(** C31: the deduplicated array is never longer than the input, the
    printed count of removed vertices is the difference of the two lengths
    (hence not negative), and the file store is untouched. *)
Theorem dedup_length verts (faces : option (list (vec3 Z))) uv fs w w' :
  remove_duplicate_vertices verts faces w = (Ok (uv, fs), w') →
  (length uv ≤ length verts)%nat ∧ files w' = files w ∧
  console w' = console w ++
    [MsgRemoved (Z.of_nat (length verts) - Z.of_nat (length uv))].
Proof.
  rewrite remove_duplicate_vertices_run.
  destruct (remap_faces _ _) as [fs0|]; [|done]. intros [= <- <- <-].
  split; [apply unique_verts_length | done].
Qed.

(** Without faces the function cannot fail: it returns the unique rows
    and [None] for the faces (not an empty array). *)
Lemma dedup_without_faces verts w :
  remove_duplicate_vertices verts None w =
    (Ok (unique_verts verts, None),
     World (files w)
       (console w ++ [MsgRemoved (Z.of_nat (length verts)
                                  - Z.of_nat (length (unique_verts verts)))])).
Proof. by rewrite remove_duplicate_vertices_run. Qed.

End dedup_claims.

(** ** Theorems that need the order laws *)

Section dedup_order.
Context `{ScalarOrder A, !ArgSort A, !ArgSortPerm A}.
Implicit Types (verts uv : list (vec3 A)) (w : world A) (r u : vec3 A).

(** The inverse index of a vertex leads to a unique row that NumPy treats
    as the same as the rounded vertex. *)
Lemma inverse_indices_lookup verts (j : nat) r :
  np_round verts 6 !! j = Some r →
  ∃ i u, inverse_indices verts !! j = Some i ∧
    unique_verts verts !! Z.to_nat i = Some u ∧ row_same u r.
Proof. apply np_unique_inverse. Qed.

(** C5: the rewritten faces describe the same triangles: for every index
    of every face, the vertex it refers to in the output is the rounded
    vertex the original index referred to in the input (rows that compare
    [==] being the same vertex; a negative index refers to a vertex
    counted from the end, as in NumPy). *)
Theorem dedup_faces_geometry verts (faces faces' : list (vec3 Z)) uv w w'
    (k : nat) (f f' : vec3 Z) (a : axis) :
  remove_duplicate_vertices verts (Some faces) w = (Ok (uv, Some faces'), w') →
  faces !! k = Some f → faces' !! k = Some f' →
  ∃ r u, np_round verts 6 !! np_resolve (length verts) (coord a f) = Some r ∧
    uv !! Z.to_nat (coord a f') = Some u ∧ row_same u r.
Proof.
  rewrite remove_duplicate_vertices_run.
  destruct (remap_faces _ _) as [fs0|] eqn:E; [|done]. intros [= <- -> <-] Hf Hf'.
  apply remap_faces_ok in E as [[? _]|(f0 & f0' & [= <-] & [= <-] & Ht)]; [done|].
  apply np_take_ok in Ht. rewrite Forall2_lookup in Ht. specialize (Ht k).
  rewrite Hf, Hf' in Ht. inversion Ht as [?? (Hx&Hy&Hz)|]; subst.
  assert (np_index (inverse_indices verts) (coord a f) = Ok (coord a f')) as Hi
    by (by destruct a).
  apply np_index_resolve in Hi as [_ Hi]. rewrite inverse_indices_length in Hi.
  destruct (lookup_lt_is_Some_2 (np_round verts 6)
              (np_resolve (length verts) (coord a f))) as [r Hr].
  { rewrite np_round_length. apply lookup_lt_Some in Hi.
    by rewrite inverse_indices_length in Hi. }
  destruct (inverse_indices_lookup verts _ r Hr) as (i & u & Hi' & Hu & Hs).
  rewrite Hi in Hi'. injection Hi' as <-. by exists r, u.
Qed.

(** C32: when no rounded coordinate is NaN, the deduplicated vertices are
    strictly increasing in the lexicographic order of (x, y, z): the
    output order is the sort order, and no two output vertices are
    equal. *)
Theorem dedup_sorted `{!ArgSortSorted A} verts (faces : option (list (vec3 Z)))
    uv fs w w' :
  Forall (λ r, row_isnan r = false) (np_round verts 6) →
  remove_duplicate_vertices verts faces w = (Ok (uv, fs), w') →
  StronglySorted row_lt uv.
Proof.
  intros Hn. rewrite remove_duplicate_vertices_run.
  destruct (remap_faces _ _) as [fs0|]; [|done]. intros [= <- <- <-].
  by apply np_unique_sorted.
Qed.

End dedup_order.

(** ** Rounding in exact arithmetic *)

Section rounding.
Local Open Scope Qc_scope.

Lemma round_scalar_Qc (d : nat) (x : Qc) :
  round_scalar d x
    = Qc_rint (x * Qc_of_Z (10 ^ Z.of_nat d)) / Qc_of_Z (10 ^ Z.of_nat d).
Proof. reflexivity. Qed.

(** A rounded value is a fixed point of rounding. *)
Lemma round_scalar_idem (d : nat) (x : Qc) :
  round_scalar d (round_scalar d x) = round_scalar d x.
Proof.
  rewrite !round_scalar_Qc. pose proof (Qc_of_Z_pow10_neq_0 d) as Hm.
  set (m := Qc_of_Z (10 ^ Z.of_nat d)) in *. unfold Qc_rint at 2.
  set (n := Q_rint (x * m)%Qc).
  replace (Qc_of_Z n / m * m) with (Qc_of_Z n).
  - by rewrite Qc_rint_of_Z.
  - rewrite <-(Qcmult_div_r (Qc_of_Z n) m Hm) at 1.
    unfold Qcdiv. by rewrite (Qcmult_comm m), (Qcmult_comm (Qc_of_Z n)).
Qed.

(** Rounding to six decimals moves a value by at most 5e-7. *)
Lemma round_scalar_error (x : Qc) :
  x - Q2Qc (1 # 2000000) ≤ round_scalar 6 x ≤ x + Q2Qc (1 # 2000000).
Proof.
  rewrite round_scalar_Qc. change (10 ^ Z.of_nat 6)%Z with 1000000%Z.
  pose proof (Qc_rint_spec (x * Qc_of_Z 1000000)) as [Hlo Hhi].
  unfold Qc_rint in *. revert Hlo Hhi.
  generalize (Q_rint (x * Qc_of_Z 1000000)%Qc). intros n Hlo Hhi. split; qc_lra.
Qed.

(** Rounding to six decimals does not leave [-1/2, 1/2], and keeps its
    two ends. *)
Lemma round_scalar_half_range (x : Qc) :
  - Q2Qc (1 # 2) ≤ x ≤ Q2Qc (1 # 2) →
  - Q2Qc (1 # 2) ≤ round_scalar 6 x ≤ Q2Qc (1 # 2).
Proof.
  intros [Hlo Hhi]. rewrite round_scalar_Qc. change (10 ^ Z.of_nat 6)%Z with 1000000%Z.
  unfold Qc_rint.
  destruct (Q_rint_bounds (x * Qc_of_Z 1000000)%Qc 500000) as [Hl Hh].
  { change (inject_Z 500000) with (500000 # 1)%Q. split; qc_lra. }
  apply Z.opp_le_mono in Hl. rewrite Z.opp_involutive, Zle_Qle, inject_Z_opp in Hl.
  rewrite Zle_Qle in Hh.
  change (inject_Z 500000) with (500000 # 1)%Q in *.
  revert Hl Hh. generalize (Q_rint (x * Qc_of_Z 1000000)%Qc). intros n Hl Hh. split; qc_lra.
Qed.

Lemma round_scalar_half :
  round_scalar 6 (- Q2Qc (1 # 2)) = - Q2Qc (1 # 2) ∧
  round_scalar 6 (Q2Qc (1 # 2)) = Q2Qc (1 # 2).
Proof. split; by_compute. Qed.

Lemma np_round_idem (verts : list (vec3 Qc)) (d : nat) :
  np_round (np_round verts d) d = np_round verts d.
Proof.
  unfold np_round. rewrite <-list_fmap_compose. apply list_fmap_ext.
  intros _ v _. apply vec3_eq. intros a. cbn [compose].
  autorewrite with nd. apply round_scalar_idem.
Qed.

End rounding.

(** ** Concrete inputs *)

(** Four vertices, two of which round to the origin, and two triangles
    that use them. *)
Definition near_zero_verts : list (vec3 Qc) :=
  [V3 (Q2Qc (1 # 10000000)) 0%Qc 0%Qc; V3 1%Qc 0%Qc 0%Qc;
   V3 (Q2Qc (2 # 10000000)) 0%Qc 0%Qc; V3 0%Qc 1%Qc 0%Qc].

Definition near_zero_faces : list (vec3 Z) := [V3 0 1 3; V3 2 1 (-1)]%Z.

Definition near_zero_faces_out : list (vec3 Z) := [V3 0 2 1; V3 0 2 1]%Z.

Definition bad_faces : list (vec3 Z) := [V3 0 1 3; V3 2 4 1]%Z.

Definition w0 : world Qc := World ∅ [].

(** ** Theorems in exact arithmetic *)

Section dedup_exact.
Context `{!ArgSort Qc, !ArgSortPerm Qc, !ArgSortSorted Qc}.
Implicit Types (verts uv : list (vec3 Qc)) (w : world Qc) (v u : vec3 Qc).
Local Open Scope Qc_scope.

Lemma unique_verts_elem_of verts u : u ∈ unique_verts verts ↔ u ∈ np_round verts 6.
Proof. apply np_unique_elem_of_iff. Qed.

(** The rows [np.unique] returns are fixed points of rounding to six
    decimals. *)
Lemma unique_verts_rounded verts : np_round (unique_verts verts) 6 = unique_verts verts.
Proof.
  etrans; [|apply list_fmap_id]. apply list_fmap_ext. intros k u Hu.
  apply list_elem_of_lookup_2, unique_verts_elem_of in Hu.
  apply list_elem_of_fmap in Hu as (v & -> & _). apply vec3_eq. intros a.
  cbn [id]. autorewrite with nd. apply round_scalar_idem.
Qed.

(** A second [np.unique] of the rounded output changes nothing. *)
Lemma unique_verts_fixed verts :
  np_unique_axis0 (np_round (unique_verts verts) 6) =
    (unique_verts verts, Z.of_nat <$> seq 0 (length (unique_verts verts))).
Proof. rewrite unique_verts_rounded. apply np_unique_fixed, np_unique_strictly_sorted. Qed.

(** C33: quantisation.  Every input vertex survives as its rounded
    value: the output holds the vertex rounded to six decimals, which is
    within 5e-7 of it on every axis; every output vertex is the rounding
    of an input vertex; and every output vertex is a fixed point of
    rounding, so the saved coordinates are the quantised values. *)
Theorem dedup_covers verts (faces : option (list (vec3 Z))) uv fs w w' :
  remove_duplicate_vertices verts faces w = (Ok (uv, fs), w') →
  (∀ v, v ∈ verts → v3_map (round_scalar 6) v ∈ uv ∧
     ∀ a, coord a v - Q2Qc (1 # 2000000) ≤ coord a (v3_map (round_scalar 6) v)
          ≤ coord a v + Q2Qc (1 # 2000000)) ∧
  (∀ u, u ∈ uv → ∃ v, v ∈ verts ∧ u = v3_map (round_scalar 6) v) ∧
  np_round uv 6 = uv.
Proof.
  rewrite remove_duplicate_vertices_run.
  destruct (remap_faces _ _) as [fs0|]; [|done]. intros [= <- <- <-].
  split_and!; [| |apply unique_verts_rounded].
  - intros v Hv. split.
    + apply unique_verts_elem_of. by apply list_elem_of_fmap_2.
    + intros a. autorewrite with nd. apply round_scalar_error.
  - intros u Hu%unique_verts_elem_of. apply list_elem_of_fmap in Hu as (v & -> & Hv).
    by exists v.
Qed.

(** C24: deduplication is idempotent: a second pass over the output of
    [remove_duplicate_vertices] returns the same vertices and the same
    faces, and reports that it removed nothing. *)
Theorem dedup_idempotent verts (faces : option (list (vec3 Z))) uv fs w w' :
  remove_duplicate_vertices verts faces w = (Ok (uv, fs), w') →
  remove_duplicate_vertices uv fs w' =
    (Ok (uv, fs), World (files w') (console w' ++ [MsgRemoved 0])).
Proof.
  intros (-> & Hf%remap_faces_valid & _)%remove_duplicate_vertices_ok.
  unfold remove_duplicate_vertices. rewrite unique_verts_fixed. cbn [fst snd].
  rewrite remap_faces_arange by done. unfold_py. by rewrite Z.sub_diag.
Qed.

(** C23: the deduplication criterion: two input vertices are sent to the
    same output index exactly when they are equal after rounding each
    coordinate to six decimals. *)
Theorem dedup_merges_iff verts (i j : nat) u v :
  verts !! i = Some u → verts !! j = Some v →
  inverse_indices verts !! i = inverse_indices verts !! j ↔
  v3_map (round_scalar 6) u = v3_map (round_scalar 6) v.
Proof.
  intros Hi Hj. apply np_unique_inverse_inj; unfold np_round;
    by rewrite list_lookup_fmap, ?Hi, ?Hj.
Qed.

End dedup_exact.

(** C34: in exact arithmetic the result does not depend on the sorting
    algorithm: any two sorts that return an ordering permutation give the
    same vertices, the same faces and the same effects, so NumPy's freedom
    in ordering equal rows is not observable. *)
Theorem dedup_sort_independent (S1 S2 : ArgSort Qc)
    `{!@ArgSortPerm Qc S1, !@ArgSortSorted Qc _ S1,
      !@ArgSortPerm Qc S2, !@ArgSortSorted Qc _ S2}
    (verts : list (vec3 Qc)) (faces : option (list (vec3 Z))) (w : world Qc) :
  @remove_duplicate_vertices Qc _ S1 verts faces w
    = @remove_duplicate_vertices Qc _ S2 verts faces w.
Proof.
  unfold remove_duplicate_vertices.
  by rewrite (np_unique_sort_independent S1 S2).
Qed.

(** ** The theorems at concrete inputs *)

Lemma near_zero_run :
  remove_duplicate_vertices near_zero_verts (Some near_zero_faces) w0
    = (Ok (unique_verts near_zero_verts, Some near_zero_faces_out),
       World ∅ [MsgRemoved 1]).
Proof. vm_compute. reflexivity. Qed.

Lemma bad_faces_run :
  remove_duplicate_vertices near_zero_verts (Some bad_faces) w0
    = (Raise (IndexError 4 4), w0).
Proof. vm_compute. reflexivity. Qed.

Lemma dedup_faces_valid_witness :
  ∃ faces', Some near_zero_faces_out = Some faces' ∧
    length faces' = length near_zero_faces ∧
    Forall (v3_Forall (λ i,
      (0 ≤ i < Z.of_nat (length (unique_verts near_zero_verts)))%Z)) faces'.
Proof.
  eapply (dedup_faces_valid near_zero_verts near_zero_faces); exact near_zero_run.
Defined.

Lemma dedup_returns_iff_witness :
  ∃ uv fs w', remove_duplicate_vertices near_zero_verts (Some near_zero_faces) w0
                = (Ok (uv, fs), w').
Proof.
  apply (dedup_returns_iff near_zero_verts (Some near_zero_faces) w0).
  repeat constructor; unfold index_in_range; simpl; lia.
Defined.

Lemma dedup_idempotent_witness :
  remove_duplicate_vertices (unique_verts near_zero_verts) (Some near_zero_faces_out)
      (World ∅ [MsgRemoved 1]) =
    (Ok (unique_verts near_zero_verts, Some near_zero_faces_out),
     World ∅ [MsgRemoved 1; MsgRemoved 0]).
Proof.
  eapply (dedup_idempotent near_zero_verts (Some near_zero_faces)); exact near_zero_run.
Defined.

Lemma dedup_length_witness :
  (length (unique_verts near_zero_verts) ≤ length near_zero_verts)%nat ∧
  files (World (A:=Qc) ∅ [MsgRemoved 1]) = files w0 ∧
  console (World (A:=Qc) ∅ [MsgRemoved 1]) = console w0 ++
    [MsgRemoved (Z.of_nat (length near_zero_verts)
                 - Z.of_nat (length (unique_verts near_zero_verts)))].
Proof.
  eapply (dedup_length near_zero_verts (Some near_zero_faces)); exact near_zero_run.
Defined.

Lemma dedup_faces_geometry_witness :
  ∃ r u, np_round near_zero_verts 6 !! np_resolve (length near_zero_verts) (-1) = Some r ∧
    unique_verts near_zero_verts !! Z.to_nat 1 = Some u ∧ row_same u r.
Proof.
  eapply (dedup_faces_geometry near_zero_verts near_zero_faces near_zero_faces_out
            _ w0 _ 1 (V3 2 1 (-1))%Z (V3 0 2 1)%Z AxisZ);
    [exact near_zero_run | reflexivity | reflexivity].
Defined.

Lemma dedup_sorted_witness : StronglySorted row_lt (unique_verts near_zero_verts).
Proof.
  eapply (dedup_sorted near_zero_verts (Some near_zero_faces));
    [by_compute | exact near_zero_run].
Defined.

Lemma dedup_covers_witness :
  (∀ v, v ∈ near_zero_verts →
     v3_map (round_scalar 6) v ∈ unique_verts near_zero_verts ∧
     ∀ a, (coord a v - Q2Qc (1 # 2000000) ≤ coord a (v3_map (round_scalar 6) v)
           ≤ coord a v + Q2Qc (1 # 2000000))%Qc) ∧
  (∀ u, u ∈ unique_verts near_zero_verts →
     ∃ v, v ∈ near_zero_verts ∧ u = v3_map (round_scalar 6) v) ∧
  np_round (unique_verts near_zero_verts) 6 = unique_verts near_zero_verts.
Proof.
  eapply (dedup_covers near_zero_verts (Some near_zero_faces)); exact near_zero_run.
Defined.

Lemma dedup_merges_iff_witness :
  inverse_indices near_zero_verts !! 0%nat = inverse_indices near_zero_verts !! 2%nat ↔
  v3_map (round_scalar 6) (V3 (Q2Qc (1 # 10000000)) 0%Qc 0%Qc)
    = v3_map (round_scalar 6) (V3 (Q2Qc (2 # 10000000)) 0%Qc 0%Qc).
Proof. apply (dedup_merges_iff near_zero_verts 0 2); reflexivity. Defined.

(** The two sorts order the two vertices that round to the origin
    differently. *)
Example sorts_differ :
  argsort (ArgSort:=merge_argsort) (np_round near_zero_verts 6) = [0; 2; 3; 1]%nat ∧
  argsort (ArgSort:=rev_argsort) (np_round near_zero_verts 6) = [2; 0; 3; 1]%nat.
Proof. split; vm_compute; reflexivity. Qed.

Lemma dedup_sort_independent_witness :
  @remove_duplicate_vertices Qc _ merge_argsort near_zero_verts (Some near_zero_faces) w0
    = @remove_duplicate_vertices Qc _ rev_argsort near_zero_verts
        (Some near_zero_faces) w0.
Proof.
  exact (@dedup_sort_independent merge_argsort rev_argsort
           merge_argsort_perm merge_argsort_sorted rev_argsort_perm rev_argsort_sorted
           near_zero_verts (Some near_zero_faces) w0).
Defined.
