(* ===== verification/Serializer.v ===== *)
(** * The serialiser: [save_processed_data] (source lines 48-51)

    [np.savez] writes an archive with the two named arrays at the path it
    is given, with [.npz] appended when the path does not end with it.
    Here an archive is the finite map of its named arrays; the bytes of
    the arrays are in [Npy].  [np_load] is the reader a consumer of the
    archive uses, on the archive as a value; [Npy] proves that it answers
    what reading the bytes answers.  A write that fails (a directory that
    does not exist, a path that cannot be written, a full disk) is not
    modelled: the file store has no directories and no permissions, so
    [np_savez] always returns. *)

From S2P Require Import Prelude Scalar Rational NdArray World.
From Stdlib Require Import ZArith QArith Qcanon.
From stdpp Require Import base tactics option list numbers strings gmap.

Local Open Scope py_scope.

(** ** Definitions *)

(** [s.endswith(suffix)]. *)
Definition str_endswith (s suffix : string) : bool :=
  let n := String.length s in
  let m := String.length suffix in
  bool_decide (m ≤ n)%nat && bool_decide (String.substring (n - m) m s = suffix).

(** The file name [np.savez] writes to. *)
Definition npz_path (file : string) : string :=
  if str_endswith file ".npz" then file else file +:+ ".npz".

Section serializer.
Context {A : Type}.

(** How [np.savez] stores the value passed as [faces]: an integer array,
    or the object array wrapping [None]. *)
Definition npy_of_faces (faces : option (list (vec3 Z))) : npy A :=
  match faces with
  | Some f => NpyInt f
  | None => NpyNone
  end.

(** [np.savez(file, vertices=..., faces=...)]: an uncompressed archive
    with the two entries replaces whatever is stored under the name. *)
Definition np_savez (file : string) (vertices : list (vec3 A))
    (faces : option (list (vec3 Z))) : py (world A) unit :=
  write_file (npz_path file)
    (FileNpz (Archive {[ "vertices" := NpyFloat vertices;
                         "faces" := npy_of_faces faces ]} false)).

Definition save_processed_data (verts : list (vec3 A))
    (faces : option (list (vec3 Z))) (out_path : string) : py (world A) unit :=
  np_savez out_path verts faces;;;
  py_print (MsgSaved out_path).

(** [np.load(file, allow_pickle=...)[name]]: object arrays are refused
    unless pickling is allowed. *)
Definition np_load (file : string) (allow_pickle : bool) (name : string)
    : py (world A) (npy A) :=
  w ← py_get;
  match files w !! file with
  | None => raise (FileNotFoundError file)
  | Some (FileBytes _) => raise (LibraryError "not an npz archive")
  | Some (FileNpz a) =>
      match arc_entries a !! name with
      | None => raise (LibraryError ("KeyError: " +:+ name))
      | Some NpyNone =>
          if allow_pickle then mret NpyNone
          else raise (ValueError
                 "Object arrays cannot be loaded when allow_pickle=False")
      | Some x => mret x
      end
  end.

End serializer.

(** ** Lemmas *)

Section serializer_lemmas.
Context {A : Type}.
Implicit Types (w : world A) (verts : list (vec3 A)) (faces : option (list (vec3 Z))).

Lemma save_processed_data_run verts faces (out_path : string) w :
  save_processed_data verts faces out_path w =
    (Ok tt,
     World (<[npz_path out_path :=
               FileNpz (Archive {[ "vertices" := NpyFloat verts;
                                   "faces" := npy_of_faces faces ]} false)]> (files w))
           (console w ++ [MsgSaved out_path])).
Proof. done. Qed.

Lemma str_length_app (s t : string) :
  String.length (s +:+ t) = (String.length s + String.length t)%nat.
Proof. induction s as [|c s IH]; simpl; [done | by rewrite IH]. Qed.

Lemma str_substring_all (t : string) : String.substring 0 (String.length t) t = t.
Proof. induction t as [|c t IH]; simpl; [done | by rewrite IH]. Qed.

Lemma str_substring_app (s t : string) :
  String.substring (String.length s) (String.length t) (s +:+ t) = t.
Proof. induction s as [|c s IH]; simpl; [apply str_substring_all | done]. Qed.

Lemma str_endswith_app (s suffix : string) : str_endswith (s +:+ suffix) suffix = true.
Proof.
  unfold str_endswith. apply andb_true_iff.
  rewrite !bool_decide_eq_true, str_length_app.
  split; [lia|]. replace (_ + _ - _)%nat with (String.length s) by lia.
  apply str_substring_app.
Qed.

Lemma npz_path_endswith (file : string) : str_endswith (npz_path file) ".npz" = true.
Proof.
  unfold npz_path. destruct (str_endswith file ".npz") eqn:E; [done|].
  apply str_endswith_app.
Qed.

Lemma npz_path_idem (file : string) : npz_path (npz_path file) = npz_path file.
Proof. unfold npz_path at 1. by rewrite npz_path_endswith. Qed.

End serializer_lemmas.

(** ** Theorems *)

Section serializer_claims.
Context {A : Type}.
Implicit Types (w : world A) (verts : list (vec3 A)) (faces : option (list (vec3 Z))).

(** C36: in a file store where every path can be written,
    [save_processed_data] stores, under the output path completed
    with [.npz], an uncompressed archive with exactly the two entries
    [vertices] and [faces], replacing what was there; it prints the saved
    line with the path as given; every other file is untouched.  The name
    written to is the given one when that ends with [.npz] and the given
    one with [.npz] appended otherwise, so it always ends with [.npz]. *)
Theorem save_processed_data_writes verts faces (out_path : string) w :
  ∃ w', save_processed_data verts faces out_path w = (Ok tt, w') ∧
    files w' !! npz_path out_path =
      Some (FileNpz (Archive {[ "vertices" := NpyFloat verts;
                                "faces" := npy_of_faces faces ]} false)) ∧
    (∀ p, p ≠ npz_path out_path → files w' !! p = files w !! p) ∧
    console w' = console w ++ [MsgSaved out_path] ∧
    str_endswith (npz_path out_path) ".npz" = true ∧
    npz_path out_path =
      if str_endswith out_path ".npz" then out_path else out_path +:+ ".npz".
Proof.
  eexists. split; [apply save_processed_data_run|]. simpl.
  split_and!; [by rewrite lookup_insert_eq | | done | apply npz_path_endswith | done].
  intros p Hp. by rewrite lookup_insert_ne.
Qed.

End serializer_claims.
