(* ===== verification/Npy.v ===== *)
(** * Npy: the bytes of the arrays in the archive

    [np.savez] stores each array as a member of the archive, named after
    the keyword with [.npy] appended, in NumPy's array file format
    (version 1.0): the magic string, the version, the length of the
    header as two little-endian bytes, the header (a Python dictionary
    literal with the type, the memory order and the shape, padded with
    spaces and ended by a newline so that the data start at a multiple of
    64), and the elements in row-major order, little-endian.  [None] is
    stored as an object array: the header and a pickle.

    This file models the member bytes.  The elements are reached through
    the interface [ElemCodec] (type code, size, bytes of one element and
    their reading), which [i64_codec] implements for the 64-bit integers
    of the faces; the pickle NumPy writes for the object array is a
    parameter, and so is whether the header has the spare room that newer
    versions of NumPy leave after the dictionary.  [npy_read] reads what
    [npy_bytes] writes: NumPy's reader accepts any dictionary literal
    with the three keys, this one the literal NumPy writes.  The zip
    framing of the members (local headers, checksums, the central
    directory with its time stamps) is not modelled.

    The theorems: an entry is read back from its bytes, and its data
    follow a header of a multiple of 64 bytes ([npy_roundtrip]); the two
    entries are read back from the members of the archive, except that
    faces that are [None] are refused when pickles are not allowed
    ([savez_load_roundtrip]); [np_load] of [Serializer] answers on the
    archive value what [members_load] answers on the bytes
    ([np_load_members]). *)

From S2P Require Import Prelude Text Scalar NdArray World Serializer.
From Stdlib Require Import ZArith Ascii String Lia Decimal DecimalString DecimalFacts DecimalPos.
From Stdlib Require Strings.Byte.
From coqutil Require Import Byte Word.LittleEndianList.
From stdpp Require Import base tactics option list numbers strings gmap.

Local Open Scope string_scope.

#[export] Instance byte_eq_dec : EqDecision byte := Byte.byte_eq_dec.

(** ** The element interface *)

(** What the format needs to know of an element type: the type code of
    the header ([descr]), the number of bytes of an element, the bytes of
    an element and the element that bytes stand for. *)
Class ElemCodec (E : Type) : Type := {
  elem_descr : string;
  elem_size : nat;
  elem_bytes : E → list byte;
  elem_read : list byte → option E
}.

(** The laws, for the elements that satisfy [valid]: an element takes
    [elem_size] bytes and is read back from them; the type code can stand
    between quotes and is short. *)
Class ElemCodecOk (E : Type) `{ElemCodec E} (valid : E → Prop) : Prop := {
  elem_bytes_length x : length (elem_bytes x) = elem_size;
  elem_read_bytes x : valid x → elem_read (elem_bytes x) = Some x;
  elem_descr_plain : str_forall (λ c, negb (Ascii.eqb c "'")) elem_descr = true;
  elem_descr_length : (String.length elem_descr ≤ 64)%nat
}.

(** ** 64-bit integers *)

(** Two's complement in eight bytes, least significant first. *)
Definition i64_bytes (z : Z) : list byte := le_split 8 z.

Definition i64_signed (u : Z) : Z := if decide (u < 2 ^ 63)%Z then u else (u - 2 ^ 64)%Z.

Definition i64_read (bs : list byte) : option Z :=
  if decide (length bs = 8%nat) then Some (i64_signed (le_combine bs)) else None.

Definition i64_range (z : Z) : Prop := (- 2 ^ 63 ≤ z < 2 ^ 63)%Z.

#[export] Instance i64_codec : ElemCodec Z := {|
  elem_descr := "<i8";
  elem_size := 8;
  elem_bytes := i64_bytes;
  elem_read := i64_read
|}.

(** ** The header *)

(** The shapes of the arrays of the archive: [()] for the object array
    of [None], [(n, 3)] for vertices and faces. *)
Inductive shape : Type :=
| ShapeScalar
| ShapeRows (n : nat).

#[export] Instance shape_eq_dec : EqDecision shape.
Proof. solve_decision. Defined.

Definition shape_text (sh : shape) : string :=
  match sh with
  | ShapeScalar => "()"
  | ShapeRows n => "(" +:+ str_of_int (Z.of_nat n) +:+ ", 3)"
  end.

Fixpoint spaces (n : nat) : string :=
  match n with
  | O => ""
  | S n => String " " (spaces n)
  end.

(** The room left after the dictionary for a first dimension that grows:
    21 characters less the digits of the first dimension, in the versions
    of NumPy that leave it. *)
Definition growth_spare (growth : bool) (sh : shape) : nat :=
  match sh with
  | ShapeRows n => if growth then 21 - String.length (str_of_int (Z.of_nat n)) else 0
  | ShapeScalar => 0
  end.

(** The dictionary literal: the keys in alphabetical order, each value
    followed by a comma and a space. *)
Definition header_dict (descr : string) (sh : shape) : string :=
  "{'descr': '" +:+ descr +:+ "', 'fortran_order': False, 'shape': "
    +:+ shape_text sh +:+ ", }".

(** The padding that makes magic, version, length field and header a
    multiple of 64 bytes; it is never empty. *)
Definition header_padlen (hlen : nat) : nat := 64 - (10 + hlen) mod 64.

(** The header as text, from the dictionary to the newline. *)
Definition header_text (growth : bool) (descr : string) (sh : shape) : string :=
  let body := header_dict descr sh +:+ spaces (growth_spare growth sh) in
  body +:+ spaces (header_padlen (S (String.length body))) +:+ String "010" "".

Definition npy_magic : list byte :=
  [Byte.x93; Byte.x4e; Byte.x55; Byte.x4d; Byte.x50; Byte.x59].

(** Magic string, version 1.0, length of the header, header. *)
Definition npy_header (growth : bool) (descr : string) (sh : shape) : list byte :=
  let text := header_text growth descr sh in
  (npy_magic ++ [Byte.x01; Byte.x00]
     ++ le_split 2 (Z.of_nat (String.length text)) ++ list_byte_of_string text)%list.

(** ** Reading the header *)

(** [s] without the prefix [p], when it starts with it. *)
Fixpoint str_strip_prefix (p s : string) : option string :=
  match p, s with
  | EmptyString, _ => Some s
  | String a p', String b s' => if Ascii.eqb a b then str_strip_prefix p' s' else None
  | String _ _, EmptyString => None
  end.

(** [s] without the leading characters that satisfy [p]. *)
Fixpoint str_lstrip (p : ascii → bool) (s : string) : string :=
  match s with
  | EmptyString => EmptyString
  | String c rest => if p c then str_lstrip p rest else s
  end.

Definition is_quote (c : ascii) : bool := Ascii.eqb c "'".
Definition is_comma (c : ascii) : bool := Ascii.eqb c ",".
Definition is_space (c : ascii) : bool := Ascii.eqb c " ".

Definition read_shape (s : string) : option (shape * string) :=
  match str_strip_prefix "()" s with
  | Some rest => Some (ShapeScalar, rest)
  | None =>
      s1 ← str_strip_prefix "(" s;
      let '(digits, after) := str_split1 is_comma s1 in
      n ← int_of_str digits;
      s2 ← after;
      rest ← str_strip_prefix " 3)" s2;
      if decide (0 ≤ n)%Z then Some (ShapeRows (Z.to_nat n), rest) else None
  end.

(** The type code and the shape of a header text: the dictionary as
    NumPy writes it, then spaces, then the newline. *)
Definition read_header_text (text : string) : option (string * shape) :=
  s1 ← str_strip_prefix "{'descr': '" text;
  let '(descr, after) := str_split1 is_quote s1 in
  s2 ← after;
  s3 ← str_strip_prefix ", 'fortran_order': False, 'shape': " s2;
  '(sh, s4) ← read_shape s3;
  s5 ← str_strip_prefix ", }" s4;
  if decide (str_lstrip is_space s5 = String "010" "") then Some (descr, sh) else None.

(** Magic string, version, length and header text; what follows the
    header is the data. *)
Definition read_header (bs : list byte) : option (string * shape * list byte) :=
  if decide (take 8 bs = (npy_magic ++ [Byte.x01; Byte.x00])%list) then
    let hlen := Z.to_nat (le_combine (take 2 (drop 8 bs))) in
    let rest := drop 10 bs in
    if decide (hlen ≤ length rest)%nat then
      '(descr, sh) ← read_header_text (string_of_list_byte (take hlen rest));
      Some (descr, sh, drop hlen rest)
    else None
  else None.

(** ** Arrays *)

Section arrays.
Context {E : Type} `{ElemCodec E}.

(** The elements of the rows, one row after the other. *)
Definition rows_bytes (rows : list (vec3 E)) : list byte :=
  rows ≫= λ r, (elem_bytes (vx r) ++ elem_bytes (vy r) ++ elem_bytes (vz r))%list.

(** The file of an (n,3) array: header and elements. *)
Definition array_bytes (growth : bool) (rows : list (vec3 E)) : list byte :=
  (npy_header growth elem_descr (ShapeRows (length rows)) ++ rows_bytes rows)%list.

(** [n] rows read from the data; what follows them is ignored. *)
Fixpoint read_rows (n : nat) (data : list byte) : option (list (vec3 E)) :=
  match n with
  | O => Some []
  | S n =>
      x ← elem_read (take elem_size data);
      y ← elem_read (take elem_size (drop elem_size data));
      z ← elem_read (take elem_size (drop (2 * elem_size) data));
      rows ← read_rows n (drop (3 * elem_size) data);
      Some (V3 x y z :: rows)
  end.

End arrays.

(** ** The members of the archive *)

Section members.
Context {A : Type} `{ElemCodec A}.
Variable growth : bool.
Variable pickled_none : list byte.

(** The file of one entry: an array of elements, an array of 64-bit
    integers (what indexing with [inverse_indices] returns), or the
    object array of [None], whose data is a pickle. *)
Definition npy_bytes (a : npy A) : list byte :=
  match a with
  | NpyFloat v => array_bytes growth v
  | NpyInt f => array_bytes growth f
  | NpyNone => (npy_header growth "|O" ShapeScalar ++ pickled_none)%list
  end.

(** Reading the file of an entry.  An object array is refused unless
    pickles are allowed, before its data is looked at. *)
Definition npy_read (allow_pickle : bool) (bs : list byte) : result (npy A) :=
  match read_header bs with
  | None => Raise (ValueError "Cannot parse header")
  | Some (descr, sh, data) =>
      if decide (descr = "|O") then
        if negb allow_pickle then
          Raise (ValueError "Object arrays cannot be loaded when allow_pickle=False")
        else if decide (sh = ShapeScalar ∧ data = pickled_none) then Ok NpyNone
        else Raise (LibraryError "pickle not modelled")
      else
        match sh with
        | ShapeScalar => Raise (LibraryError "shape not modelled")
        | ShapeRows n =>
            if decide (descr = "<i8") then
              from_option (Ok ∘ NpyInt) (Raise (ValueError "EOF: reading array data"))
                (read_rows (E:=Z) n data)
            else if decide (descr = elem_descr) then
              from_option (Ok ∘ NpyFloat) (Raise (ValueError "EOF: reading array data"))
                (read_rows n data)
            else Raise (LibraryError "dtype not modelled")
        end
  end.

(** The members [np.savez(file, vertices=..., faces=...)] writes, in the
    order of the keywords: each keyword with [.npy] appended, and the
    file of its value. *)
Definition savez_members (vertices : list (vec3 A)) (faces : option (list (vec3 Z)))
    : list (string * list byte) :=
  [("vertices" +:+ ".npy", npy_bytes (NpyFloat vertices));
   ("faces" +:+ ".npy", npy_bytes (npy_of_faces faces))].

(** [np.load(file, allow_pickle=...)[name]] on the members: the member
    [name.npy] is looked up and read. *)
Definition members_load (members : list (string * list byte)) (allow_pickle : bool)
    (name : string) : result (npy A) :=
  match list_find (λ m, m.1 = name +:+ ".npy") members with
  | None => Raise (LibraryError ("KeyError: " +:+ name))
  | Some (_, m) => npy_read allow_pickle m.2
  end.

End members.

(** ** Lemmas on text *)

Lemma str_strip_prefix_app (p s : string) : str_strip_prefix p (p +:+ s) = Some s.
Proof.
  induction p as [|a p IH]; [by destruct s|].
  change (String a p +:+ s) with (String a (p +:+ s)). cbn [str_strip_prefix].
  by rewrite Ascii.eqb_refl.
Qed.

Lemma str_lstrip_spaces (n : nat) (s : string) :
  str_lstrip is_space (spaces n +:+ s) = str_lstrip is_space s.
Proof. induction n as [|n IH]; [done|]. exact IH. Qed.

Lemma spaces_app (n m : nat) : spaces n +:+ spaces m = spaces (n + m).
Proof. induction n as [|n IH]; [done|]. cbn [spaces Nat.add]. by rewrite <-IH. Qed.

Lemma spaces_length (n : nat) : String.length (spaces n) = n.
Proof. induction n as [|n IH]; simpl; by rewrite ?IH. Qed.

Lemma str_app_assoc (s t u : string) : (s +:+ t) +:+ u = s +:+ (t +:+ u).
Proof.
  induction s as [|c s IH]; [done|].
  change (String c ((s +:+ t) +:+ u) = String c (s +:+ (t +:+ u))). by rewrite IH.
Qed.

(** Decimal digits: a number below [2 ^ 63] has at most 64 of them. *)
Lemma nb_digits_double (d : Decimal.uint) :
  (Decimal.nb_digits (Decimal.Little.double d) ≤ S (Decimal.nb_digits d))%nat ∧
  (Decimal.nb_digits (Decimal.Little.succ_double d) ≤ S (Decimal.nb_digits d))%nat.
Proof. induction d; simpl; lia. Qed.

Lemma nb_digits_to_little_uint (p : positive) :
  (Decimal.nb_digits (Pos.to_little_uint p) ≤ Pos.size_nat p)%nat.
Proof.
  induction p as [p IH|p IH|]; simpl; [| |lia].
  - pose proof (proj2 (nb_digits_double (Pos.to_little_uint p))). lia.
  - pose proof (proj1 (nb_digits_double (Pos.to_little_uint p))). lia.
Qed.

Lemma string_of_uint_length (d : Decimal.uint) :
  String.length (DecimalString.NilEmpty.string_of_uint d) = Decimal.nb_digits d.
Proof. induction d; simpl; by rewrite ?IHd. Qed.

Lemma str_of_int_length (z : Z) :
  (0 ≤ z < 2 ^ 63)%Z → (String.length (str_of_int z) ≤ 64)%nat.
Proof.
  intros [Hlo Hhi]. destruct z as [|p|p]; [simpl; lia| |lia].
  unfold str_of_int, Z.to_int, DecimalString.NilZero.string_of_int,
    DecimalString.NilZero.string_of_uint.
  assert (String.length (DecimalString.NilEmpty.string_of_uint (Pos.to_uint p)) ≤ 64)%nat.
  { rewrite string_of_uint_length. unfold Pos.to_uint.
    rewrite DecimalFacts.nb_digits_rev.
    etrans; [apply nb_digits_to_little_uint|].
    apply (Pos.size_nat_monotone p (2 ^ 63)%positive). lia. }
  destruct (Pos.to_uint p); simpl in *; lia.
Qed.

Lemma list_byte_of_string_length (s : string) :
  length (list_byte_of_string s) = String.length s.
Proof.
  unfold list_byte_of_string. rewrite length_map.
  induction s as [|c s IH]; simpl; by rewrite ?IH.
Qed.

(** ** Reading a header back *)

(** A decimal does not open with a closing parenthesis. *)
Lemma str_strip_unit_int (z : Z) (s : string) :
  str_strip_prefix "()" ("(" +:+ str_of_int z +:+ s) = None.
Proof.
  pose proof (str_of_int_chars z) as Hc. pose proof (str_of_int_nonempty z) as Hn.
  destruct (str_of_int z) as [|c t]; [done|]. simpl in Hc.
  apply andb_true_iff in Hc as [Hc _].
  change (str_strip_prefix "()" (String "(" (String c (t +:+ s))) = None).
  cbn [str_strip_prefix]. rewrite Ascii.eqb_refl.
  destruct (Ascii.eqb ")" c) eqn:E; [|done].
  apply Ascii.eqb_eq in E as <-. done.
Qed.

Lemma read_shape_text (sh : shape) (rest : string) :
  read_shape (shape_text sh +:+ rest) = Some (sh, rest).
Proof.
  destruct sh as [|n]; [done|]. unfold read_shape, shape_text.
  rewrite !str_app_assoc, str_strip_unit_int.
  rewrite (str_strip_prefix_app "(" _). cbn [mbind option_bind].
  change (", 3)" +:+ rest) with (String "," (" 3)" +:+ rest)).
  rewrite (str_split1_app is_comma).
  - rewrite int_of_str_of_int. cbn [mbind option_bind].
    rewrite (str_strip_prefix_app " 3)" rest). cbn [mbind option_bind].
    rewrite decide_True by lia. by rewrite Nat2Z.id.
  - eapply str_forall_impl, str_of_int_chars. intros c Hc.
    unfold is_comma. destruct (Ascii.eqb c ",") eqn:E; [|done].
    apply Ascii.eqb_eq in E as ->. done.
  - done.
Qed.

Lemma read_header_text_ok (growth : bool) (descr : string) (sh : shape) :
  str_forall (λ c, negb (is_quote c)) descr = true →
  read_header_text (header_text growth descr sh) = Some (descr, sh).
Proof.
  intros Hd. unfold read_header_text, header_text, header_dict.
  rewrite !str_app_assoc, (str_strip_prefix_app "{'descr': '" _). cbn [mbind option_bind].
  change ("', 'fortran_order': False, 'shape': " +:+ ?s)
    with (String "'" (", 'fortran_order': False, 'shape': " +:+ s)).
  rewrite (str_split1_app is_quote) by done. cbn [mbind option_bind].
  rewrite (str_strip_prefix_app ", 'fortran_order': False, 'shape': " _).
  cbn [mbind option_bind]. rewrite read_shape_text. cbn [mbind option_bind].
  rewrite (str_strip_prefix_app ", }" _). cbn [mbind option_bind].
  by rewrite !str_lstrip_spaces.
Qed.

(** The header ends where the data start: at a multiple of 64. *)
Lemma header_padlen_aligned (n : nat) :
  ((10 + (n + header_padlen (S n) + 1)) mod 64 = 0)%nat ∧ (1 ≤ header_padlen (S n) ≤ 64)%nat.
Proof.
  unfold header_padlen.
  pose proof (Nat.mod_upper_bound (10 + S n) 64 ltac:(done)) as Hm.
  pose proof (Nat.div_mod_eq (10 + S n) 64) as Hd. split; [|lia].
  replace (10 + (n + (64 - (10 + S n) mod 64) + 1))%nat
    with (S ((10 + S n) / 64) * 64)%nat by lia.
  apply Nat.Div0.mod_mul.
Qed.

Lemma header_text_length (growth : bool) (descr : string) (sh : shape) :
  ((10 + String.length (header_text growth descr sh)) mod 64 = 0)%nat ∧
  (String.length (header_dict descr sh) + 2 ≤ String.length (header_text growth descr sh)
     ≤ String.length (header_dict descr sh) + growth_spare growth sh + 65)%nat.
Proof.
  unfold header_text. rewrite !String.app_length, !spaces_length.
  change (String.length (String "010" "")) with 1%nat.
  set (n := (String.length (header_dict descr sh) + growth_spare growth sh)%nat).
  destruct (header_padlen_aligned n) as [Ha Hp]. split; [|lia].
  rewrite <-Ha. f_equal; lia.
Qed.

Lemma npy_header_length (growth : bool) (descr : string) (sh : shape) :
  length (npy_header growth descr sh) = (10 + String.length (header_text growth descr sh))%nat.
Proof.
  unfold npy_header. cbn [length app npy_magic]. rewrite !length_app, length_le_split.
  rewrite list_byte_of_string_length. lia.
Qed.

(** The header is a whole number of blocks of 64 bytes. *)
Lemma header_aligned (growth : bool) (descr : string) (sh : shape) :
  (10 + String.length (header_text growth descr sh)
     = 64 * ((10 + String.length (header_text growth descr sh)) / 64))%nat.
Proof.
  destruct (header_text_length growth descr sh) as [Hm _].
  pose proof (Nat.div_mod_eq (10 + String.length (header_text growth descr sh)) 64). lia.
Qed.

Lemma read_header_ok (growth : bool) (descr : string) (sh : shape) (data : list byte) :
  str_forall (λ c, negb (is_quote c)) descr = true →
  (Z.of_nat (String.length (header_text growth descr sh)) < 2 ^ 16)%Z →
  read_header (npy_header growth descr sh ++ data) = Some (descr, sh, data).
Proof.
  intros Hd Hl. unfold read_header, npy_header.
  set (text := header_text growth descr sh) in *.
  cbn [npy_magic app take drop]. rewrite decide_True by done.
  rewrite drop_0, <-!app_assoc.
  rewrite (take_app_length' (le_split 2 _)) by by rewrite length_le_split.
  rewrite le_combine_split, Z.mod_small, Nat2Z.id by (change (Z.of_nat 2 * 8)%Z with 16%Z; lia).
  rewrite (drop_app_length' (le_split 2 _)) by by rewrite length_le_split.
  rewrite decide_True by (rewrite length_app, list_byte_of_string_length; lia).
  rewrite (take_app_length' (list_byte_of_string text)), (drop_app_length' (list_byte_of_string text))
    by by rewrite list_byte_of_string_length.
  rewrite string_of_list_byte_of_string. unfold text. by rewrite read_header_text_ok.
Qed.

(** ** Reading the elements back *)

(** Three chunks of [n] bytes at the head of a list. *)
Lemma take_drop_three {B} (a b c t : list B) (n : nat) :
  length a = n → length b = n → length c = n →
  take n (a ++ b ++ c ++ t) = a ∧ take n (drop n (a ++ b ++ c ++ t)) = b ∧
  take n (drop (2 * n) (a ++ b ++ c ++ t)) = c ∧ drop (3 * n) (a ++ b ++ c ++ t) = t.
Proof.
  intros <- Hb Hc. rewrite take_app_length, drop_app_length.
  replace (2 * length a)%nat with (length a + length b)%nat by lia.
  replace (3 * length a)%nat with (length a + (length b + length c))%nat by lia.
  rewrite !drop_app_add' by done. rewrite <-Hb, take_app_length, !drop_app_length.
  by rewrite Hb, <-Hc, take_app_length.
Qed.

Section arrays_lemmas.
Context {E : Type} `{ElemCodecOk E valid}.

Lemma rows_bytes_length (rows : list (vec3 E)) :
  length (rows_bytes rows) = (length rows * (3 * elem_size))%nat.
Proof.
  induction rows as [|r rows IH]; [done|]. unfold rows_bytes in *. cbn [mbind list_bind].
  rewrite !length_app, IH, !elem_bytes_length. cbn [length]. lia.
Qed.

Lemma read_rows_bytes (rows : list (vec3 E)) (tail : list byte) :
  Forall (v3_Forall valid) rows →
  read_rows (length rows) (rows_bytes rows ++ tail) = Some rows.
Proof.
  induction 1 as [|[x y z] rows (Hx & Hy & Hz) _ IH]; [done|].
  change (rows_bytes (V3 x y z :: rows))
    with ((elem_bytes x ++ elem_bytes y ++ elem_bytes z) ++ rows_bytes rows)%list.
  cbn [length read_rows]. rewrite <-!app_assoc.
  destruct (take_drop_three (elem_bytes x) (elem_bytes y) (elem_bytes z)
              (rows_bytes rows ++ tail) elem_size) as (-> & -> & -> & ->);
    [apply elem_bytes_length..|].
  rewrite !elem_read_bytes by done. cbn [mbind option_bind]. by rewrite IH.
Qed.

End arrays_lemmas.

(** ** The integer codec *)

Lemma i64_signed_mod (z : Z) : i64_range z → i64_signed (z mod 2 ^ 64) = z.
Proof.
  unfold i64_range, i64_signed. change (2 ^ 63)%Z with 9223372036854775808%Z.
  change (2 ^ 64)%Z with 18446744073709551616%Z. intros Hz.
  destruct (decide (0 ≤ z)%Z).
  - rewrite Z.mod_small by lia. by rewrite decide_True by lia.
  - replace (z mod 18446744073709551616)%Z with (z + 18446744073709551616)%Z.
    + rewrite decide_False by lia. lia.
    + apply (Z.mod_unique _ _ (-1)); lia.
Qed.

#[export] Instance i64_codec_ok : ElemCodecOk Z i64_range.
Proof.
  split; [apply length_le_split | | done | simpl; lia].
  intros z Hz. cbn [elem_read elem_bytes i64_codec]. unfold i64_read, i64_bytes.
  rewrite decide_True by apply length_le_split.
  by rewrite le_combine_split, i64_signed_mod.
Qed.

(** ** The length field *)

Lemma header_dict_length (descr : string) (sh : shape) :
  String.length (header_dict descr sh)
    = (50 + String.length descr + String.length (shape_text sh))%nat.
Proof.
  unfold header_dict. rewrite !String.app_length. cbn [String.length]. lia.
Qed.

(** The length of the header fits the two bytes of version 1.0 for every
    array that fits in memory. *)
Lemma header_text_fits (growth : bool) (descr : string) (sh : shape) :
  (String.length descr ≤ 64)%nat →
  match sh with ShapeScalar => True | ShapeRows n => (Z.of_nat n < 2 ^ 63)%Z end →
  (Z.of_nat (String.length (header_text growth descr sh)) < 2 ^ 16)%Z.
Proof.
  intros Hd Hn. destruct (header_text_length growth descr sh) as [_ [_ Hl]].
  rewrite header_dict_length in Hl. change (2 ^ 16)%Z with 65536%Z.
  assert (String.length (shape_text sh) + growth_spare growth sh ≤ 100)%nat; [|lia].
  destruct sh as [|n]; [simpl; lia|]. unfold shape_text, growth_spare.
  rewrite !String.app_length. cbn [String.length].
  pose proof (str_of_int_length (Z.of_nat n) ltac:(lia)). destruct growth; lia.
Qed.

(** ** Reading the members back *)

(** What [np_load] returns for an entry of the archive. *)
Definition entry_read {A} (allow_pickle : bool) (a : npy A) : result (npy A) :=
  match a with
  | NpyNone =>
      if allow_pickle then Ok NpyNone
      else Raise (ValueError "Object arrays cannot be loaded when allow_pickle=False")
  | _ => Ok a
  end.

Lemma str_app_inv_tail (s s' t : string) : s +:+ t = s' +:+ t → s = s'.
Proof.
  intros E. assert (String.length s = String.length s') as Hl.
  { apply (f_equal String.length) in E. rewrite !String.app_length in E. lia. }
  revert s' E Hl. induction s as [|c s IH]; intros [|c' s'] E Hl; try done.
  injection E as -> E. f_equal. apply IH; [done|]. by injection Hl.
Qed.

Section members_lemmas.
Context {A : Type} `{ElemCodecOk A valid}.
Context (Hdescr : elem_descr (E:=A) ≠ "<i8" ∧ elem_descr (E:=A) ≠ "|O").
Variables (growth : bool) (pickled_none : list byte).

(** The arrays the format holds: every element has a code, and the first
    dimension is that of an array in memory. *)
Definition npy_valid (a : npy A) : Prop :=
  match a with
  | NpyFloat v => Forall (v3_Forall valid) v ∧ (Z.of_nat (length v) < 2 ^ 63)%Z
  | NpyInt f => Forall (v3_Forall i64_range) f ∧ (Z.of_nat (length f) < 2 ^ 63)%Z
  | NpyNone => True
  end.

Lemma array_read {E} `{ElemCodecOk E valid'} (rows : list (vec3 E)) :
  Forall (v3_Forall valid') rows → (Z.of_nat (length rows) < 2 ^ 63)%Z →
  read_header (array_bytes growth rows) = Some (elem_descr, ShapeRows (length rows), rows_bytes rows) ∧
  read_rows (length rows) (rows_bytes rows) = Some rows.
Proof.
  intros Hv Hn. split.
  - apply read_header_ok; [apply elem_descr_plain|].
    apply header_text_fits; [apply elem_descr_length | done].
  - rewrite <-(app_nil_r (rows_bytes rows)). by apply read_rows_bytes.
Qed.

Lemma npy_read_bytes_ok (allow_pickle : bool) (a : npy A) :
  npy_valid a →
  npy_read pickled_none allow_pickle (npy_bytes growth pickled_none a)
    = entry_read allow_pickle a.
Proof.
  destruct Hdescr as [Hi Ho]. unfold npy_read.
  destruct a as [v|f|]; cbn [npy_bytes npy_valid entry_read].
  - intros [Hv Hn]. destruct (array_read v Hv Hn) as [-> ->].
    by rewrite !decide_False, decide_True by done.
  - intros [Hv Hn]. destruct (array_read f Hv Hn) as [-> ->].
    by rewrite decide_False, decide_True by done.
  - intros _. rewrite read_header_ok by (done || by apply header_text_fits).
    rewrite decide_True by done. destruct allow_pickle; [|done].
    by rewrite decide_True by done.
Qed.

Lemma members_load_savez (vertices : list (vec3 A)) (faces : option (list (vec3 Z)))
    (allow_pickle : bool) (name : string) :
  npy_valid (NpyFloat vertices) → npy_valid (npy_of_faces (A:=A) faces) →
  members_load pickled_none (savez_members growth pickled_none vertices faces)
      allow_pickle name =
    match ({[ "vertices" := NpyFloat vertices;
              "faces" := npy_of_faces faces ]} : gmap string (npy A)) !! name with
    | Some a => entry_read allow_pickle a
    | None => Raise (LibraryError ("KeyError: " +:+ name))
    end.
Proof.
  intros Hv Hf. unfold members_load, savez_members. cbn [list_find fst snd].
  destruct (decide (name = "vertices")) as [->|Hn1].
  { rewrite decide_True by done. cbn [snd]. rewrite lookup_insert_eq.
    by apply npy_read_bytes_ok. }
  rewrite decide_False by (by intros ?%str_app_inv_tail).
  rewrite lookup_insert_ne by done.
  destruct (decide (name = "faces")) as [->|Hn2].
  { rewrite decide_True by done. cbn [fmap option_fmap option_map prod_map snd].
    rewrite lookup_singleton_eq. by apply npy_read_bytes_ok. }
  rewrite decide_False by (by intros ?%str_app_inv_tail).
  by rewrite lookup_singleton_ne by done.
Qed.

End members_lemmas.

Arguments npy_valid {A} valid a : assert.

(** What [np_load] of [Serializer] answers on the archive value is what
    reading the members answers on their bytes. *)
Lemma np_load_members `{ElemCodecOk A valid}
    (Hdescr : elem_descr (E:=A) ≠ "<i8" ∧ elem_descr (E:=A) ≠ "|O")
    (growth : bool) (pickled_none : list byte)
    (vertices : list (vec3 A)) (faces : option (list (vec3 Z)))
    (out_path : string) (w : world A) (allow_pickle : bool) (name : string) :
  npy_valid valid (NpyFloat vertices) → npy_valid valid (npy_of_faces (A:=A) faces) →
  let w' := (save_processed_data vertices faces out_path w).2 in
  np_load (npz_path out_path) allow_pickle name w'
    = (members_load pickled_none (savez_members growth pickled_none vertices faces)
         allow_pickle name, w').
Proof.
  intros Hv Hf. rewrite save_processed_data_run, (members_load_savez Hdescr) by done.
  cbn [snd]. unfold np_load. unfold_py. cbn [files]. rewrite lookup_insert_eq.
  cbn [arc_entries]. destruct (_ !! name) as [[| |]|]; by try destruct allow_pickle.
Qed.

(** ** Unsigned bytes *)

(** The smallest element type, [uint8]: an instance of the interface on
    which the format is run on concrete arrays. *)
Definition u8_codec : ElemCodec byte := {|
  elem_descr := "|u1";
  elem_size := 1;
  elem_bytes := λ b, [b];
  elem_read := λ bs, match bs with [b] => Some b | _ => None end
|}.

Lemma u8_codec_ok : @ElemCodecOk byte u8_codec (λ _, True).
Proof. split; [done | done | done | simpl; lia]. Qed.

(** ** Theorems *)

Section npy_claims.
Context {A : Type} `{ElemCodecOk A valid}.
Context (Hdescr : elem_descr (E:=A) ≠ "<i8" ∧ elem_descr (E:=A) ≠ "|O").
Variables (growth : bool) (pickled_none : list byte).

(** C14: round trip of one entry through its bytes.  An array whose
    elements have a code and whose first dimension is below 2^63, written
    as an array file, is read back exactly: the type code, the shape and
    every element, for the element type of the vertices and for the
    64-bit integers of the faces.  The object array of [None] is read
    back when pickles are allowed and refused with [ValueError] when they
    are not.  In the bytes the data (three elements a row) follow a header
    whose length is a multiple of 64. *)
Theorem npy_roundtrip (allow_pickle : bool) (a : npy A) :
  npy_valid valid a →
  npy_read pickled_none allow_pickle (npy_bytes growth pickled_none a) =
    match a with
    | NpyNone =>
        if allow_pickle then Ok NpyNone
        else Raise (ValueError "Object arrays cannot be loaded when allow_pickle=False")
    | _ => Ok a
    end ∧
  ∃ k : nat,
    length (npy_bytes growth pickled_none a) =
      (64 * k + match a with
                | NpyFloat v => length v * (3 * elem_size (E:=A))
                | NpyInt f => length f * 24
                | NpyNone => length pickled_none
                end)%nat.
Proof.
  intros Ha. split; [by rewrite (npy_read_bytes_ok Hdescr)|].
  destruct a as [v|f|]; cbn [npy_bytes]; unfold array_bytes;
    rewrite length_app, ?rows_bytes_length, npy_header_length;
    (eexists; f_equal; apply header_aligned).
Qed.

(** C9: round trip of the archive through its bytes.  From the members
    [np.savez] writes for the two keywords, reading [vertices] returns
    the vertices exactly, with or without pickles allowed; reading
    [faces] with pickles allowed returns the faces exactly, or the [None]
    marker when there were none; with [np.load]'s default
    [allow_pickle=False] it returns the faces when there were faces and
    raises [ValueError] when there were none; no other name is in the
    archive. *)
Theorem savez_load_roundtrip (vertices : list (vec3 A)) (faces : option (list (vec3 Z))) :
  npy_valid valid (NpyFloat vertices) → npy_valid valid (npy_of_faces (A:=A) faces) →
  let members := savez_members growth pickled_none vertices faces in
  (∀ allow_pickle,
     members_load pickled_none members allow_pickle "vertices" = Ok (NpyFloat vertices)) ∧
  members_load pickled_none members true "faces" = Ok (npy_of_faces faces) ∧
  members_load pickled_none members false "faces" =
    match faces with
    | Some f => Ok (NpyInt f)
    | None => Raise (ValueError "Object arrays cannot be loaded when allow_pickle=False")
    end ∧
  (∀ allow_pickle name, name ≠ "vertices" → name ≠ "faces" →
     members_load pickled_none members allow_pickle name
       = Raise (LibraryError ("KeyError: " +:+ name))).
Proof.
  intros Hv Hf members. unfold members. split_and!; [intros allow_pickle| | |intros allow_pickle name ??];
    rewrite (members_load_savez Hdescr) by done.
  - by rewrite lookup_insert_eq.
  - rewrite lookup_insert_ne, lookup_singleton_eq by done. by destruct faces.
  - rewrite lookup_insert_ne, lookup_singleton_eq by done. by destruct faces.
  - by rewrite lookup_insert_ne, lookup_singleton_ne by done.
Qed.

End npy_claims.

Lemma npy_roundtrip_witness :
  let a : npy byte := NpyInt [V3 0 1 2; V3 (-1) 2 (2 ^ 40)]%Z in
  @npy_read byte u8_codec [] false (@npy_bytes byte u8_codec true [] a) = Ok a ∧
  ∃ k : nat, length (@npy_bytes byte u8_codec true [] a) = (64 * k + 2 * 24)%nat.
Proof.
  apply (npy_roundtrip (H0:=u8_codec_ok) ltac:(done) true [] false
           (NpyInt [V3 0 1 2; V3 (-1) 2 (2 ^ 40)]%Z)).
  split; [repeat constructor; by compute | by compute].
Defined.

Lemma savez_load_roundtrip_witness :
  let members := @savez_members byte u8_codec true [Byte.x80; Byte.x4e; Byte.x2e]
                   [V3 Byte.x01 Byte.x02 Byte.x03] None in
  (∀ allow_pickle,
     @members_load byte u8_codec [Byte.x80; Byte.x4e; Byte.x2e] members allow_pickle "vertices"
       = Ok (NpyFloat [V3 Byte.x01 Byte.x02 Byte.x03])) ∧
  @members_load byte u8_codec [Byte.x80; Byte.x4e; Byte.x2e] members true "faces" = Ok NpyNone ∧
  @members_load byte u8_codec [Byte.x80; Byte.x4e; Byte.x2e] members false "faces"
    = Raise (ValueError "Object arrays cannot be loaded when allow_pickle=False") ∧
  (∀ allow_pickle name, name ≠ "vertices" → name ≠ "faces" →
     @members_load byte u8_codec [Byte.x80; Byte.x4e; Byte.x2e] members allow_pickle name
       = Raise (LibraryError ("KeyError: " +:+ name))).
Proof.
  apply (savez_load_roundtrip (H0:=u8_codec_ok) ltac:(done) true
           [Byte.x80; Byte.x4e; Byte.x2e] [V3 Byte.x01 Byte.x02 Byte.x03] None).
  - split; [by repeat constructor | by compute].
  - done.
Defined.
