(* ===== verification/Pipeline.v ===== *)
(** * The driver: [preprocess_obj] (lines 54-59) and the [__main__] block
    (lines 62-77)

    [preprocess_obj] chains the four stages; the main block runs it inside
    the only [try] of the program and prints the outcome.  The theorems
    say when the chain returns, what it has written when it does, and that
    a failure of any stage leaves the file store untouched.  The stage
    machine that the driver refines is in [Machine]; the parsing of the
    command line is in [Cli]. *)

From S2P Require Import Prelude Scalar Rational NdArray World Loader Normalizer Dedup Serializer.
From Stdlib Require Import ZArith QArith Qcanon.
From stdpp Require Import base tactics option list numbers strings gmap relations.

Local Open Scope py_scope.

(** The effect of the last stage, for [autorewrite with py]. *)
#[local] Hint Rewrite @save_processed_data_run : py.

(** ** Definitions *)

(** The two command-line options, with the defaults of the parser. *)
Record args : Type := Args { args_input : string; args_output : string }.

Definition default_args : args := Args "airboat.obj" "processed_airboat.npz".

Section pipeline.
Context `{Scalar A, !ArgSort A} {src : MeshSource A}.

Definition preprocess_obj (input_path output_path : string) : py (world A) unit :=
  loaded ← load_obj input_path;
  verts ← normalize_vertices (Some loaded.1);
  deduped ← remove_duplicate_vertices verts loaded.2;
  save_processed_data deduped.1 deduped.2 output_path.

(** The default of the second parameter of [preprocess_obj]; the command
    line never uses it, because [--output] has a default of its own. *)
Definition preprocess_obj_default_output : string := "processed_model.npz".

(** The body of [if __name__ == "__main__"] after argument parsing. *)
Definition main (a : args) : py (world A) unit :=
  py_try
    (preprocess_obj (args_input a) (args_output a);;;
     py_print MsgCompleted)
    (λ e, py_print (MsgError e)).

End pipeline.

(** ** Lemmas on the stages *)

Section stage_effects.
Context `{Scalar A, !ArgSort A, !ArgSortPerm A} {src : MeshSource A}.
Implicit Types (w : world A).

Lemma normalize_vertices_files (verts : option (list (vec3 A))) w :
  files (normalize_vertices verts w).2 = files w.
Proof. by destruct verts as [[|v vs]|]. Qed.

Lemma remove_duplicate_vertices_files (verts : list (vec3 A))
    (faces : option (list (vec3 Z))) w :
  files (remove_duplicate_vertices verts faces w).2 = files w.
Proof. rewrite remove_duplicate_vertices_run. by destruct (remap_faces _ _). Qed.

Lemma normalize_vertices_console (verts : option (list (vec3 A))) w :
  console w `prefix_of` console (normalize_vertices verts w).2.
Proof. destruct verts as [[|v vs]|]; try done. by apply prefix_app_r. Qed.

Lemma remove_duplicate_vertices_console (verts : list (vec3 A))
    (faces : option (list (vec3 Z))) w :
  console w `prefix_of` console (remove_duplicate_vertices verts faces w).2.
Proof.
  rewrite remove_duplicate_vertices_run.
  destruct (remap_faces _ _); [by apply prefix_app_r | done].
Qed.

(** [preprocess_obj] as the sequence of its stages. *)
Lemma preprocess_obj_run (input_path output_path : string) w :
  preprocess_obj input_path output_path w =
    match load_obj input_path w with
    | (Raise e, w1) => (Raise e, w1)
    | (Ok (verts, faces), w1) =>
        match normalize_vertices (Some verts) w1 with
        | (Raise e, w2) => (Raise e, w2)
        | (Ok verts', w2) =>
            match remove_duplicate_vertices verts' faces w2 with
            | (Raise e, w3) => (Raise e, w3)
            | (Ok (uv, faces'), w3) => save_processed_data uv faces' output_path w3
            end
        end
    end.
Proof.
  unfold preprocess_obj. unfold mbind at 1, py_bind.
  destruct (load_obj input_path w) as [[[verts faces]|e] w1]; [|done].
  unfold mbind at 1, py_bind. cbn [fst snd].
  destruct (normalize_vertices (Some verts) w1) as [[verts'|e] w2]; [|done].
  unfold mbind at 1, py_bind.
  by destruct (remove_duplicate_vertices verts' faces w2) as [[[uv faces']|e] w3].
Qed.

(** A failure leaves the file store as it was. *)
Lemma preprocess_obj_failure_files (input_path output_path : string) e w w' :
  preprocess_obj input_path output_path w = (Raise e, w') →
  files w' = files w.
Proof.
  rewrite preprocess_obj_run.
  pose proof (load_obj_files input_path w) as H1.
  destruct (load_obj input_path w) as [[[verts faces]|e1] w1]; simpl in H1;
    [|by intros [= _ <-]].
  pose proof (normalize_vertices_files (Some verts) w1) as H2.
  destruct (normalize_vertices _ w1) as [[verts'|e2] w2]; simpl in H2;
    [|intros [= _ <-]; congruence].
  pose proof (remove_duplicate_vertices_files verts' faces w2) as H3.
  destruct (remove_duplicate_vertices _ _ w2) as [[[uv faces']|e3] w3]; simpl in H3;
    [|intros [= _ <-]; congruence].
  by autorewrite with py.
Qed.

(** Whatever happens, what was printed stays printed. *)
Lemma preprocess_obj_console (input_path output_path : string) w :
  console w `prefix_of` console (preprocess_obj input_path output_path w).2.
Proof.
  rewrite preprocess_obj_run.
  pose proof (load_obj_console input_path w) as H1.
  destruct (load_obj input_path w) as [[[verts faces]|e1] w1]; simpl in H1; [|done].
  pose proof (normalize_vertices_console (Some verts) w1) as H2.
  destruct (normalize_vertices _ w1) as [[verts'|e2] w2]; simpl in H2;
    [|by etrans].
  pose proof (remove_duplicate_vertices_console verts' faces w2) as H3.
  destruct (remove_duplicate_vertices _ _ w2) as [[[uv faces']|e3] w3]; simpl in H3;
    [|by do 2 (etrans; [done|])].
  autorewrite with py. cbn [snd console].
  do 3 (etrans; [done|]). by apply prefix_app_r.
Qed.

(** The whole behaviour of [preprocess_obj], by cases on the file store,
    on what the parser returns and on the face indices. *)
Lemma preprocess_obj_cases (input_path output_path : string) w :
  preprocess_obj input_path output_path w =
    match files w !! input_path with
    | None => (Raise (FileNotFoundError ("File not found: " +:+ input_path)), w)
    | Some f =>
        let out1 := console w ++ [MsgLoading input_path] in
        match trimesh_parse input_path f with
        | Raise e => (Raise e, World (files w) out1)
        | Ok mesh =>
            let faces := as_int32 <$> mesh_faces mesh in
            match mesh_vertices mesh with
            | None =>
                (Raise (ValueError "Loaded object has no vertices"), World (files w) out1)
            | Some [] =>
                (Raise (ValueError "No vertices to normalize"),
                 World (files w) (out1 ++ [MsgLoaded 0 (faces_count faces)]))
            | Some (v :: vs) =>
                let nv := normalized v vs in
                let out3 := out1 ++ [MsgLoaded (S (length vs)) (faces_count faces);
                                     MsgNormalized] in
                match remap_faces (inverse_indices nv) faces with
                | Raise e => (Raise e, World (files w) out3)
                | Ok fs =>
                    (Ok tt,
                     World (<[npz_path output_path :=
                               FileNpz (Archive {[ "vertices" := NpyFloat (unique_verts nv);
                                                   "faces" := npy_of_faces fs ]} false)]>
                              (files w))
                       (out3 ++ [MsgRemoved (Z.of_nat (length nv)
                                             - Z.of_nat (length (unique_verts nv)));
                                 MsgSaved output_path]))
                end
            end
        end
    end.
Proof.
  rewrite preprocess_obj_run, load_obj_run.
  destruct (files w !! input_path) as [f|]; [|done]. cbn zeta.
  destruct (trimesh_parse input_path f) as [mesh|e]; [|done].
  destruct (mesh_vertices mesh) as [[|v vs]|]; [by rewrite <-app_assoc| |done].
  rewrite normalize_vertices_run, remove_duplicate_vertices_run. cbn [files console].
  destruct (remap_faces _ _) as [fs|e]; [|by rewrite <-!app_assoc].
  autorewrite with py. cbn [files console]. by rewrite <-!app_assoc.
Qed.

End stage_effects.

(** ** Theorems on the driver *)

(** The invariant of a mesh: every face index is a valid index into the
    vertex array. *)
Definition mesh_valid {A} (verts : list (vec3 A)) (faces : option (list (vec3 Z))) : Prop :=
  from_option (Forall (v3_Forall (λ i, (0 ≤ i < Z.of_nat (length verts))%Z))) True faces.

Section pipeline_claims.
Context `{Scalar A, !ArgSort A, !ArgSortPerm A} {src : MeshSource A}.
Implicit Types (w : world A) (a : args).

(** C7: a failure of any stage leaves the file store exactly as it was:
    no output is created or overwritten unless every stage succeeded. *)
Theorem preprocess_obj_failure_no_output (input_path output_path : string) e w w' :
  preprocess_obj input_path output_path w = (Raise e, w') →
  files w' = files w ∧ console w `prefix_of` console w'.
Proof.
  intros E. split; [by eapply preprocess_obj_failure_files|].
  pose proof (preprocess_obj_console input_path output_path w) as Hc.
  by rewrite E in Hc.
Qed.

(** C10: what a successful run has written.  When [preprocess_obj]
    returns, the input file existed and the parser returned an object
    with vertices [v :: vs]; the final world is the initial one with, at
    the output path completed with [.npz], an uncompressed archive whose
    [vertices] entry is the deduplicated array of the normalised vertices
    and whose [faces] entry is the faces of the object, cast to [int32]
    and renumbered through the inverse indices ([None] exactly when the
    object had no faces); the saved faces index the saved vertices
    validly; the console has gained the five progress lines in order,
    with the counts of the loaded mesh and the number of vertices
    removed. *)
Theorem preprocess_obj_success (input_path output_path : string) w w' :
  preprocess_obj input_path output_path w = (Ok tt, w') →
  ∃ f mesh v vs fs,
    files w !! input_path = Some f ∧ trimesh_parse input_path f = Ok mesh ∧
    mesh_vertices mesh = Some (v :: vs) ∧
    remap_faces (inverse_indices (normalized v vs)) (as_int32 <$> mesh_faces mesh) = Ok fs ∧
    w' = World
           (<[npz_path output_path :=
                FileNpz (Archive {[ "vertices" := NpyFloat (unique_verts (normalized v vs));
                                    "faces" := npy_of_faces fs ]} false)]> (files w))
           (console w ++
              [MsgLoading input_path;
               MsgLoaded (S (length vs)) (faces_count (as_int32 <$> mesh_faces mesh));
               MsgNormalized;
               MsgRemoved (Z.of_nat (S (length vs))
                           - Z.of_nat (length (unique_verts (normalized v vs))));
               MsgSaved output_path]) ∧
    mesh_valid (unique_verts (normalized v vs)) fs ∧
    (fs = None ↔ mesh_faces mesh = None).
Proof.
  rewrite preprocess_obj_cases.
  destruct (files w !! input_path) as [f|]; [|done]. cbn zeta.
  destruct (trimesh_parse input_path f) as [mesh|e] eqn:Ep; [|done].
  destruct (mesh_vertices mesh) as [[|v vs]|] eqn:Ev; [done| |done].
  destruct (remap_faces _ _) as [fs|e] eqn:Ef; [|done]. intros [= <-].
  exists f, mesh, v, vs, fs. rewrite <-!app_assoc.
  split_and!; [done.. | by rewrite <-(normalized_length v vs)
              | exact (remap_faces_valid _ _ _ Ef) |].
  apply remap_faces_ok in Ef as [[? ->]|(?&?&?&->&_)]; by destruct (mesh_faces mesh).
Qed.

(** A sufficient condition for success, with what is written. *)
Lemma preprocess_obj_returns (input_path output_path : string) w f mesh v vs :
  files w !! input_path = Some f → trimesh_parse input_path f = Ok mesh →
  mesh_vertices mesh = Some (v :: vs) →
  faces_in_range (S (length vs)) (as_int32 <$> mesh_faces mesh) →
  let uv := unique_verts (normalized v vs) in
  ∃ fs,
    remap_faces (inverse_indices (normalized v vs)) (as_int32 <$> mesh_faces mesh) = Ok fs ∧
    preprocess_obj input_path output_path w =
      (Ok tt,
       World (<[npz_path output_path :=
                 FileNpz (Archive {[ "vertices" := NpyFloat uv;
                                     "faces" := npy_of_faces fs ]} false)]> (files w))
         (console w ++ [MsgLoading input_path;
                        MsgLoaded (S (length vs)) (faces_count (as_int32 <$> mesh_faces mesh));
                        MsgNormalized;
                        MsgRemoved (Z.of_nat (length (normalized v vs)) - Z.of_nat (length uv));
                        MsgSaved output_path])) ∧
    uv ≠ [] ∧ mesh_valid uv fs ∧ (fs = None ↔ mesh_faces mesh = None).
Proof.
  intros Ef Ep Ev Hr. rewrite preprocess_obj_cases, Ef. cbn zeta. rewrite Ep, Ev.
  rewrite <-(normalized_length v vs), <-inverse_indices_length in Hr.
  apply remap_faces_total in Hr as [fs Hfs]. rewrite Hfs.
  exists fs. split_and!.
  - done.
  - by rewrite <-!app_assoc.
  - apply unique_verts_nonempty. intros E%(f_equal length).
    by rewrite normalized_length in E.
  - exact (remap_faces_valid _ _ _ Hfs).
  - apply remap_faces_ok in Hfs as [[? ->]|(?&?&?&->&_)]; by destruct (mesh_faces mesh).
Qed.

(** After a success the main block prints the completion line. *)
Lemma main_ok a w w1 :
  preprocess_obj (args_input a) (args_output a) w = (Ok tt, w1) →
  main a w = (Ok tt, World (files w1) (console w1 ++ [MsgCompleted])).
Proof. intros E. unfold main, py_try. unfold mbind at 1, py_bind. by rewrite E. Qed.

(** The cases of [preprocess_obj_cases] that raise at once. *)
Local Ltac no_return :=
  split; [split; [by intros [? [=]] | intros (?&?&?&?&?&?&?&?); simplify_eq; congruence]
         | by intros ?? [= <- _]].

(** C11: when the pipeline returns and why it does not.  In a file
    store where the output can be written (a write that fails is not
    modelled), it returns exactly when the input file exists, the parser returns an object with
    a non-empty vertex array, and every face index, after the cast to
    [int32], lies in [[-n, n)] for [n] vertices.  When it raises, the
    exception is, in the order of the stages: [FileNotFoundError] for a
    missing file; whatever the parser raised; [ValueError] for an object
    without vertices; [ValueError] for an empty vertex array; [IndexError]
    for a face index outside [[-n, n)]. *)
Theorem preprocess_obj_outcome (input_path output_path : string) w :
  ((∃ w', preprocess_obj input_path output_path w = (Ok tt, w')) ↔
   ∃ f mesh verts, files w !! input_path = Some f ∧
     trimesh_parse input_path f = Ok mesh ∧
     mesh_vertices mesh = Some verts ∧ verts ≠ [] ∧
     faces_in_range (length verts) (as_int32 <$> mesh_faces mesh)) ∧
  (∀ e w', preprocess_obj input_path output_path w = (Raise e, w') →
     match files w !! input_path with
     | None => e = FileNotFoundError ("File not found: " +:+ input_path)
     | Some f =>
         match trimesh_parse input_path f with
         | Raise e' => e = e'
         | Ok mesh =>
             match mesh_vertices mesh with
             | None => e = ValueError "Loaded object has no vertices"
             | Some [] => e = ValueError "No vertices to normalize"
             | Some verts =>
                 ∃ fs f i, as_int32 <$> mesh_faces mesh = Some fs ∧ f ∈ fs ∧
                   i ∈ v3_list f ∧ ¬ index_in_range (length verts) i ∧
                   e = IndexError i (length verts)
             end
         end
     end).
Proof.
  rewrite preprocess_obj_cases.
  destruct (files w !! input_path) as [f|]; [|no_return]. cbn zeta.
  destruct (trimesh_parse input_path f) as [mesh|e0] eqn:Ep; [|no_return].
  destruct (mesh_vertices mesh) as [[|v vs]|] eqn:Ev; [no_return| |no_return].
  pose proof (remap_faces_total (inverse_indices (normalized v vs))
                (as_int32 <$> mesh_faces mesh)) as Ht.
  pose proof (remap_faces_raise (inverse_indices (normalized v vs))
                (as_int32 <$> mesh_faces mesh)) as Hr.
  rewrite inverse_indices_length, normalized_length in Ht, Hr.
  destruct (remap_faces _ _) as [fs|e0]; (split; [split|]).
  - intros _. eexists f, mesh, _. split_and!; [done..|]. apply Ht. by eexists.
  - by eexists.
  - done.
  - by intros [? [=]].
  - intros (f0 & mesh0 & verts & ? & ? & ? & _ & Hf). simplify_eq.
    assert (mesh0 = mesh) as -> by congruence.
    assert (verts = v :: vs) as -> by congruence. by apply Ht in Hf as [? ?].
  - intros e w' [= <- _]. by apply Hr.
Qed.

(** The main block never lets an exception escape: it always returns,
    after printing either the completion line or the error line with the
    exception that stopped the pipeline; in the second case the file
    store is unchanged. *)
Lemma main_total a w :
  ∃ w', main a w = (Ok tt, w') ∧
    ((∃ w1, preprocess_obj (args_input a) (args_output a) w = (Ok tt, w1) ∧
        w' = World (files w1) (console w1 ++ [MsgCompleted])) ∨
     (∃ e w1, preprocess_obj (args_input a) (args_output a) w = (Raise e, w1) ∧
        w' = World (files w) (console w1 ++ [MsgError e]))).
Proof.
  unfold main, py_try. unfold mbind at 1, py_bind.
  destruct (preprocess_obj _ _ w) as [[[]|e] w1] eqn:E.
  - eexists. split; [done|]. left. by exists w1.
  - eexists. split; [done|]. right. exists e, w1. split; [done|].
    by rewrite <-(preprocess_obj_failure_files _ _ _ _ _ E).
Qed.

End pipeline_claims.

Section pipeline_exact.
Context `{!ArgSort Qc, !ArgSortPerm Qc}.
Implicit Types (v u : vec3 Qc) (vs out uv : list (vec3 Qc)) (w : world Qc).
Local Open Scope Qc_scope.

(** C17: the unit box survives the deduplication.  In exact arithmetic,
    for a mesh with non-zero extent, the vertices that
    [remove_duplicate_vertices] returns for the normalised vertices still
    lie in [-1/2, 1/2] on every axis, and along the axis of the largest
    extent one of them has the coordinate -1/2 and one the coordinate
    1/2: rounding to six decimals keeps both.  So at least two vertices
    are returned: the pipeline never merges all the vertices of such a
    mesh, however close together they were in the file. *)
Theorem pipeline_keeps_unit_box v vs (faces : option (list (vec3 Z))) w out w1 uv fs w2 :
  0 < bbox_scale (rows_min v vs) (rows_max v vs) →
  normalize_vertices (Some (v :: vs)) w = (Ok out, w1) →
  remove_duplicate_vertices out faces w1 = (Ok (uv, fs), w2) →
  Forall (v3_Forall (λ x, - Q2Qc (1 # 2) ≤ x ≤ Q2Qc (1 # 2))) uv ∧
  (∃ a u1 u2, u1 ∈ uv ∧ u2 ∈ uv ∧
     coord a u1 = - Q2Qc (1 # 2) ∧ coord a u2 = Q2Qc (1 # 2)) ∧
  (2 ≤ length uv)%nat.
Proof.
  intros Hs. rewrite normalize_vertices_run. intros [= <- <-].
  intros (-> & _)%remove_duplicate_vertices_ok.
  assert (∃ a u1 u2, u1 ∈ unique_verts (normalized v vs) ∧
            u2 ∈ unique_verts (normalized v vs) ∧
            coord a u1 = - Q2Qc (1 # 2) ∧ coord a u2 = Q2Qc (1 # 2)) as Hx.
  { destruct (normalized_extremes v vs Hs) as (a & u1 & u2 & H1 & H2 & E1 & E2).
    exists a, (v3_map (round_scalar 6) u1), (v3_map (round_scalar 6) u2).
    rewrite !unique_verts_elem_of. autorewrite with nd. rewrite E1, E2.
    split_and!; [by apply list_elem_of_fmap_2.. | apply round_scalar_half | apply round_scalar_half]. }
  split_and!; [|done|].
  - apply Forall_forall. intros u (u' & -> & Hu)%unique_verts_elem_of%list_elem_of_fmap.
    pose proof (normalized_range v vs Hs) as Hr. rewrite Forall_forall in Hr.
    apply v3_Forall_coord. intros a. cbv beta. autorewrite with nd.
    apply round_scalar_half_range.
    by apply (proj1 (v3_Forall_coord (λ x, - Q2Qc (1 # 2) ≤ x ≤ Q2Qc (1 # 2)) u') (Hr u' Hu)).
  - destruct Hx as (a & u1 & u2 & H1 & H2 & E1 & E2).
    apply (elem_of_two_length u1 u2); [done..|]. intros ->. rewrite E1 in E2. done.
Qed.

End pipeline_exact.

Section scenario_claims.
Context `{Scalar A, !ArgSort A} {src : MeshSource A}.
Implicit Types (w : world A) (a : args).

(** With a missing input file the program prints exactly one line, the
    error line with [FileNotFoundError], creates no file and still returns
    normally. *)
Lemma main_missing_input a w :
  files w !! args_input a = None →
  main a w =
    (Ok tt,
     World (files w)
       (console w ++
          [MsgError (FileNotFoundError ("File not found: " +:+ args_input a))])).
Proof.
  intros E. unfold main, py_try. unfold mbind at 1, py_bind.
  by rewrite preprocess_obj_run, load_obj_run, E.
Qed.

End scenario_claims.

(** ** The theorems at concrete inputs *)

(** The world after the tetrahedron of [toy_world] has been processed. *)
Definition tetra_world : world Qc :=
  (preprocess_obj (src:=toy_parse) "tetra.obj" "out" toy_world).2.

Lemma tetra_run :
  preprocess_obj (src:=toy_parse) "tetra.obj" "out" toy_world = (Ok tt, tetra_world).
Proof. vm_compute. reflexivity. Qed.

Lemma scene_run :
  preprocess_obj (src:=toy_parse) "scene.glb" "out" toy_world =
    (Raise (ValueError "Loaded object has no vertices"),
     World (files toy_world) [MsgLoading "scene.glb"]).
Proof. vm_compute. reflexivity. Qed.

(** The archive written for the tetrahedron: the vertices centred and
    scaled by the largest extent (4, along x), in lexicographic order, and
    the faces renumbered to that order; the wrapped index [2^32 + 3] of the
    input has become a valid index. *)
Example tetra_archive :
  (match files tetra_world !! "out.npz" with
   | Some (FileNpz a) =>
       match arc_entries a !! "vertices", arc_entries a !! "faces" with
       | Some (NpyFloat v), Some (NpyInt f) => Some (v3_map this <$> v, f)
       | _, _ => None
       end
   | _ => None
   end) =
  Some ([V3 (-1 # 2) (-1 # 4) (-1 # 8); V3 (-1 # 2) (-1 # 4) (1 # 8);
         V3 (-1 # 2) (1 # 4) (-1 # 8); V3 (1 # 2) (-1 # 4) (-1 # 8)]%Q,
        [V3 0 3 2; V3 0 3 1; V3 0 2 1; V3 3 2 1]%Z).
Proof. vm_compute. reflexivity. Qed.

Lemma preprocess_obj_failure_no_output_witness :
  files (World (A:=Qc) (files toy_world) [MsgLoading "scene.glb"]) = files toy_world ∧
  console toy_world `prefix_of`
    console (World (A:=Qc) (files toy_world) [MsgLoading "scene.glb"]).
Proof.
  eapply (preprocess_obj_failure_no_output (src:=toy_parse) "scene.glb" "out");
    exact scene_run.
Defined.

Lemma preprocess_obj_success_witness :
  ∃ f mesh v vs fs,
    files toy_world !! "tetra.obj" = Some f ∧
    trimesh_parse (MeshSource:=toy_parse) "tetra.obj" f = Ok mesh ∧
    mesh_vertices mesh = Some (v :: vs) ∧
    remap_faces (inverse_indices (normalized v vs)) (as_int32 <$> mesh_faces mesh) = Ok fs ∧
    tetra_world = World
           (<[npz_path "out" :=
                FileNpz (Archive {[ "vertices" := NpyFloat (unique_verts (normalized v vs));
                                    "faces" := npy_of_faces fs ]} false)]> (files toy_world))
           (console toy_world ++
              [MsgLoading "tetra.obj";
               MsgLoaded (S (length vs)) (faces_count (as_int32 <$> mesh_faces mesh));
               MsgNormalized;
               MsgRemoved (Z.of_nat (S (length vs))
                           - Z.of_nat (length (unique_verts (normalized v vs))));
               MsgSaved "out"]) ∧
    mesh_valid (unique_verts (normalized v vs)) fs ∧
    (fs = None ↔ mesh_faces mesh = None).
Proof.
  eapply (preprocess_obj_success (src:=toy_parse) "tetra.obj" "out"); exact tetra_run.
Defined.

Lemma preprocess_obj_outcome_witness :
  ∃ f mesh verts, files toy_world !! "tetra.obj" = Some f ∧
    trimesh_parse (MeshSource:=toy_parse) "tetra.obj" f = Ok mesh ∧
    mesh_vertices mesh = Some verts ∧ verts ≠ [] ∧
    faces_in_range (length verts) (as_int32 <$> mesh_faces mesh).
Proof.
  apply (preprocess_obj_outcome (src:=toy_parse) "tetra.obj" "out" toy_world).
  eexists. exact tetra_run.
Defined.

Lemma pipeline_keeps_unit_box_witness :
  Forall (v3_Forall (λ x, (- Q2Qc (1 # 2) ≤ x ≤ Q2Qc (1 # 2))%Qc))
    (@unique_verts Qc _ merge_argsort (normalized cube_head cube_tail)) ∧
  (∃ a u1 u2, u1 ∈ @unique_verts Qc _ merge_argsort (normalized cube_head cube_tail) ∧
     u2 ∈ @unique_verts Qc _ merge_argsort (normalized cube_head cube_tail) ∧
     coord a u1 = (- Q2Qc (1 # 2))%Qc ∧ coord a u2 = Q2Qc (1 # 2)) ∧
  (2 ≤ length (@unique_verts Qc _ merge_argsort (normalized cube_head cube_tail)))%nat.
Proof.
  apply (pipeline_keeps_unit_box (ArgSort0:=merge_argsort) cube_head cube_tail None
           empty_world (normalized cube_head cube_tail) (World ∅ [MsgNormalized])
           (@unique_verts Qc _ merge_argsort (normalized cube_head cube_tail)) None
           (World ∅ [MsgNormalized; MsgRemoved 0]));
    [by_compute | reflexivity | vm_compute; reflexivity].
Defined.
