(* ===== verification/Machine.v ===== *)
(** * The stage machine of the pipeline

    The specification describes a run of the program as a machine with the
    states Idle, Loading, Normalizing, Deduplicating, Saving, Done and
    Failed.  Here the machine is an inductive step relation on
    configurations (a stage with the data it has received, and the world),
    with the transition function [next] and the fuelled [run] beside it.

    The theorems: the relation is deterministic and is the graph of
    [next]; every transition preserves the well-formedness of the
    configuration, so every reachable configuration is well formed;
    [preprocess_obj] of [Pipeline] is the run of the machine from [Idle];
    and with a good input every run arrives at [Done] with the archive
    written.  That every run is finite and that [stage_rank] transitions
    are enough fuel for [run] follow from the shape of the machine alone
    ([step_sn], [run_fuel_final]). *)

From S2P Require Import Prelude Scalar Rational NdArray World Loader Normalizer Dedup Serializer Pipeline.
From Stdlib Require Import ZArith QArith Qcanon.
From stdpp Require Import base tactics option list numbers strings gmap relations.

Local Open Scope py_scope.

#[local] Hint Rewrite @save_processed_data_run : py.

(** ** Definitions *)

Section machine.
Context `{Scalar A, !ArgSort A} {src : MeshSource A}.

(** A configuration: the stage about to run with the data it has received,
    or a final state. *)
Inductive stage : Type :=
| Idle
| Loading
| Normalizing (verts : list (vec3 A)) (faces : option (list (vec3 Z)))
| Deduplicating (verts : list (vec3 A)) (faces : option (list (vec3 Z)))
| Saving (verts : list (vec3 A)) (faces : option (list (vec3 Z)))
| Done
| Failed (e : exn).

(** One transition: the stage runs on the current world; it hands its
    result to the next stage or fails. *)
Inductive step (input_path output_path : string)
    : stage * world A → stage * world A → Prop :=
| step_start w :
    step input_path output_path (Idle, w) (Loading, w)
| step_load_ok w verts faces w' :
    load_obj input_path w = (Ok (verts, faces), w') →
    step input_path output_path (Loading, w) (Normalizing verts faces, w')
| step_load_fail w e w' :
    load_obj input_path w = (Raise e, w') →
    step input_path output_path (Loading, w) (Failed e, w')
| step_normalize_ok w verts faces verts' w' :
    normalize_vertices (Some verts) w = (Ok verts', w') →
    step input_path output_path (Normalizing verts faces, w)
      (Deduplicating verts' faces, w')
| step_normalize_fail w verts faces e w' :
    normalize_vertices (Some verts) w = (Raise e, w') →
    step input_path output_path (Normalizing verts faces, w) (Failed e, w')
| step_dedup_ok w verts faces verts' faces' w' :
    remove_duplicate_vertices verts faces w = (Ok (verts', faces'), w') →
    step input_path output_path (Deduplicating verts faces, w) (Saving verts' faces', w')
| step_dedup_fail w verts faces e w' :
    remove_duplicate_vertices verts faces w = (Raise e, w') →
    step input_path output_path (Deduplicating verts faces, w) (Failed e, w')
| step_save_ok w verts faces w' :
    save_processed_data verts faces output_path w = (Ok tt, w') →
    step input_path output_path (Saving verts faces, w) (Done, w')
| step_save_fail w verts faces e w' :
    save_processed_data verts faces output_path w = (Raise e, w') →
    step input_path output_path (Saving verts faces, w) (Failed e, w').

(** The transition as a function: the stage to run next, if any. *)
Definition next (input_path output_path : string) (c : stage * world A)
    : option (stage * world A) :=
  match c.1 with
  | Idle => Some (Loading, c.2)
  | Loading =>
      Some match load_obj input_path c.2 with
           | (Ok (verts, faces), w') => (Normalizing verts faces, w')
           | (Raise e, w') => (Failed e, w')
           end
  | Normalizing verts faces =>
      Some match normalize_vertices (Some verts) c.2 with
           | (Ok verts', w') => (Deduplicating verts' faces, w')
           | (Raise e, w') => (Failed e, w')
           end
  | Deduplicating verts faces =>
      Some match remove_duplicate_vertices verts faces c.2 with
           | (Ok (verts', faces'), w') => (Saving verts' faces', w')
           | (Raise e, w') => (Failed e, w')
           end
  | Saving verts faces =>
      Some match save_processed_data verts faces output_path c.2 with
           | (Ok _, w') => (Done, w')
           | (Raise e, w') => (Failed e, w')
           end
  | Done | Failed _ => None
  end.

(** Run at most [fuel] transitions.  Five are enough to reach a final
    state from [Idle]: start, load, normalise, deduplicate, save. *)
Fixpoint run (input_path output_path : string) (fuel : nat) (c : stage * world A)
    : stage * world A :=
  match fuel with
  | O => c
  | S n =>
      match next input_path output_path c with
      | Some c' => run input_path output_path n c'
      | None => c
      end
  end.

(** The final state that stands for an outcome. *)
Definition stage_of (r : result unit) : stage :=
  match r with Ok _ => Done | Raise e => Failed e end.

(** The final states. *)
Definition final (s : stage) : Prop :=
  match s with Done | Failed _ => True | _ => False end.

(** The outcome a final state stands for. *)
Definition outcome (s : stage) : option (result unit) :=
  match s with
  | Done => Some (Ok tt)
  | Failed e => Some (Raise e)
  | _ => None
  end.

(** The number of transitions left before a final state. *)
Definition stage_rank (s : stage) : nat :=
  match s with
  | Idle => 5
  | Loading => 4
  | Normalizing _ _ => 3
  | Deduplicating _ _ => 2
  | Saving _ _ => 1
  | Done | Failed _ => 0
  end.

(** The face indices are [int32] values: what the cast of the loader
    leaves. *)
Definition faces_int32 (faces : option (list (vec3 Z))) : Prop :=
  from_option (Forall (v3_Forall (λ i, (- 2 ^ 31 ≤ i < 2 ^ 31)%Z))) True faces.

(** What each stage may assume of the data it receives: the normaliser
    gets [int32] faces, the deduplicator moreover at least one vertex, and
    the serialiser a mesh whose face indices are valid. *)
Definition stage_wf (s : stage) : Prop :=
  match s with
  | Idle | Loading | Done | Failed _ => True
  | Normalizing verts faces => faces_int32 faces
  | Deduplicating verts faces => verts ≠ [] ∧ faces_int32 faces
  | Saving verts faces => verts ≠ [] ∧ mesh_valid verts faces
  end.

(** The invariant of a run that started in the world [w0]: the data of
    the stage is well formed, nothing printed has been lost, and the file
    store is the initial one until [Done], where it differs by the archive
    of a valid mesh at the output path. *)
Definition machine_inv (output_path : string) (w0 : world A) (c : stage * world A) : Prop :=
  stage_wf c.1 ∧ console w0 `prefix_of` console c.2 ∧
  match c.1 with
  | Done =>
      ∃ uv fs, uv ≠ [] ∧ mesh_valid uv fs ∧
        files c.2 = <[npz_path output_path :=
                       FileNpz (Archive {[ "vertices" := NpyFloat uv;
                                           "faces" := npy_of_faces fs ]} false)]> (files w0)
  | _ => files c.2 = files w0
  end.

End machine.

Arguments stage : clear implicits.

(** ** Lemmas on the transitions *)

Section machine_lemmas.
Context `{Scalar A, !ArgSort A} {src : MeshSource A}.
Implicit Types (w : world A) (c : stage A * world A) (i o : string).

(** The relation and the function describe the same transitions. *)
Lemma step_next i o c c' : step i o c c' ↔ next i o c = Some c'.
Proof.
  split.
  - destruct 1; unfold next; cbn [fst snd];
      repeat match goal with E : _ = (_, _) |- _ => rewrite E end; done.
  - destruct c as [[] w]; unfold next; cbn [fst snd]; intros [= <-].
    + constructor.
    + destruct (load_obj i w) as [[[]|]] eqn:E; by constructor.
    + destruct (normalize_vertices _ w) as [[]] eqn:E; by constructor.
    + destruct (remove_duplicate_vertices _ _ w) as [[[]|]] eqn:E; by constructor.
    + by constructor.
Qed.

Lemma step_deterministic i o c c1 c2 : step i o c c1 → step i o c c2 → c1 = c2.
Proof. rewrite !step_next. congruence. Qed.

Lemma final_nf i o c : final c.1 ↔ nf (step i o) c.
Proof.
  unfold nf, red. split.
  - intros Hf [c' Hc%step_next]. destruct c as [[] w]; done.
  - intros Hn. destruct (next i o c) as [c'|] eqn:E.
    + destruct Hn. exists c'. by apply step_next.
    + by destruct c as [[] w].
Qed.

Lemma run_rtc i o (fuel : nat) c : rtc (step i o) c (run i o fuel c).
Proof.
  revert c. induction fuel as [|n IH]; intros c; simpl; [done|].
  destruct (next i o c) as [c'|] eqn:E; [|done].
  eapply rtc_l; [by apply step_next | apply IH].
Qed.

(** Five transitions from [Idle] give the outcome of [preprocess_obj]. *)
Lemma run_preprocess_obj `{!ArgSortPerm A} i o w :
  run i o 5 (Idle, w) =
    (stage_of (preprocess_obj i o w).1, (preprocess_obj i o w).2).
Proof.
  rewrite preprocess_obj_run. cbn [run next fst snd].
  destruct (load_obj i w) as [[[verts faces]|e1] w1];
    cbn [next fst snd]; [|done].
  destruct (normalize_vertices _ w1) as [[verts'|e2] w2];
    cbn [next fst snd]; [|done].
  destruct (remove_duplicate_vertices _ _ w2) as [[[uv faces']|e3] w3];
    cbn [next fst snd]; [|done].
  by autorewrite with py.
Qed.

Lemma machine_run_final `{!ArgSortPerm A} i o w :
  rtc (step i o) (Idle, w) (run i o 5 (Idle, w)) ∧
  final (run i o 5 (Idle, w)).1 ∧
  run i o 5 (Idle, w) = (stage_of (preprocess_obj i o w).1, (preprocess_obj i o w).2).
Proof.
  split_and!; [apply run_rtc | | apply run_preprocess_obj].
  rewrite run_preprocess_obj. cbn [fst]. by destruct (preprocess_obj i o w).1.
Qed.

End machine_lemmas.

(** ** Every run ends in the one final configuration *)

Section machine_runs.
Context `{Scalar A, !ArgSort A, !ArgSortPerm A} {src : MeshSource A}.
Implicit Types (w : world A) (c : stage A * world A) (i o : string).

(** A complete run from [Idle] is the run of five transitions. *)
Lemma run_complete i o w c :
  rtc (step i o) (Idle, w) c → final c.1 → c = run i o 5 (Idle, w).
Proof.
  intros Hrun Hfin. destruct (machine_run_final i o w) as (Hrun' & Hfin' & _).
  eapply (rtc_det_nf (step i o)); [apply step_deterministic|done| |done|];
    by apply final_nf.
Qed.

(** The final configuration of a run from [Idle] is the outcome of the
    driver. *)
Lemma run_outcome i o w :
  let c := run i o 5 (Idle, w) in
  outcome c.1 = Some (preprocess_obj i o w).1 ∧ c.2 = (preprocess_obj i o w).2.
Proof.
  cbn zeta. rewrite run_preprocess_obj. cbn [fst snd]. split; [|done].
  by destruct (preprocess_obj i o w).1 as [[]|].
Qed.

(** Each transition lowers the rank. *)
Lemma step_rank i o c c' : step i o c c' → (stage_rank c'.1 < stage_rank c.1)%nat.
Proof. destruct 1; cbn; lia. Qed.

Lemma step_sn i o c : sn (step i o) c.
Proof.
  remember (stage_rank c.1) as n eqn:E. revert c E.
  induction (lt_wf n) as [n _ IH]. intros c ->. constructor. intros c' Hs.
  eapply IH; [|done]. by apply step_rank in Hs.
Qed.

(** The rank is enough fuel to reach a final state from anywhere. *)
Lemma run_fuel_final i o (fuel : nat) c :
  (stage_rank c.1 ≤ fuel)%nat → final (run i o fuel c).1.
Proof.
  revert c. induction fuel as [|n IH]; intros c E; simpl.
  { destruct c as [[] w]; cbn in *; done || lia. }
  destruct (next i o c) as [c'|] eqn:En; [|by destruct c as [[] w]].
  apply IH. apply step_next, step_rank in En. lia.
Qed.

End machine_runs.

(** ** Every transition preserves well-formedness *)

Section machine_invariant.
Context `{Scalar A, !ArgSort A, !ArgSortPerm A} {src : MeshSource A}.
Implicit Types (w : world A) (c : stage A * world A) (i o : string).

Lemma step_stage_wf i o c c' : step i o c c' → stage_wf c.1 → stage_wf c'.1.
Proof.
  destruct 1 as [w|w verts faces w' E|?|w verts faces verts' w' E|?
                |w verts faces verts' faces' w' E|?|?|?]; cbn [fst stage_wf]; try done.
  - intros _. apply load_obj_ok_inv in E as (f & mesh & _ & _ & _ & -> & _).
    destruct (mesh_faces mesh); [apply as_int32_range | done].
  - intros Hf. apply normalize_vertices_ok_inv in E as (v & vs & _ & -> & _).
    split; [|done]. intros E%(f_equal length). by rewrite normalized_length in E.
  - intros [Hv _]. apply remove_duplicate_vertices_ok in E as (-> & E & _).
    split; [by apply unique_verts_nonempty | exact (remap_faces_valid _ _ _ E)].
Qed.

(** What one stage does to the world, whatever its result. *)
Lemma load_obj_effect i w r w' :
  load_obj i w = (r, w') → console w `prefix_of` console w' ∧ files w' = files w.
Proof.
  intros E. pose proof (load_obj_console i w). pose proof (load_obj_files i w).
  by rewrite E in *.
Qed.

Lemma normalize_vertices_effect verts w r w' :
  normalize_vertices verts w = (r, w') →
  console w `prefix_of` console w' ∧ files w' = files w.
Proof.
  intros E. pose proof (normalize_vertices_console verts w).
  pose proof (normalize_vertices_files verts w). by rewrite E in *.
Qed.

Lemma remove_duplicate_vertices_effect verts faces w r w' :
  remove_duplicate_vertices verts faces w = (r, w') →
  console w `prefix_of` console w' ∧ files w' = files w.
Proof.
  intros E. pose proof (remove_duplicate_vertices_console verts faces w).
  pose proof (remove_duplicate_vertices_files verts faces w). by rewrite E in *.
Qed.

Lemma save_processed_data_effect verts faces o w r w' :
  save_processed_data verts faces o w = (r, w') →
  console w `prefix_of` console w' ∧ r = Ok tt.
Proof.
  autorewrite with py. intros [= <- <-]. split; [by apply prefix_app_r | done].
Qed.

(** Only the transition to [Done] writes, and no transition erases what
    was printed. *)
Lemma step_world i o c c' :
  step i o c c' →
  console c.2 `prefix_of` console c'.2 ∧
  (c'.1 = Done ∨ files c'.2 = files c.2) ∧ c.1 ≠ Done.
Proof.
  destruct 1 as [w|w ? ? w' E|w ? w' E|w ? ? ? w' E|w ? ? ? w' E|w ? ? ? ? w' E
                |w ? ? ? w' E|w ? ? w' E|w ? ? ? w' E];
    cbn [fst snd]; [by auto|..];
    first [ pose proof (load_obj_effect _ _ _ _ E) as [??]
          | pose proof (normalize_vertices_effect _ _ _ _ E) as [??]
          | pose proof (remove_duplicate_vertices_effect _ _ _ _ _ E) as [??]
          | pose proof (save_processed_data_effect _ _ _ _ _ _ E) as [??] ];
    try discriminate; auto.
Qed.

Lemma step_machine_inv i o w0 c c' :
  step i o c c' → machine_inv o w0 c → machine_inv o w0 c'.
Proof.
  intros Hs (Hwf & Hc & Hf).
  pose proof (step_stage_wf _ _ _ _ Hs Hwf) as Hwf'.
  destruct (step_world _ _ _ _ Hs) as (Hc' & Hf' & Hd).
  split_and!; [done | by etrans |].
  destruct Hs as [| | | | | | |w verts faces w' E|]; cbn [fst snd] in *;
    try (destruct Hf' as [|Hf']; [done | congruence]).
  autorewrite with py in E. injection E as <-. destruct Hwf as [Hv Hm].
  exists verts, faces. cbn [files]. by rewrite Hf.
Qed.

End machine_invariant.

Section machine_claims.
Context `{Scalar A, !ArgSort A, !ArgSortPerm A} {src : MeshSource A}.
Implicit Types (w : world A) (c : stage A * world A) (i o : string).

(** C3: the driver refines the stage machine: every complete run of the
    machine from [Idle] ends in [Done] exactly when [preprocess_obj]
    returns and in [Failed e] exactly when it raises [e], with the same
    final world; no run ends anywhere else. *)
Theorem machine_refinement i o w c :
  rtc (step i o) (Idle, w) c → final c.1 →
  outcome c.1 = Some (preprocess_obj i o w).1 ∧ c.2 = (preprocess_obj i o w).2.
Proof. intros Hrun Hfin. rewrite (run_complete i o w c) by done. apply run_outcome. Qed.

(** C18: every transition preserves the well-formedness of the
    configuration, so every configuration that a run from [Idle] reaches
    is well formed: the normaliser receives [int32] faces, the
    deduplicator at least one vertex, the serialiser a mesh whose face
    indices are valid; the file store is the initial one until [Done],
    where it differs by the archive at the output path; nothing printed is
    lost. *)
Theorem machine_well_formed i o w c :
  rtc (step i o) (Idle, w) c → machine_inv o w c.
Proof.
  revert c. apply rtc_ind_r; [by split_and!|].
  intros c c' _ Hs IH. by eapply step_machine_inv.
Qed.

(** C19: with a good input the machine inevitably arrives at [Done].
    When the input file exists, the parser returns an object with at
    least one vertex and every face index, cast to [int32], is in
    [[-n, n)] for [n] vertices, every configuration that a run from
    [Idle] has reached continues to [Done] (no stage raises, none is
    stuck), and there the archive of the deduplicated normalised vertices
    and of the faces, cast and renumbered through the inverse indices,
    has been written and the saved line is the last line printed. *)
Theorem machine_live i o w f mesh v vs :
  files w !! i = Some f → trimesh_parse i f = Ok mesh →
  mesh_vertices mesh = Some (v :: vs) →
  faces_in_range (S (length vs)) (as_int32 <$> mesh_faces mesh) →
  ∃ w' fs,
    remap_faces (inverse_indices (normalized v vs)) (as_int32 <$> mesh_faces mesh) = Ok fs ∧
    (∀ c, rtc (step i o) (Idle, w) c → rtc (step i o) c (Done, w')) ∧
    files w' = <[npz_path o :=
                  FileNpz (Archive {[ "vertices" := NpyFloat (unique_verts (normalized v vs));
                                      "faces" := npy_of_faces fs ]} false)]> (files w) ∧
    mesh_valid (unique_verts (normalized v vs)) fs ∧
    last (console w') = Some (MsgSaved o).
Proof.
  intros Ef Ep Ev Hr.
  destruct (preprocess_obj_returns i o w f mesh v vs Ef Ep Ev Hr) as (fs & Hfs & E & _ & Hv & _).
  pose proof (run_preprocess_obj i o w) as Er. rewrite E in Er. cbn [fst snd stage_of] in Er.
  match type of E with _ = (_, ?w1) => exists w1, fs end. split_and!; [done| |done|done|].
  - intros c Hc. pose proof (run_rtc i o (stage_rank c.1) c) as Hrun.
    pose proof (run_fuel_final i o _ c (reflexivity _)) as Hfin.
    rewrite (run_complete i o w (run i o (stage_rank c.1) c)), Er in Hrun;
      [done | by etrans | done].
  - cbn [console]. by rewrite last_app.
Qed.

End machine_claims.

(** ** The theorems at concrete inputs *)

Lemma machine_well_formed_witness :
  machine_inv "out" toy_world (run (src:=toy_parse) "tetra.obj" "out" 5 (Idle, toy_world)).
Proof. apply (machine_well_formed (src:=toy_parse) "tetra.obj" "out"), run_rtc. Defined.

Lemma machine_live_witness :
  let v := V3 0%Qc 0%Qc 0%Qc in
  let vs := [V3 (Qc_of_Z 4) 0%Qc 0%Qc; V3 0%Qc (Qc_of_Z 2) 0%Qc; V3 0%Qc 0%Qc (Qc_of_Z 1)] in
  ∃ w' fs,
    remap_faces (inverse_indices (normalized v vs))
      (as_int32 <$> Some [V3 0 1 2; V3 0 1 3; V3 0 2 3; V3 1 2 (2 ^ 32 + 3)]%Z) = Ok fs ∧
    (∀ c, rtc (step (src:=toy_parse) "tetra.obj" "out") (Idle, toy_world) c →
          rtc (step (src:=toy_parse) "tetra.obj" "out") c (Done, w')) ∧
    files w' = <[npz_path "out" :=
                  FileNpz (Archive {[ "vertices" := NpyFloat (unique_verts (normalized v vs));
                                      "faces" := npy_of_faces fs ]} false)]> (files toy_world) ∧
    mesh_valid (unique_verts (normalized v vs)) fs ∧
    last (console w') = Some (MsgSaved "out").
Proof.
  apply (machine_live (src:=toy_parse) "tetra.obj" "out" toy_world (FileBytes "tetra")
           (MeshObject (Some tetra_verts) (Some tetra_faces)));
    [reflexivity.. |].
  repeat constructor; by_compute.
Defined.

Lemma machine_refinement_witness :
  outcome (run (src:=toy_parse) "scene.glb" "out" 5 (Idle, toy_world)).1 =
    Some (preprocess_obj (src:=toy_parse) "scene.glb" "out" toy_world).1 ∧
  (run (src:=toy_parse) "scene.glb" "out" 5 (Idle, toy_world)).2 =
    (preprocess_obj (src:=toy_parse) "scene.glb" "out" toy_world).2.
Proof.
  apply (machine_refinement (src:=toy_parse) "scene.glb" "out" toy_world);
    [apply run_rtc | by vm_compute].
Defined.
