(* ===== verification/Cli.v ===== *)
(** * The command line: [argparse] as the [__main__] block uses it
    (lines 62-77)

    The parser of lines 65-69 has three actions: the [-h/--help] that
    [ArgumentParser] adds, and the two stores [--input] and [--output],
    each with a default.  [parse_args] is the call of line 71 on
    [sys.argv[1:]]: the argument strings are classified ([classify]), then
    consumed from left to right ([consume]).  It returns the namespace,
    or leaves the program: with status 0 after printing the help, with
    status 2 after a usage error.  The help goes to standard output, the
    console of the world; the message of a usage error goes to standard
    error, which the world does not hold: it is the [usage_error] that
    the status carries.

    The model follows [argparse] where its versions since Python 3.8
    agree.  Where they do not (the separator [--], a value [--] given
    with [=], clusters of one-letter options, strings that may look like
    negative numbers, an ambiguous abbreviation met after the parser has
    already decided) [parse_args] answers [NotModelled], and the theorems
    say nothing.

    [program] is the whole [__main__] block: parse, then [main].  The
    theorems: printing a list of settings and parsing it gives the
    settings back, the last one of each kind winning; every abbreviation
    of an option is the option; the exit status is 0 or 2, it is 2 exactly
    for a usage error, which leaves the world untouched, and it is 0 also
    when the pipeline failed. *)

From S2P Require Import Prelude Text Scalar Rational NdArray World Loader Normalizer Dedup Serializer Pipeline.
From Stdlib Require Import ZArith Ascii String QArith Qcanon.
From stdpp Require Import base tactics option list numbers strings gmap.

Local Open Scope py_scope.
Local Open Scope Z_scope.

(** ** The parser *)

Inductive action : Type := ActHelp | ActInput | ActOutput.

#[export] Instance action_eq_dec : EqDecision action.
Proof. solve_decision. Defined.

(** The option strings the parser knows, in the order they were added:
    [-h] and [--help] by the constructor, then lines 66 and 68. *)
Definition option_strings : list (string * action) :=
  [("-h", ActHelp); ("--help", ActHelp); ("--input", ActInput); ("--output", ActOutput)].

(** A store action sets its attribute of the namespace. *)
Definition store (a : action) (v : string) (ns : args) : args :=
  match a with
  | ActInput => Args v (args_output ns)
  | ActOutput => Args (args_input ns) v
  | ActHelp => ns
  end.

(** ** Strings *)

(** [s.split('=', 1)]: the part before the first [=], and the part after
    it when there is one. *)
Definition split_eq (s : string) : string * option string :=
  str_split1 (λ c, Ascii.eqb c "=") s.

(** [c in s]. *)
Fixpoint str_mem (c : ascii) (s : string) : bool :=
  match s with
  | EmptyString => false
  | String c' rest => Ascii.eqb c c' || str_mem c rest
  end.

(** An ASCII letter. *)
Definition is_letter (c : ascii) : bool :=
  let n := nat_of_ascii c in
  ((65 <=? n) && (n <=? 90) || (97 <=? n) && (n <=? 122))%nat.

(** ** Classification of one argument string *)

(** What [_parse_optional] makes of an argument string: an argument (the
    [A] of the pattern), an option of the parser with the value given
    after [=] if any, a string that looks like an option and is none, or
    an abbreviation that fits several options. *)
Inductive token : Type :=
| TArg (s : string)
| TOpt (a : action) (explicit : option string)
| TUnknown (s : string)
| TAmbiguous (s : string) (matches : list string)
| TNotModelled.

#[export] Instance token_eq_dec : EqDecision token.
Proof. solve_decision. Defined.

(** An option-like string that is no option: an argument if it contains
    a space, an unknown option otherwise. *)
Definition no_option (s : string) : token :=
  if str_mem " " s then TArg s else TUnknown s.

(** An option with the value that came with it; a store given [--]
    after [=] is outside the model. *)
Definition with_explicit (a : action) (explicit : option string) : token :=
  if decide (a ≠ ActHelp ∧ explicit = Some "--") then TNotModelled else TOpt a explicit.

Definition classify (s : string) : token :=
  match s with
  | EmptyString => TArg s
  | String c1 EmptyString => TArg s
  | String c1 (String c2 _) =>
      if negb (Ascii.eqb c1 "-") then TArg s
      else if decide (s = "--") then TNotModelled
      else
        match list_find (λ oa, oa.1 = s) option_strings with
        | Some (_, (_, a)) => TOpt a None
        | None =>
            if Ascii.eqb c2 "-" then
              let (p, explicit) := split_eq s in
              match list_find (λ oa, oa.1 = p) option_strings with
              | Some (_, (_, a)) => with_explicit a explicit
              | None =>
                  match filter (λ oa, String.prefix p oa.1 = true) option_strings with
                  | [] => no_option s
                  | [(_, a)] => with_explicit a explicit
                  | ms => TAmbiguous s ms.*1
                  end
              end
            else if is_letter c2 && negb (Ascii.eqb c2 "h") then no_option s
            else TNotModelled
        end
  end.

(** ** Consumption of the classified strings *)

Inductive usage_error : Type :=
| AmbiguousOption (s : string) (matches : list string)
| ExpectedOneArgument (a : action)
| IgnoredExplicitArgument (a : action) (explicit : string)
| UnrecognizedArguments (extras : list string).

(** The ways [parse_args] ends. *)
Inductive parsed : Type :=
| Parsed (ns : args)
| HelpExit
| UsageExit (e : usage_error)
| NotModelled.

#[export] Instance usage_error_eq_dec : EqDecision usage_error.
Proof. solve_decision. Defined.

(** The loop of [_parse_known_args]: an option takes its value from
    after [=] or from the next string, which must be an argument;
    [-h] leaves at once; what no option takes is collected in [extras]
    and reported at the end. *)
Fixpoint consume (ts : list token) (ns : args) (extras : list string) : parsed :=
  match ts with
  | [] =>
      match extras with
      | [] => Parsed ns
      | _ => UsageExit (UnrecognizedArguments extras)
      end
  | TArg s :: ts => consume ts ns (extras ++ [s])
  | TUnknown s :: ts => consume ts ns (extras ++ [s])
  | TOpt ActHelp None :: _ => HelpExit
  | TOpt ActHelp (Some e) :: _ => UsageExit (IgnoredExplicitArgument ActHelp e)
  | TOpt a (Some e) :: ts => consume ts (store a e ns) extras
  | TOpt a None :: TArg s :: ts => consume ts (store a s ns) extras
  | TOpt _ None :: (TAmbiguous _ _ | TNotModelled) :: _ => NotModelled
  | TOpt a None :: _ => UsageExit (ExpectedOneArgument a)
  | TAmbiguous s ms :: _ => UsageExit (AmbiguousOption s ms)
  | TNotModelled :: _ => NotModelled
  end.

Definition is_ambiguous (t : token) : bool :=
  match t with TAmbiguous _ _ => true | _ => false end.

Definition is_not_modelled (t : token) : bool :=
  match t with TNotModelled => true | _ => false end.

(** [parser.parse_args()] on [sys.argv[1:]].  The namespace starts from
    the defaults.  Versions of [argparse] differ on when an ambiguous
    abbreviation is reported, so the result is kept only if the loop ends
    on the first one. *)
Definition parse_args (argv : list string) : parsed :=
  let ts := classify <$> argv in
  if existsb is_not_modelled ts then NotModelled
  else
    match consume ts default_args [] with
    | UsageExit (AmbiguousOption s ms) => UsageExit (AmbiguousOption s ms)
    | r => if existsb is_ambiguous ts then NotModelled else r
    end.

(** ** The program *)

(** How the process ends: normally, by the [SystemExit(2)] of a usage
    error, or by an exception that nothing caught. *)
Inductive status : Type :=
| ExitOk
| ExitUsage (e : usage_error)
| ExitUncaught (e : exn).

#[export] Instance status_eq_dec : EqDecision status.
Proof. solve_decision. Defined.

Definition exit_code (s : status) : Z :=
  match s with ExitOk => 0 | ExitUsage _ => 2 | ExitUncaught _ => 1 end.

Section program.
Context `{Scalar A, !ArgSort A} {src : MeshSource A}.

(** The [__main__] block on the argument strings [argv]: the status of
    the process and the world it leaves, when the model covers [argv]. *)
Definition program (argv : list string) (w : world A) : option (status * world A) :=
  match parse_args argv with
  | Parsed ns =>
      Some match main ns w with
           | (Ok _, w') => (ExitOk, w')
           | (Raise e, w') => (ExitUncaught e, w')
           end
  | HelpExit => Some (ExitOk, World (files w) (console w ++ [MsgHelp]))
  | UsageExit e => Some (ExitUsage e, w)
  | NotModelled => None
  end.

End program.

(** ** Printing a command line *)

(** One setting of the command line. *)
Inductive setting : Type :=
| SetInput (v : string)
| SetOutput (v : string).

Definition setting_action (s : setting) : action :=
  match s with SetInput _ => ActInput | SetOutput _ => ActOutput end.

Definition setting_value (s : setting) : string :=
  match s with SetInput v | SetOutput v => v end.

Definition option_name (a : action) : string :=
  match a with ActHelp => "--help" | ActInput => "--input" | ActOutput => "--output" end.

(** The namespace after a setting. *)
Definition apply_setting (ns : args) (s : setting) : args :=
  match s with
  | SetInput v => Args v (args_output ns)
  | SetOutput v => Args (args_input ns) v
  end.

(** A setting as one argument string, [--input=v]. *)
Definition print_setting (s : setting) : string :=
  option_name (setting_action s) +:+ "=" +:+ setting_value s.

(** A setting as two argument strings, [--input v]. *)
Definition print_setting_pair (s : setting) : list string :=
  [option_name (setting_action s); setting_value s].

(** A value that can follow its option as a string of its own: it does
    not start with [-]. *)
Definition plain (v : string) : Prop :=
  match v with String "-" _ => False | _ => True end.


(** ** Lemmas *)

(** The prefixes of a string, the shortest first. *)
Fixpoint prefixes (s : string) : list string :=
  EmptyString ::
  match s with
  | EmptyString => []
  | String c rest => String c <$> prefixes rest
  end.

Lemma prefix_prefixes (p s : string) : String.prefix p s = true → p ∈ prefixes s.
Proof.
  revert s. induction p as [|c p IH]; intros [|c' s]; simpl; try done; try by left.
  destruct (ascii_dec c c') as [<-|]; [|done]. intros Hp. right.
  apply list_elem_of_fmap. eauto.
Qed.

Lemma classify_plain (v : string) : plain v → classify v = TArg v.
Proof.
  destruct v as [|c1 [|c2 v]]; try done. simpl. intros Hp.
  destruct (Ascii.eqb_spec c1 "-") as [->|]; done.
Qed.

Lemma classify_option_name (a : action) : classify (option_name a) = TOpt a None.
Proof. by destruct a. Qed.

Lemma with_explicit_store (a : action) (v : string) :
  a ≠ ActHelp → v ≠ "--" → with_explicit a (Some v) = TOpt a (Some v).
Proof. intros ??. unfold with_explicit. rewrite decide_False; naive_solver. Qed.

Lemma classify_print_setting (s : setting) :
  setting_value s ≠ "--" →
  classify (print_setting s) = TOpt (setting_action s) (Some (setting_value s)).
Proof.
  intros Hv. etrans; [|by apply with_explicit_store; [destruct s|]].
  by destruct s.
Qed.

Lemma existsb_Forall_false {B} (f : B → bool) (l : list B) :
  Forall (λ x, f x = false) l → existsb f l = false.
Proof. induction 1 as [|x l Hx _ IH]; simpl; [done | by rewrite Hx, IH]. Qed.

(** A string whose classification every version of [argparse] agrees
    on. *)
Definition settled (s : string) : Prop :=
  is_not_modelled (classify s) = false ∧ is_ambiguous (classify s) = false.

(** On settled strings [parse_args] is the loop from the defaults. *)
Lemma parse_args_settled (argv : list string) :
  Forall settled argv → parse_args argv = consume (classify <$> argv) default_args [].
Proof.
  intros Hs. unfold parse_args.
  rewrite !existsb_Forall_false;
    [by destruct (consume _ _ _) as [| |[]|] | | ];
    apply Forall_fmap; (eapply Forall_impl; [done|]); by intros s [??].
Qed.

Lemma settled_print_setting (s : setting) : setting_value s ≠ "--" → settled (print_setting s).
Proof. intros Hv. unfold settled. by rewrite classify_print_setting. Qed.

Lemma settled_plain (v : string) : plain v → settled v.
Proof. intros Hv. unfold settled. by rewrite classify_plain. Qed.

Lemma settled_option_name (a : action) : settled (option_name a).
Proof. by destruct a. Qed.

Lemma consume_print_setting (ss : list setting) (ns : args) :
  Forall (λ s, setting_value s ≠ "--") ss →
  consume (classify <$> (print_setting <$> ss)) ns [] = Parsed (foldl apply_setting ns ss).
Proof.
  intros Hs. revert ns. induction Hs as [|s ss Hv _ IH]; intros ns; [done|].
  cbn [fmap list_fmap foldl]. rewrite classify_print_setting by done.
  rewrite <-IH. by destruct s.
Qed.

Lemma consume_print_setting_pair (ss : list setting) (ns : args) :
  Forall (λ s, plain (setting_value s)) ss →
  consume (classify <$> (ss ≫= print_setting_pair)) ns [] =
    Parsed (foldl apply_setting ns ss).
Proof.
  intros Hs. revert ns. induction Hs as [|s ss Hv _ IH]; intros ns; [done|].
  cbn [mbind list_bind print_setting_pair app fmap list_fmap foldl].
  rewrite classify_option_name, classify_plain by done.
  rewrite <-IH. by destruct s.
Qed.

(** The command line of the documentation. *)
Lemma parse_args_input_output (i o : string) :
  plain i → plain o → parse_args ["--input"; i; "--output"; o] = Parsed (Args i o).
Proof.
  intros Hi Ho. rewrite parse_args_settled.
  - by rewrite (consume_print_setting_pair [SetInput i; SetOutput o]) by by repeat constructor.
  - repeat apply Forall_cons_2; try done; by apply settled_plain.
Qed.

(** ** Theorems *)

(** C13: printing and parsing.  A list of settings printed as
    [--input=v] / [--output=v] strings parses to the defaults updated by
    the settings in order, so that the last setting of each kind wins;
    this holds for every value except [--].  Printed as pairs
    [--input v], it parses to the same namespace when no value starts
    with [-]. *)
Theorem parse_args_roundtrip (ss : list setting) :
  (Forall (λ s, setting_value s ≠ "--") ss →
   parse_args (print_setting <$> ss) = Parsed (foldl apply_setting default_args ss)) ∧
  (Forall (λ s, plain (setting_value s)) ss →
   parse_args (ss ≫= print_setting_pair) = Parsed (foldl apply_setting default_args ss)).
Proof.
  split; intros Hs.
  - rewrite parse_args_settled, consume_print_setting; [done..|].
    apply Forall_fmap. eapply Forall_impl; [done|]. apply settled_print_setting.
  - rewrite parse_args_settled, consume_print_setting_pair; [done..|].
    apply Forall_bind. eapply Forall_impl; [done|]. intros s Hv.
    repeat apply Forall_cons_2; [apply settled_option_name | by apply settled_plain | done].
Qed.

(** C37: abbreviations.  Every prefix of [--help], [--input] or
    [--output] that is longer than [--] stands for that option, alone and
    with a value after [=]. *)
Theorem classify_abbreviation (a : action) (p v : string) :
  String.prefix p (option_name a) = true → (2 < String.length p)%nat →
  classify p = TOpt a None ∧ classify (p +:+ "=" +:+ v) = with_explicit a (Some v).
Proof.
  intros Hp%prefix_prefixes Hl.
  destruct a; cbn in Hp; set_unfold; destruct_or!; subst; cbn in Hl; (lia || done).
Qed.

(** The command lines of the documentation and some that are refused. *)
Example parse_args_samples :
  parse_args [] = Parsed default_args ∧
  parse_args ["--input"; "branch.obj"; "--output"; "branch.npz"]
    = Parsed (Args "branch.obj" "branch.npz") ∧
  parse_args ["--out=a.npz"; "--inp"; "b.obj"; "--output"; "c"] = Parsed (Args "b.obj" "c") ∧
  parse_args ["--input"; "-"; "--output="] = Parsed (Args "-" "") ∧
  parse_args ["stray"; "-h"; "--input"] = HelpExit ∧
  parse_args ["--input"] = UsageExit (ExpectedOneArgument ActInput) ∧
  parse_args ["--input"; "--output"; "x"] = UsageExit (ExpectedOneArgument ActInput) ∧
  parse_args ["--help=x"] = UsageExit (IgnoredExplicitArgument ActHelp "x") ∧
  parse_args ["model.obj"; "-v"] = UsageExit (UnrecognizedArguments ["model.obj"; "-v"]) ∧
  parse_args ["--=x"]
    = UsageExit (AmbiguousOption "--=x" ["--help"; "--input"; "--output"]) ∧
  parse_args ["--input"; "--"; "x"] = NotModelled ∧
  parse_args ["-h"; "--=x"] = NotModelled.
Proof. by split_and!. Qed.

Section program_claims.
Context `{Scalar A, !ArgSort A, !ArgSortPerm A} {src : MeshSource A}.
Implicit Types (w : world A) (argv : list string) (st : status).

(** The program by cases on what the parser and the pipeline do. *)
Lemma program_run argv w :
  program argv w =
    match parse_args argv with
    | Parsed ns =>
        Some (ExitOk,
              match preprocess_obj (args_input ns) (args_output ns) w with
              | (Ok _, w1) => World (files w1) (console w1 ++ [MsgCompleted])
              | (Raise e, w1) => World (files w) (console w1 ++ [MsgError e])
              end)
    | HelpExit => Some (ExitOk, World (files w) (console w ++ [MsgHelp]))
    | UsageExit e => Some (ExitUsage e, w)
    | NotModelled => None
    end.
Proof.
  unfold program. destruct (parse_args argv) as [ns| | |]; try done.
  destruct (main_total ns w) as (w' & -> & [(w1 & -> & ->)|(e & w1 & -> & ->)]); done.
Qed.

(** C12: the exit status.  Whenever the program ends, its status is 0 or
    2, never that of an uncaught exception.  It is 2 exactly when the
    parser refuses the command line, and then nothing was printed on
    standard output and no file was touched.  It is 0 after the help, and
    0 whatever the pipeline did: after a failure of the pipeline the
    error line is the only trace, the file store being as before. *)
Theorem program_exit_code argv w st w' :
  program argv w = Some (st, w') →
  (exit_code st = 0 ∨ exit_code st = 2) ∧
  (exit_code st = 2 ↔ ∃ e, parse_args argv = UsageExit e) ∧
  (exit_code st = 2 → w' = w) ∧
  (∀ ns e w1, parse_args argv = Parsed ns →
     preprocess_obj (args_input ns) (args_output ns) w = (Raise e, w1) →
     exit_code st = 0 ∧ w' = World (files w) (console w1 ++ [MsgError e])).
Proof.
  rewrite program_run.
  destruct (parse_args argv) as [ns| |e0|]; intros [= <- <-]; cbn [exit_code];
    (split_and!; [auto | split; [try done | intros [? [=]]] | try done |]);
    try (by intros ??? [=]); try by eexists.
  intros ? e w1 [= <-] ->. done.
Qed.

End program_claims.

(** ** The theorems at concrete inputs *)

Lemma parse_args_roundtrip_witness :
  parse_args ["--output=--x"; "--input=a b.obj"; "--output=out"] = Parsed (Args "a b.obj" "out").
Proof.
  apply (parse_args_roundtrip [SetOutput "--x"; SetInput "a b.obj"; SetOutput "out"]).
  by repeat constructor.
Defined.

Lemma classify_abbreviation_witness :
  classify "--out" = TOpt ActOutput None ∧
  classify "--out=x" = with_explicit ActOutput (Some "x").
Proof. apply (classify_abbreviation ActOutput "--out" "x"); [reflexivity | simpl; lia]. Defined.

(** A run that stops in the loader still ends with status 0. *)
Lemma program_exit_code_witness :
  (exit_code ExitOk = 0 ∨ exit_code ExitOk = 2) ∧
  (exit_code ExitOk = 2 ↔ ∃ e, parse_args ["--input"; "scene.glb"] = UsageExit e) ∧
  (exit_code ExitOk = 2 →
   World (files toy_world)
     [MsgLoading "scene.glb"; MsgError (ValueError "Loaded object has no vertices")]
     = toy_world) ∧
  (∀ ns e w1, parse_args ["--input"; "scene.glb"] = Parsed ns →
     preprocess_obj (src:=toy_parse) (args_input ns) (args_output ns) toy_world = (Raise e, w1) →
     exit_code ExitOk = 0 ∧
     World (files toy_world)
       [MsgLoading "scene.glb"; MsgError (ValueError "Loaded object has no vertices")]
       = World (files toy_world) (console w1 ++ [MsgError e])).
Proof.
  apply (program_exit_code (src:=toy_parse) ["--input"; "scene.glb"] toy_world).
  vm_compute. reflexivity.
Defined.
