(* ===== verification/Scenarios.v ===== *)
(** * End-to-end scenarios

    The scenarios of the specification (section 8), in exact arithmetic:
    the cube with corners [(±1, ±1, ±1)], moved and scaled arbitrarily,
    goes through [normalize_vertices] and the grouping of
    [remove_duplicate_vertices]; the two vertices [(1e-7, 0, 0)] and
    [(2e-7, 0, 0)] go through the whole program.

    From the command line to the archive, for every element type: the
    program started with [--input] and [--output] on a file that holds a
    printed mesh, read by the reader of [ObjReader], ends with status 0
    and has written a valid mesh. *)

From S2P Require Import Prelude Text Scalar Rational NdArray World Console Loader ObjReader Normalizer Dedup Serializer Pipeline Cli.
From Stdlib Require Import ZArith QArith Qcanon.
From stdpp Require Import base tactics option list numbers strings gmap.

Local Open Scope Qc_scope.

(** ** Definitions *)

(** The corners [(±1/2, ±1/2, ±1/2)], in the order of the corners of the
    cube, which is the lexicographic order. *)
Definition half_cube : list (vec3 Qc) :=
  v3_map (λ x, x / Qz 2) <$> cube_head :: cube_tail.

(** A file with the two near-duplicate vertices of the specification, a
    third vertex, and one triangle on them. *)
Definition near_parse : MeshSource Qc := λ path f,
  match f with
  | FileBytes "near" =>
      Ok (MeshObject
            (Some [V3 (Q2Qc (1 # 10000000)) 0 0; V3 (Q2Qc (2 # 10000000)) 0 0; V3 0 0 1])
            (Some [V3 0 1 2]%Z))
  | _ => Raise (LibraryError "cannot load file")
  end.

Definition near_world : world Qc := World {[ "near.obj" := FileBytes "near" ]} [].

(** ** Theorems *)

Section scenarios.
Context `{!ArgSort Qc, !ArgSortPerm Qc, !ArgSortSorted Qc}.

(** C26: the cube scenario.  However the cube with corners (±1, ±1, ±1)
    is moved and scaled (every corner [u] replaced by [(u - c0) / s0] with
    [s0 > 0]), [normalize_vertices] returns the eight points
    (±1/2, ±1/2, ±1/2) in the order of the input, and deduplication keeps
    exactly these eight vertices and maps every index to itself, whatever
    the sort. *)
Theorem cube_scenario (c0 : vec3 Qc) (s0 : Qc) (w : world Qc) :
  0 < s0 →
  normalize_vertices (Some (affine c0 s0 <$> cube_head :: cube_tail)) w =
    (Ok half_cube, World (files w) (console w ++ [MsgNormalized])) ∧
  unique_verts half_cube = half_cube ∧
  inverse_indices half_cube = [0; 1; 2; 3; 4; 5; 6; 7]%Z.
Proof.
  intros H0. split.
  - cbn [fmap list_fmap]. rewrite normalize_vertices_run. do 2 f_equal.
    rewrite normalized_invariant; [by_compute | done | by_compute].
  - unfold unique_verts, inverse_indices.
    rewrite (np_unique_sort_independent _ merge_argsort). split; by_compute.
Qed.

End scenarios.

(** The near-duplicate scenario: the vertices (1e-7, 0, 0) and
    (2e-7, 0, 0) collapse into one output vertex, and the triangle that
    used both now uses the surviving index twice. *)
Example near_duplicate_scenario :
  let r := main (src:=near_parse) (Args "near.obj" "out.npz") near_world in
  r.1 = Ok tt ∧
  console r.2 = [MsgLoading "near.obj"; MsgLoaded 3 1; MsgNormalized; MsgRemoved 1;
                 MsgSaved "out.npz"; MsgCompleted] ∧
  ∃ a uv, files r.2 !! "out.npz" = Some (FileNpz a) ∧
    arc_entries a !! "vertices" = Some (NpyFloat uv) ∧
    v3_map this <$> uv = [V3 0 0 (-1 # 2); V3 0 0 (1 # 2)]%Q ∧
    arc_entries a !! "faces" = Some (NpyInt [V3 0 0 1]%Z).
Proof.
  split_and!; [vm_compute; reflexivity..|].
  eexists _, _. split_and!; vm_compute; reflexivity.
Qed.

Lemma cube_scenario_witness :
  normalize_vertices
    (Some (affine (V3 (Qz 3) (Qz (-2)) (Qz 5)) (Qz 4) <$> cube_head :: cube_tail))
    empty_world =
    (Ok half_cube, World (files empty_world) (console empty_world ++ [MsgNormalized])) ∧
  unique_verts half_cube = half_cube ∧
  inverse_indices half_cube = [0; 1; 2; 3; 4; 5; 6; 7]%Z.
Proof.
  apply (cube_scenario (V3 (Qz 3) (Qz (-2)) (Qz 5)) (Qz 4) empty_world). by_compute.
Defined.

(** ** From the text of a file to the archive *)

(** Indices that count from 1 into [n] vertices are read as indices in
    [[0, n)], which the cast to [int32] leaves alone. *)
Lemma obj_faces_in_range (n : nat) (faces : list (vec3 Z)) :
  (Z.of_nat n ≤ 2 ^ 31)%Z →
  Forall (v3_Forall (λ k, 0 < k ≤ Z.of_nat n)%Z) faces →
  Forall (v3_Forall (obj_index_ok n)) faces ∧
  Forall (v3_Forall (index_in_range n)) (as_int32 (v3_map (obj_resolve n) <$> faces)).
Proof.
  intros Hn Hf. split.
  - eapply Forall_impl; [done|]. intros f (?&?&?). unfold obj_index_ok.
    split_and!; simpl in *; lia.
  - rewrite as_int32_id; apply Forall_fmap; (eapply Forall_impl; [done|]);
      intros f (?&?&?); unfold index_in_range, obj_resolve;
      split_and!; simpl; case_decide; lia.
Qed.

Section from_text.
Context `{Scalar A, !ArgSort A, !ArgSortPerm A}.

(** C20: from the command line to the archive.  When the input path
    holds the text of a mesh with at least one vertex whose face indices
    count from 1 into the vertices, the program started with [--input]
    and [--output] ends with status 0; it has written, at the output path
    completed with [.npz], an archive of a non-empty vertex array and of
    faces that index it validly (no faces entry exactly when the text had
    no face line), and the last line printed is the completion line. *)
Theorem obj_file_succeeds (verts : list (vec3 (Z * Z))) (faces : list (vec3 Z))
    (i o : string) (w : world A) :
  verts ≠ [] → (Z.of_nat (length verts) ≤ 2 ^ 31)%Z →
  Forall (v3_Forall (λ k, 0 < k ≤ Z.of_nat (length verts))%Z) faces →
  plain i → plain o →
  files w !! i = Some (FileBytes (print_obj verts faces)) →
  ∃ w' uv fs,
    program (src:=obj_source) ["--input"; i; "--output"; o] w = Some (ExitOk, w') ∧
    files w' = <[npz_path o := FileNpz (Archive {[ "vertices" := NpyFloat uv;
                                                   "faces" := npy_of_faces fs ]} false)]>
                 (files w) ∧
    uv ≠ [] ∧ mesh_valid uv fs ∧ (fs = None ↔ faces = []) ∧
    last (console w') = Some MsgCompleted.
Proof.
  intros Hv Hn Hf Hi Ho Hw. destruct (obj_faces_in_range _ _ Hn Hf) as [Hok Hr].
  destruct verts as [|v vs]; [done|].
  pose proof (obj_parse_print_obj (A:=A) (v :: vs) faces Hok) as Ep.
  destruct (preprocess_obj_returns (src:=obj_source) i o w _ _ _ _ Hw Ep eq_refl)
    as (fs & _ & E & ? & ? & Hfs).
  { match goal with
    | |- faces_in_range (S (length ?l)) _ =>
        replace (length l) with (length vs) by (symmetry; apply length_fmap)
    end. by destruct faces. }
  rewrite program_run, parse_args_input_output by done. cbn [args_input args_output].
  rewrite E. eexists _, _, fs.
  split_and!; [done..| |cbn [console]; by rewrite last_snoc].
  rewrite Hfs. by destruct faces.
Qed.

End from_text.

(** A tetrahedron as text: four vertices, the second given with a
    fraction, and four triangles. *)
Definition tetra_decimals : list (vec3 (Z * Z)) :=
  [V3 (0, 0) (0, 0) (0, 0); V3 (25, -1) (0, 0) (0, 0);
   V3 (0, 0) (1, 0) (0, 0); V3 (0, 0) (0, 0) (1, 0)]%Z.

Definition tetra_triangles : list (vec3 Z) :=
  [V3 1 2 3; V3 1 2 4; V3 1 3 4; V3 2 3 4]%Z.

Definition tetra_text : string := print_obj tetra_decimals tetra_triangles.

Example tetra_text_printed :
  tetra_text =
    unlines ["v 0e0 0e0 0e0"; "v 25e-1 0e0 0e0"; "v 0e0 1e0 0e0"; "v 0e0 0e0 1e0";
             "f 1 2 3"; "f 1 2 4"; "f 1 3 4"; "f 2 3 4"].
Proof. vm_compute. reflexivity. Qed.

Lemma obj_file_succeeds_witness :
  ∃ w' uv fs,
    program (A:=Qc) (src:=obj_source) ["--input"; "t.obj"; "--output"; "t"]
      (World {[ "t.obj" := FileBytes tetra_text ]} []) = Some (ExitOk, w') ∧
    files w' = <[npz_path "t" := FileNpz (Archive {[ "vertices" := NpyFloat uv;
                                                     "faces" := npy_of_faces fs ]} false)]>
                 {[ "t.obj" := FileBytes tetra_text ]} ∧
    uv ≠ [] ∧ mesh_valid uv fs ∧
    (fs = None ↔ tetra_triangles = []) ∧
    last (console w') = Some MsgCompleted.
Proof.
  apply (obj_file_succeeds (A:=Qc) tetra_decimals tetra_triangles "t.obj" "t");
    try done; try (simpl; lia).
  repeat constructor; simpl; lia.
Defined.

(** The lines the two runs print, as text: the run on the tetrahedron,
    and a run whose input file does not exist. *)
Example tetra_transcript :
  (λ r, (r.1, console_lines "" r.2)) <$>
    program (A:=Qc) (src:=obj_source) ["--input"; "t.obj"; "--output"; "t"]
      (World {[ "t.obj" := FileBytes tetra_text ]} []) =
  Some (ExitOk,
        ["📦 Loading OBJ file: t.obj"; "✅ Loaded 4 vertices and 4 faces.";
         "🎯 Vertices normalized (centered at origin, scaled to unit size).";
         "🧹 Removed 0 duplicate vertices."; "💾 Saved processed data to: t";
         "🎉 Preprocessing completed successfully."]).
Proof. vm_compute. reflexivity. Qed.

Example missing_transcript :
  (λ r, (r.1, console_lines "" r.2)) <$>
    program (A:=Qc) (src:=obj_source) ["--output"; "t"]
      (World {[ "t.obj" := FileBytes tetra_text ]} []) =
  Some (ExitOk, ["❌ Error during preprocessing: File not found: airboat.obj"]).
Proof. vm_compute. reflexivity. Qed.

(** The two vertices (1e-7, 0, 0) and (2e-7, 0, 0) alone: rounded to six
    decimals as they stand they would be one vertex, but the program
    normalises first, which puts them at -1/2 and 1/2, and nothing is
    removed. *)
Example near_pair_not_merged :
  let text := unlines ["v 1e-7 0 0"; "v 2e-7 0 0"] in
  np_round (A:=Qc) [V3 (Q2Qc (1 # 10000000)) 0 0; V3 (Q2Qc (2 # 10000000)) 0 0]%Qc 6
    = [V3 0 0 0; V3 0 0 0]%Qc ∧
  (λ r, (r.1, console_lines "" r.2,
         match files r.2 !! "out.npz" with
         | Some (FileNpz a) =>
             match arc_entries a !! "vertices" with
             | Some (NpyFloat uv) => Some (v3_map this <$> uv)
             | _ => None
             end
         | _ => None
         end)) <$>
    program (A:=Qc) (src:=obj_source) ["--input"; "near.obj"; "--output"; "out.npz"]
      (World {[ "near.obj" := FileBytes text ]} []) =
  Some (ExitOk,
        ["📦 Loading OBJ file: near.obj"; "✅ Loaded 2 vertices and 0 faces.";
         "🎯 Vertices normalized (centered at origin, scaled to unit size).";
         "🧹 Removed 0 duplicate vertices."; "💾 Saved processed data to: out.npz";
         "🎉 Preprocessing completed successfully."],
        Some [V3 (-1 # 2) 0 0; V3 (1 # 2) 0 0]%Q).
Proof. split; [by_compute | vm_compute; reflexivity]. Qed.
