(* ===== verification/Float64.v ===== *)
(** * The binary64 instance of the element interface

    The arithmetic the source really computes in: IEEE-754 binary64 with
    round-to-nearest-even, taken from the Standard Library's [SpecFloat]
    (precision 53, maximal exponent 1024).  [f64_min] and [f64_max] are
    [np.minimum] and [np.maximum] (the first operand wins a tie and a NaN
    is propagated), [f64_rint] is [np.rint], [f64_cmp] is the comparison
    NumPy sorts floats with (NaN last, the two zeros equal), [SFeqb] is
    [==].  The instance satisfies the order laws, so every theorem proved
    against [Scalar] or [ScalarOrder] holds of the program in binary64;
    the concrete runs at the end show what rounding, NaN and the two
    zeros do to the theorems of exact arithmetic. *)

From S2P Require Import Prelude Scalar Rational NdArray World Loader ObjReader Normalizer Dedup Serializer Pipeline.
From Stdlib Require Import ZArith QArith SpecFloat.
From stdpp Require Import base tactics option list numbers strings gmap.

Local Open Scope Z_scope.

(** ** Definitions *)

Definition float64 : Type := spec_float.

Definition prec : Z := 53.
Definition emax : Z := 1024.

Definition f64_is_nan (x : float64) : bool :=
  match x with S754_nan => true | _ => false end.

(** [np.minimum] and [np.maximum] on one pair: [(a <= b || isnan(a)) ? a : b]. *)
Definition f64_min (x y : float64) : float64 :=
  if SFleb x y || f64_is_nan x then x else y.

Definition f64_max (x y : float64) : float64 :=
  if SFleb y x || f64_is_nan x then x else y.

(** The float nearest to an integer. *)
Definition f64_of_Z (z : Z) : float64 := binary_normalize prec emax z 0 false.

(** [np.rint]: the nearest integer, ties to even, with the sign of the
    argument; a float with a non-negative exponent is an integer already. *)
Definition f64_rint (x : float64) : float64 :=
  match x with
  | S754_finite s m e =>
      if decide (0 ≤ e) then x
      else match Q_rint (Zpos m # Z.to_pos (2 ^ (- e))) with
           | Zpos n => binary_normalize prec emax (cond_Zopp s (Zpos n)) 0 s
           | _ => S754_zero s
           end
  | _ => x
  end.

(** The comparison NumPy sorts [float64] with: [a < b || (b != b && a == a)]
    decides "before", so NaN comes last and compares equal to NaN. *)
Definition f64_cmp (x y : float64) : comparison :=
  match SFcompare x y with
  | Some c => c
  | None => if f64_is_nan x then (if f64_is_nan y then Eq else Gt) else Lt
  end.

#[export] Instance f64_scalar : Scalar float64 := {
  sadd := SFadd prec emax;
  ssub := SFsub prec emax;
  smul := SFmul prec emax;
  sdiv := SFdiv prec emax;
  smin := f64_min;
  smax := f64_max;
  srint := f64_rint;
  sofZ := f64_of_Z;
  scmp := f64_cmp;
  seqb := SFeqb;
  sisnan := f64_is_nan
}.

(** The float a decimal literal [n / d] denotes: the correctly rounded
    quotient of two integers that are floats exactly. *)
Definition f64_lit (n : Z) (d : positive) : float64 :=
  SFdiv prec emax (f64_of_Z n) (f64_of_Z (Zpos d)).

(** The rational a finite float denotes. *)
Definition f64_to_Q (x : float64) : option Q :=
  match x with
  | S754_zero _ => Some 0%Q
  | S754_finite s m e =>
      Some (if decide (0 ≤ e) then inject_Z (cond_Zopp s (Zpos m) * 2 ^ e)
            else cond_Zopp s (Zpos m) # Z.to_pos (2 ^ (- e)))
  | _ => None
  end.

#[export] Instance float64_eq_dec : EqDecision float64.
Proof. solve_decision. Defined.

(** The rank of a float in the order of [f64_cmp]: the class (negative
    infinity, negative, zero, positive, positive infinity, NaN), then the
    exponent and the mantissa, negated for negative floats. *)
Definition f64_key (x : float64) : Z * (Z * Z) :=
  match x with
  | S754_nan => (3, (0, 0))
  | S754_infinity s => (if s then -2 else 2, (0, 0))
  | S754_zero _ => (0, (0, 0))
  | S754_finite s m e => if s then (-1, (- e, Zneg m)) else (1, (e, Zpos m))
  end.

Definition key_cmp (p q : Z * (Z * Z)) : comparison :=
  lex (p.1 ?= q.1) (lex (p.2.1 ?= q.2.1) (p.2.2 ?= q.2.2)).

(** ** The order laws *)

#[export] Instance Z_compare_CmpOrder : CmpOrder Z.compare.
Proof.
  split.
  - intros x y. apply Z.compare_antisym.
  - intros x y z. rewrite !Z.compare_le_iff. lia.
Qed.

#[export] Instance key_cmp_CmpOrder : CmpOrder key_cmp.
Proof.
  exact (lex_CmpOrder (λ p q, p.1 ?= q.1)
           (λ p q, lex (p.2.1 ?= q.2.1) (p.2.2 ?= q.2.2))
           (CmpOrder0:=proj_CmpOrder fst Z.compare)
           (CmpOrder1:=lex_CmpOrder (λ p q, p.2.1 ?= q.2.1) (λ p q, p.2.2 ?= q.2.2)
              (CmpOrder0:=proj_CmpOrder (λ p, p.2.1) Z.compare)
              (CmpOrder1:=proj_CmpOrder (λ p, p.2.2) Z.compare))).
Qed.

(** [f64_cmp] compares ranks. *)
Lemma f64_cmp_key (x y : float64) : f64_cmp x y = key_cmp (f64_key x) (f64_key y).
Proof.
  destruct x as [[]|[]| |[] m e], y as [[]|[]| |[] m' e']; try reflexivity;
    unfold f64_cmp, key_cmp; cbn [SFcompare f64_key fst snd].
  - rewrite Z.compare_opp, (Z.compare_antisym e e').
    by destruct (e ?= e').
  - by destruct (e ?= e').
Qed.

Lemma SFeqb_compare (x y : float64) : SFeqb x y = true ↔ SFcompare x y = Some Eq.
Proof. unfold SFeqb. destruct (SFcompare x y) as [[]|]; naive_solver. Qed.

Lemma SFcompare_nan (x y : float64) :
  SFcompare x y = None ↔ f64_is_nan x = true ∨ f64_is_nan y = true.
Proof. destruct x as [[]|[]| |[]], y as [[]|[]| |[]]; simpl; naive_solver. Qed.

#[export] Instance f64_scalar_order : ScalarOrder float64.
Proof.
  split; cbn [scmp seqb sisnan f64_scalar].
  - intros x y. rewrite !f64_cmp_key. apply (cmp_antisym key_cmp).
  - intros x y z. rewrite !f64_cmp_key. apply (cmp_trans key_cmp).
  - intros x y E%SFeqb_compare. unfold f64_cmp. by rewrite E.
  - intros x y E Hx. apply SFeqb_compare. unfold f64_cmp in E.
    destruct (SFcompare x y) as [c|]; [by rewrite E|]. by rewrite Hx in E.
  - intros x y E%SFeqb_compare.
    destruct (f64_is_nan x) eqn:Hx, (f64_is_nan y) eqn:Hy; try done;
      assert (SFcompare x y = None) as E' by (apply SFcompare_nan; auto);
      congruence.
Qed.

(** ** NaN propagates *)

Definition is_nan (x : float64) : Prop := f64_is_nan x = true.

Lemma f64_min_nan (x y : float64) : is_nan x ∨ is_nan y → is_nan (f64_min x y).
Proof.
  unfold f64_min. intros [Hx|Hy]; [by rewrite Hx, orb_true_r|].
  destruct y; try done. destruct x as [[]|[]| |[]]; done.
Qed.

Lemma f64_max_nan (x y : float64) : is_nan x ∨ is_nan y → is_nan (f64_max x y).
Proof.
  unfold f64_max. intros [Hx|Hy]; [by rewrite Hx, orb_true_r|].
  destruct y; try done. destruct x as [[]|[]| |[]]; done.
Qed.

Lemma SFsub_nan (x y : float64) : is_nan x ∨ is_nan y → is_nan (SFsub prec emax x y).
Proof. intros [H|H]; destruct x, y; try discriminate H; reflexivity. Qed.

Lemma SFdiv_nan (x y : float64) : is_nan x ∨ is_nan y → is_nan (SFdiv prec emax x y).
Proof. intros [H|H]; destruct x, y; try discriminate H; reflexivity. Qed.

(** A reduction by an operation that propagates NaN returns NaN as soon
    as one operand is NaN. *)
Lemma foldl_nan (f : float64 → float64 → float64) (acc : float64) (l : list float64) :
  (∀ x y, is_nan x ∨ is_nan y → is_nan (f x y)) →
  is_nan acc ∨ Exists is_nan l → is_nan (foldl f acc l).
Proof.
  intros Hf. revert acc. induction l as [|x l IH]; intros acc; simpl.
  - intros [?|H]; [done | by inversion H].
  - intros [?|H]; [apply IH; left; apply Hf; by left|].
    inversion H; subst; apply IH; [left; apply Hf; by right | by right].
Qed.

Lemma np_max_nan (v : vec3 float64) (a : axis) : is_nan (coord a v) → is_nan (np_max v).
Proof.
  unfold np_max. cbn [smax f64_scalar]. destruct a; simpl; intros Hv;
    repeat (apply f64_max_nan; (by right) || left); done.
Qed.

(** The scale is NaN as soon as one coordinate of one vertex is. *)
Lemma bbox_scale_nan (v : vec3 float64) (vs : list (vec3 float64)) (u : vec3 float64) a :
  u ∈ v :: vs → is_nan (coord a u) →
  is_nan (bbox_scale (rows_min v vs) (rows_max v vs)).
Proof.
  intros Hu Hn. apply (np_max_nan _ a). unfold np_sub, rows_max. autorewrite with nd.
  apply SFsub_nan. left.
  apply foldl_nan; [apply f64_max_nan|].
  apply elem_of_cons in Hu as [<-|Hu]; [by left | right].
  apply Exists_exists. exists (coord a u). split; [|done].
  apply list_elem_of_fmap. by exists u.
Qed.

(** ** A mesh without extent *)

(** Neither NaN nor an infinity. *)
Definition f64_is_finite (x : float64) : bool :=
  match x with S754_zero _ | S754_finite _ _ _ => true | _ => false end.

Lemma f64_min_diag (x : float64) : f64_min x x = x.
Proof. unfold f64_min. by case_match. Qed.

Lemma f64_max_diag (x : float64) : f64_max x x = x.
Proof. unfold f64_max. by case_match. Qed.

(** The bounding box of copies of one point is the point. *)
Lemma f64_rows_replicate (p : vec3 float64) (n : nat) :
  rows_min p (replicate n p) = p ∧ rows_max p (replicate n p) = p.
Proof.
  split; [apply rows_min_replicate, f64_min_diag | apply rows_max_replicate, f64_max_diag].
Qed.

(** A finite float minus itself is [+0]. *)
Lemma SFsub_diag (x : float64) :
  f64_is_finite x = true → SFsub prec emax x x = S754_zero false.
Proof.
  destruct x as [[]| | |s m e]; try done. intros _. unfold SFsub.
  by rewrite Z.sub_diag.
Qed.

Lemma bbox_scale_diag (p : vec3 float64) :
  v3_Forall (λ x, f64_is_finite x = true) p → bbox_scale p p = S754_zero false.
Proof.
  intros (Hx & Hy & Hz). unfold bbox_scale, np_sub, np_max, v3_zip.
  cbn [vx vy vz ssub smax f64_scalar]. by rewrite !SFsub_diag, !f64_max_diag.
Qed.

(** Dividing by zero never gives a finite float, and what is not finite
    stays so through rounding to decimals. *)
Lemma SFdiv_zero (y : float64) (s : bool) :
  f64_is_finite (SFdiv prec emax y (S754_zero s)) = false.
Proof. by destruct y. Qed.

Lemma round_scalar_not_finite (d : nat) (y : float64) :
  f64_is_finite y = false → f64_is_finite (round_scalar d y) = false.
Proof.
  unfold round_scalar. cbn [smul sdiv srint sofZ f64_scalar].
  destruct (f64_of_Z _) as [| | |]; by destruct y.
Qed.

(** The output of the normaliser on copies of one finite point. *)
Lemma normalized_degenerate (p : vec3 float64) (n : nat) :
  v3_Forall (λ x, f64_is_finite x = true) p →
  Forall (v3_Forall (λ y, f64_is_finite y = false)) (normalized p (replicate n p)).
Proof.
  intros Hp. destruct (f64_rows_replicate p n) as [Emin Emax].
  rewrite normalized_affine, Emin, Emax.
  rewrite bbox_scale_diag by done. apply Forall_fmap, Forall_true. intros u.
  apply v3_Forall_coord. intros a. cbv beta. rewrite coord_affine.
  apply SFdiv_zero.
Qed.

(** ** Concrete inputs *)

Definition f64_zero : float64 := f64_of_Z 0.
Definition f64_one : float64 := f64_of_Z 1.

(** Three copies of the point (1.5, -2, 0.1): a mesh without extent. *)
Definition point_verts : list (vec3 float64) :=
  replicate 3 (V3 (f64_lit 15 10) (f64_of_Z (-2)) (f64_lit 1 10)).

(** Two vertices, (0.1, 0, 0) and (0.2, 1, 0). *)
Definition skew_verts : list (vec3 float64) :=
  [V3 (f64_lit 1 10) f64_zero f64_zero; V3 (f64_lit 2 10) f64_one f64_zero].

(** Vertices with a NaN coordinate in the second one. *)
Definition nan_verts : list (vec3 float64) :=
  [V3 f64_zero f64_zero f64_zero; V3 f64_one S754_nan f64_zero;
   V3 f64_one f64_one f64_one].

Definition f64_parse : MeshSource float64 := λ path f,
  match f with
  | FileBytes "point" => Ok (MeshObject (Some point_verts) (Some [V3 0 1 2]))
  | FileBytes "skew" => Ok (MeshObject (Some skew_verts) None)
  | _ => Raise (LibraryError "cannot load file")
  end.

Definition f64_world : world float64 :=
  World {[ "point.obj" := FileBytes "point"; "skew.obj" := FileBytes "skew" ]} [].

Definition nan_row : vec3 float64 := V3 S754_nan S754_nan S754_nan.

(** The origin twice, once with a positive and once with a negative zero
    as first coordinate. *)
Definition zero_verts : list (vec3 float64) :=
  [V3 (S754_zero false) f64_zero f64_zero; V3 (S754_zero true) f64_zero f64_zero].

(** ** Theorems *)

(** C38: the comparison NumPy sorts [float64] with is a total preorder on
    all of binary64, NaN and infinities included, and [==] is its
    equivalence away from NaN: the order laws the theorems on sorting and
    grouping rely on hold of the arithmetic of the program. *)
Theorem f64_order_laws (x y z : float64) :
  f64_cmp y x = CompOpp (f64_cmp x y) ∧
  (f64_cmp x y ≠ Gt ∧ f64_cmp y z ≠ Gt → f64_cmp x z ≠ Gt) ∧
  (SFeqb x y = true ↔ f64_cmp x y = Eq ∧ f64_is_nan x = false).
Proof.
  pose proof (scmp_antisym (A:=float64) x y) as H1.
  pose proof (scmp_trans (A:=float64) x y z) as H2.
  pose proof (seqb_scmp (A:=float64) x y) as H3.
  pose proof (scmp_seqb (A:=float64) x y) as H4.
  pose proof (seqb_notnan (A:=float64) x y) as H5.
  cbn [scmp seqb sisnan f64_scalar] in *. naive_solver.
Qed.

Lemma round_scalar_nan (d : nat) (y : float64) :
  f64_is_nan y = true → f64_is_nan (round_scalar d y) = true.
Proof. by destruct y. Qed.

Lemma np_round_nan (d : nat) (out : list (vec3 float64)) :
  Forall (v3_Forall (λ x, f64_is_nan x = true)) out →
  Forall (λ r, row_isnan r = true) (np_round out d).
Proof.
  intros Ho. apply Forall_fmap. eapply Forall_impl; [done|]. intros r (Hx&_&_).
  destruct r as [x y z]. unfold compose, row_isnan, v3_existsb.
  apply orb_true_iff; left; apply orb_true_iff; left. exact (round_scalar_nan d x Hx).
Qed.

(** Vertices whose coordinates are all NaN pass [remove_duplicate_vertices]
    unmerged: it reports 0 removed and returns the rounded rows, reordered. *)
Lemma nan_rows_dedup `{!ArgSort float64, !ArgSortPerm float64}
    (out : list (vec3 float64)) (w : world float64) :
  Forall (v3_Forall (λ x, f64_is_nan x = true)) out →
  unique_verts out ≡ₚ np_round out 6 ∧
  remove_duplicate_vertices out None w =
    (Ok (unique_verts out, None), World (files w) (console w ++ [MsgRemoved 0])).
Proof.
  intros Ho. assert (unique_verts out ≡ₚ np_round out 6) as Hp
    by apply np_unique_all_nan, np_round_nan, Ho.
  split; [done|]. unfold remove_duplicate_vertices. fold (unique_verts out).
  by rewrite (Permutation_length Hp), np_round_length, Z.sub_diag.
Qed.

(** C39: in binary64 one NaN coordinate poisons the whole mesh:
    [normalize_vertices] does not reject it, the scale becomes NaN and
    every coordinate of every returned vertex is NaN.  Since NaN equals
    nothing, [remove_duplicate_vertices] then merges no two of these
    vertices, whatever the sort: it reports 0 removed and returns as many
    rows as the mesh had. *)
Theorem float64_nan_poisons `{!ArgSort float64, !ArgSortPerm float64}
    (v : vec3 float64) vs (w : world float64) u a :
  u ∈ v :: vs → f64_is_nan (coord a u) = true →
  ∃ out, normalize_vertices (Some (v :: vs)) w =
           (Ok out, World (files w) (console w ++ [MsgNormalized])) ∧
    length out = S (length vs) ∧
    Forall (v3_Forall (λ x, f64_is_nan x = true)) out ∧
    length (unique_verts out) = S (length vs) ∧
    ∀ w', remove_duplicate_vertices out None w' =
      (Ok (unique_verts out, None), World (files w') (console w' ++ [MsgRemoved 0])).
Proof.
  intros Hu Hn. exists (normalized v vs).
  assert (Forall (v3_Forall (λ x, f64_is_nan x = true)) (normalized v vs)) as Ho.
  { rewrite normalized_affine. apply Forall_fmap, Forall_forall. intros u' _.
    apply v3_Forall_coord. intros a'. cbv beta. rewrite coord_affine.
    apply SFdiv_nan. right. by eapply bbox_scale_nan. }
  split_and!; [done | apply normalized_length | done | | intros w'; by apply nan_rows_dedup].
  destruct (nan_rows_dedup _ w Ho) as [Hp _].
  by rewrite (Permutation_length Hp), np_round_length, normalized_length.
Qed.

(** C40: in binary64 a mesh without extent is not rejected.  When the
    parser returns copies of one point with finite coordinates and faces
    that index them, the scale is zero, [normalize_vertices] divides by
    it, and the program saves vertices none of whose coordinates is a
    finite number (each is NaN or an infinity) and reports success. *)
Theorem float64_degenerate_mesh `{!ArgSort float64, !ArgSortPerm float64}
    {src : MeshSource float64} (a : args) (w : world float64) f mesh
    (p : vec3 float64) (n : nat) :
  files w !! args_input a = Some f → trimesh_parse (args_input a) f = Ok mesh →
  mesh_vertices mesh = Some (replicate (S n) p) →
  v3_Forall (λ x, f64_is_finite x = true) p →
  faces_in_range (S n) (as_int32 <$> mesh_faces mesh) →
  bbox_scale (rows_min p (replicate n p)) (rows_max p (replicate n p)) = S754_zero false ∧
  ∃ w' arc uv, main a w = (Ok tt, w') ∧ last (console w') = Some MsgCompleted ∧
    files w' !! npz_path (args_output a) = Some (FileNpz arc) ∧
    arc_entries arc !! "vertices" = Some (NpyFloat uv) ∧ uv ≠ [] ∧
    Forall (v3_Forall (λ y, f64_is_finite y = false)) uv.
Proof.
  intros Ef Ep Ev Hp Hr. split.
  { destruct (f64_rows_replicate p n) as [-> ->]. by apply bbox_scale_diag. }
  rewrite <-(length_replicate n p) in Hr.
  destruct (preprocess_obj_returns (args_input a) (args_output a) w f mesh p
              (replicate n p) Ef Ep Ev Hr) as (fs & _ & E & Hne & _ & _).
  rewrite (main_ok _ _ _ E). eexists _, _, _.
  split_and!; [done | cbn [console]; by rewrite last_snoc
              | cbn [files]; by rewrite lookup_insert_eq | done..|].
  apply Forall_forall. intros u Hu%np_unique_elem_of.
  apply list_elem_of_fmap in Hu as (u' & -> & Hu').
  pose proof (normalized_degenerate p n Hp) as Hd. rewrite Forall_forall in Hd.
  apply v3_Forall_coord. intros c. autorewrite with nd.
  apply round_scalar_not_finite. specialize (Hd u' Hu'). rewrite v3_Forall_coord in Hd.
  apply Hd.
Qed.

(** The run on three copies of the point (1.5, -2, 0.1): the three
    saved vertices are NaN, no duplicate is removed (NaN differs from
    NaN) although the three input vertices are the same, and the face is
    renumbered in the order the sort left the three rows in. *)
Example degenerate_run :
  let r := main (src:=f64_parse) (Args "point.obj" "out.npz") f64_world in
  r.1 = Ok tt ∧
  console r.2 = [MsgLoading "point.obj"; MsgLoaded 3 1; MsgNormalized; MsgRemoved 0;
                 MsgSaved "out.npz"; MsgCompleted] ∧
  ∃ a, files r.2 !! "out.npz" = Some (FileNpz a) ∧
    arc_entries a !! "vertices" = Some (NpyFloat (replicate 3 nan_row)) ∧
    arc_entries a !! "faces" = Some (NpyInt [V3 1 2 0]).
Proof.
  split_and!; [vm_compute; reflexivity..|].
  eexists. split_and!; vm_compute; reflexivity.
Qed.

Lemma float64_degenerate_mesh_witness :
  bbox_scale (rows_min (V3 (f64_lit 15 10) (f64_of_Z (-2)) (f64_lit 1 10))
                (replicate 2 (V3 (f64_lit 15 10) (f64_of_Z (-2)) (f64_lit 1 10))))
             (rows_max (V3 (f64_lit 15 10) (f64_of_Z (-2)) (f64_lit 1 10))
                (replicate 2 (V3 (f64_lit 15 10) (f64_of_Z (-2)) (f64_lit 1 10))))
    = S754_zero false ∧
  ∃ w' arc uv,
    main (src:=f64_parse) (Args "point.obj" "out.npz") f64_world = (Ok tt, w') ∧
    last (console w') = Some MsgCompleted ∧
    files w' !! npz_path "out.npz" = Some (FileNpz arc) ∧
    arc_entries arc !! "vertices" = Some (NpyFloat uv) ∧ uv ≠ [] ∧
    Forall (v3_Forall (λ y, f64_is_finite y = false)) uv.
Proof.
  apply (float64_degenerate_mesh (src:=f64_parse) (Args "point.obj" "out.npz") f64_world
           (FileBytes "point") (MeshObject (Some point_verts) (Some [V3 0 1 2]))
           (V3 (f64_lit 15 10) (f64_of_Z (-2)) (f64_lit 1 10)) 2);
    [reflexivity.. | by vm_compute |].
  apply Forall_cons_2; [|constructor]. unfold index_in_range. by vm_compute.
Defined.

(** A run that separates binary64 from exact arithmetic: for the
    vertices (0.1, 0, 0) and (0.2, 1, 0) a second normalisation changes
    the first coordinates by one unit in the last place, whereas in exact
    arithmetic the second pass is the identity. *)
Example float64_normalize_not_idempotent :
  ∃ out out',
    (normalize_vertices (Some skew_verts) f64_world).1 = Ok out ∧
    (normalize_vertices (Some out) f64_world).1 = Ok out' ∧
    out ≠ out' ∧
    (f64_to_Q ∘ vx) <$> out = [Some (-7205759403792796 # 2 ^ 57); Some (7205759403792792 # 2 ^ 57)]%Q ∧
    (f64_to_Q ∘ vx) <$> out' = [Some (-7205759403792794 # 2 ^ 57); Some (7205759403792794 # 2 ^ 57)]%Q.
Proof.
  eexists _, _. split_and!; [vm_compute; reflexivity..| | |].
  - by_compute.
  - vm_compute. reflexivity.
  - vm_compute. reflexivity.
Qed.

(** Another such run: the two zeros compare equal, so (+0, 0, 0) and
    (-0, 0, 0) are merged, and the vertex that is kept is the one the
    sort puts first.  Two sorts that both satisfy the laws of the sort
    interface return vertices that differ in the sign of a zero; in exact
    arithmetic this cannot happen. *)
Example float64_dedup_depends_on_sort :
  @ArgSortPerm float64 rev_argsort ∧ @ArgSortSorted float64 _ rev_argsort ∧
  (@remove_duplicate_vertices float64 _ merge_argsort zero_verts None f64_world).1 =
    Ok ([V3 (S754_zero false) (S754_zero false) (S754_zero false)], None) ∧
  (@remove_duplicate_vertices float64 _ rev_argsort zero_verts None f64_world).1 =
    Ok ([V3 (S754_zero true) (S754_zero false) (S754_zero false)], None).
Proof.
  split_and!; [apply rev_argsort_perm | apply rev_argsort_sorted | ..];
    vm_compute; reflexivity.
Qed.

Lemma float64_nan_poisons_witness :
  ∃ out, normalize_vertices (Some nan_verts) f64_world =
           (Ok out, World (files f64_world) (console f64_world ++ [MsgNormalized])) ∧
    length out = 3%nat ∧
    Forall (v3_Forall (λ x, f64_is_nan x = true)) out ∧
    length (@unique_verts float64 _ merge_argsort out) = 3%nat ∧
    ∀ w', @remove_duplicate_vertices float64 _ merge_argsort out None w' =
      (Ok (@unique_verts float64 _ merge_argsort out, None),
       World (files w') (console w' ++ [MsgRemoved 0])).
Proof.
  apply (float64_nan_poisons (ArgSort0:=merge_argsort) (V3 f64_zero f64_zero f64_zero)
           [V3 f64_one S754_nan f64_zero; V3 f64_one f64_one f64_one] f64_world
           (V3 f64_one S754_nan f64_zero) AxisY); [|reflexivity].
  apply list_elem_of_further, list_elem_of_here.
Defined.

(** The reader of [ObjReader] in binary64: a decimal is read as the
    quotient or the product of two floats, here the floats nearest to
    0.1 and to 10^23, and -2.5 exactly. *)
Example float64_reads_decimals :
  obj_parse (A:=float64) (unlines ["v 0.1 1e23 -2.5"]) =
    Ok (MeshObject
          (Some [V3 (S754_finite false 7205759403792794 (-56))
                    (S754_finite false 5960464477539062 24)
                    (S754_finite true 5629499534213120 (-51))])
          None).
Proof. vm_compute. reflexivity. Qed.
