(* ===== verification/Float64Bytes.v ===== *)
(** * The bytes of a binary64 number

    The eight bytes NumPy writes for one [float64]: the IEEE-754
    interchange format (sign, eleven bits of biased exponent, fifty-two
    bits of fraction), least significant byte first.  [f64_bits] and
    [f64_of_bits] are the two directions; they are inverse on the floats
    that [SpecFloat] calls valid, and they make [float64] an element type
    of the array files of [Npy].  A NaN is written as the quiet NaN with
    an empty payload; which NaN the hardware produced is not part of
    [SpecFloat], and every NaN pattern reads as NaN.

    The second part proves that a division of [SpecFloat] returns a valid
    float whatever its operands are (the quotient and the exponent handed
    to the rounding are aligned, and the two shifts of the rounding keep
    them so).  The last operation of [normalize_vertices] and of the
    rounding in [remove_duplicate_vertices] is a division, so the
    vertices the program saves are written and read back bit for bit
    without a hypothesis on the input. *)

From S2P Require Import Prelude Scalar NdArray World Loader Normalizer Dedup Serializer Npy Pipeline Float64.
From Stdlib Require Import ZArith SpecFloat Lia.
From coqutil Require Import Byte Word.LittleEndianList.
From stdpp Require Import base tactics option list numbers strings gmap.

Local Open Scope Z_scope.

(** ** Definitions *)

Definition f64_sign_bit (s : bool) : Z := if s then 2 ^ 63 else 0.

(** The 64-bit word of a float.  A mantissa below [2 ^ 52] is that of a
    subnormal number (exponent field 0); otherwise the leading bit is
    implicit and the exponent is biased by 1075 = 1023 + 52. *)
Definition f64_bits (x : float64) : Z :=
  match x with
  | S754_zero s => f64_sign_bit s
  | S754_infinity s => f64_sign_bit s + 2047 * 2 ^ 52
  | S754_nan => 2047 * 2 ^ 52 + 2 ^ 51
  | S754_finite s m e =>
      f64_sign_bit s +
      (if decide (Zpos m < 2 ^ 52) then Zpos m
       else (e + 1075) * 2 ^ 52 + (Zpos m - 2 ^ 52))
  end.

(** The float of a 64-bit word. *)
Definition f64_of_bits (b : Z) : float64 :=
  let s := Z.testbit b 63 in
  let ex := Z.land (Z.shiftr b 52) (Z.ones 11) in
  let frac := Z.land b (Z.ones 52) in
  if decide (ex = 0) then
    match frac with
    | Zpos m => S754_finite s m (-1074)
    | _ => S754_zero s
    end
  else if decide (ex = 2047) then
    if decide (frac = 0) then S754_infinity s else S754_nan
  else S754_finite s (Z.to_pos (frac + 2 ^ 52)) (ex - 1075).

(** The floats of the format: [SpecFloat]'s validity, which bounds the
    exponent and fixes the number of digits of the mantissa. *)
Definition f64_valid (x : float64) : Prop := valid_binary prec emax x = true.

#[export] Instance f64_valid_dec x : Decision (f64_valid x).
Proof. unfold f64_valid. apply _. Defined.

Definition f64_bytes (x : float64) : list byte := le_split 8 (f64_bits x).

Definition f64_read (bs : list byte) : option float64 :=
  if decide (length bs = 8%nat) then Some (f64_of_bits (le_combine bs)) else None.

#[export] Instance f64_codec : ElemCodec float64 := {|
  elem_descr := "<f8";
  elem_size := 8;
  elem_bytes := f64_bytes;
  elem_read := f64_read
|}.

(** ** Lemmas *)

(** The powers of two of the format, as numerals for [lia]. *)
Ltac pow_consts :=
  change (2 ^ 11) with 2048 in *; change (2 ^ 51) with 2251799813685248 in *;
  change (2 ^ 52) with 4503599627370496 in *; change (2 ^ 53) with 9007199254740992 in *;
  change (2 ^ 63) with 9223372036854775808 in *;
  change (2 ^ 64) with 18446744073709551616 in *.

(** The number of binary digits of a mantissa. *)
Lemma digits2_pos_bounds (m : positive) :
  2 ^ (Zpos (digits2_pos m) - 1) ≤ Zpos m < 2 ^ Zpos (digits2_pos m).
Proof.
  induction m as [m IH|m IH|]; [| |by compute]; cbn [digits2_pos];
    rewrite Pos2Z.inj_succ, Z.pow_succ_r by lia;
    replace (Z.succ (Zpos (digits2_pos m)) - 1)
      with (Z.succ (Zpos (digits2_pos m) - 1)) by lia;
    rewrite Z.pow_succ_r by lia; lia.
Qed.

(** What validity says of a finite float: a normal number has 53 digits
    and an exponent in [[-1074, 971]]; a subnormal one has fewer digits
    and the exponent -1074. *)
Lemma f64_valid_finite (s : bool) (m : positive) (e : Z) :
  f64_valid (S754_finite s m e) →
  (2 ^ 52 ≤ Zpos m < 2 ^ 53 ∧ -1074 ≤ e ≤ 971) ∨ (Zpos m < 2 ^ 52 ∧ e = -1074).
Proof.
  unfold f64_valid, valid_binary, bounded, canonical_mantissa, fexp, emin, prec, emax.
  intros [Hc He%Z.leb_le]%andb_true_iff. apply Z.eqb_eq in Hc.
  pose proof (digits2_pos_bounds m) as [Hlo Hhi].
  destruct (Z.max_spec (Zpos (digits2_pos m) + e - 53) (3 - 1024 - 53)) as [[? Hm]|[? Hm]];
    rewrite Hm in Hc.
  - right. split; [|lia]. eapply Z.lt_le_trans; [exact Hhi|].
    apply Z.pow_le_mono_r; lia.
  - left. assert (Zpos (digits2_pos m) = 53) as Hd by lia. rewrite Hd in *. lia.
Qed.

Lemma f64_sign_bit_range (s : bool) : f64_sign_bit s = 0 ∨ f64_sign_bit s = 2 ^ 63.
Proof. destruct s; auto. Qed.

(** The fields of a word put together from a sign, an exponent field
    and a fraction. *)
Lemma f64_fields (s : bool) (ex frac : Z) :
  0 ≤ ex < 2 ^ 11 → 0 ≤ frac < 2 ^ 52 →
  let b := f64_sign_bit s + (ex * 2 ^ 52 + frac) in
  Z.testbit b 63 = s ∧ Z.land (Z.shiftr b 52) (Z.ones 11) = ex ∧
  Z.land b (Z.ones 52) = frac ∧ 0 ≤ b < 2 ^ 64.
Proof.
  intros Hex Hf b. subst b.
  rewrite !Z.land_ones, Z.shiftr_div_pow2, Z.testbit_odd, Z.shiftr_div_pow2 by lia.
  change (2 ^ 11) with 2048 in *. change (2 ^ 52) with 4503599627370496 in *.
  change (2 ^ 63) with 9223372036854775808. change (2 ^ 64) with 18446744073709551616.
  assert (f64_sign_bit s = if s then 9223372036854775808 else 0) as -> by by destruct s.
  assert ((((if s then 9223372036854775808 else 0) + (ex * 4503599627370496 + frac))
            / 9223372036854775808) = if s then 1 else 0) as ->
    by (destruct s; Z.div_mod_to_equations; lia).
  split_and!; [by destruct s|..]; destruct s; Z.div_mod_to_equations; lia.
Qed.


(** ** The round trip *)

(** Reading a word put together from its fields. *)
Lemma f64_of_bits_fields (s : bool) (ex frac : Z) :
  0 ≤ ex < 2 ^ 11 → 0 ≤ frac < 2 ^ 52 →
  f64_of_bits (f64_sign_bit s + (ex * 2 ^ 52 + frac)) =
    if decide (ex = 0) then
      match frac with
      | Zpos m => S754_finite s m (-1074)
      | _ => S754_zero s
      end
    else if decide (ex = 2047) then
      if decide (frac = 0) then S754_infinity s else S754_nan
    else S754_finite s (Z.to_pos (frac + 2 ^ 52)) (ex - 1075).
Proof.
  intros Hex Hf. destruct (f64_fields s ex frac Hex Hf) as (Hs & Hx & Hfr & _).
  unfold f64_of_bits. by rewrite Hs, Hx, Hfr.
Qed.

Lemma f64_bits_fields (x : float64) :
  f64_valid x →
  ∃ s ex frac, f64_bits x = f64_sign_bit s + (ex * 2 ^ 52 + frac) ∧
    0 ≤ ex < 2 ^ 11 ∧ 0 ≤ frac < 2 ^ 52 ∧
    x = if decide (ex = 0) then
          match frac with
          | Zpos m => S754_finite s m (-1074)
          | _ => S754_zero s
          end
        else if decide (ex = 2047) then
          if decide (frac = 0) then S754_infinity s else S754_nan
        else S754_finite s (Z.to_pos (frac + 2 ^ 52)) (ex - 1075).
Proof.
  destruct x as [s|s| |s m e]; intros Hv; unfold f64_bits.
  - exists s, 0, 0. split_and!; [lia | done..].
  - exists s, 2047, 0. split_and!; [lia | done..].
  - exists false, 2047, (2 ^ 51). split_and!; done.
  - destruct (f64_valid_finite s m e Hv) as [[Hm He]|[Hm ->]]; pow_consts.
    + rewrite decide_False by lia. exists s, (e + 1075), (Zpos m - 4503599627370496).
      split_and!; [done | lia.. |]. rewrite !decide_False by lia.
      f_equal; [|lia]. by replace (_ - _ + _) with (Zpos m) by lia.
    + rewrite decide_True by lia. exists s, 0, (Zpos m). split_and!; [lia | lia.. | done].
Qed.

Lemma f64_bits_of_bits (x : float64) :
  f64_valid x → f64_of_bits (f64_bits x) = x ∧ 0 ≤ f64_bits x < 2 ^ 64.
Proof.
  intros Hv. destruct (f64_bits_fields x Hv) as (s & ex & frac & Eb & Hex & Hf & Hx).
  rewrite Eb. split; [by rewrite f64_of_bits_fields | by apply f64_fields].
Qed.

#[export] Instance f64_codec_ok : ElemCodecOk float64 f64_valid.
Proof.
  split; [intros x; apply length_le_split | | done | simpl; lia].
  intros x Hx. cbn [elem_read elem_bytes f64_codec]. unfold f64_read, f64_bytes.
  rewrite decide_True by apply length_le_split.
  destruct (f64_bits_of_bits x Hx) as [E Hb].
  rewrite le_combine_split, Z.mod_small by (change (2 ^ (Z.of_nat 8 * 8)) with (2 ^ 64); lia).
  by rewrite E.
Qed.

(** Every word with all ones in the exponent and a fraction other than
    zero reads as NaN, whatever its sign and payload. *)
Lemma f64_of_bits_nan (s : bool) (frac : Z) :
  0 < frac < 2 ^ 52 → f64_of_bits (f64_sign_bit s + (2047 * 2 ^ 52 + frac)) = S754_nan.
Proof.
  intros Hf. destruct (f64_fields s 2047 frac) as (Hs & Hx & Hfr & _); [done | lia |].
  unfold f64_of_bits. rewrite Hx, Hfr. rewrite decide_False, decide_True by done.
  by rewrite decide_False by lia.
Qed.

(** ** The division returns a float of the format *)

Section validity.
Local Abbreviation fexp := (SpecFloat.fexp prec emax).

Lemma fexp_mono (a b : Z) : a ≤ b → fexp a ≤ fexp b.
Proof. unfold SpecFloat.fexp. lia. Qed.

(** The binary digits of a natural number. *)
Lemma Zdigits2_bounds (m : Z) :
  0 ≤ m → 0 ≤ Zdigits2 m ∧ m < 2 ^ Zdigits2 m ∧ (0 < m → 2 ^ (Zdigits2 m - 1) ≤ m).
Proof.
  destruct m as [|p|p]; [done| |lia]. intros _. cbn [Zdigits2].
  pose proof (digits2_pos_bounds p). lia.
Qed.

Lemma Zdigits2_unique (m k : Z) : 2 ^ (k - 1) ≤ m < 2 ^ k → 0 < m → Zdigits2 m = k.
Proof.
  intros [Hlo Hhi] Hm. destruct (Zdigits2_bounds m ltac:(lia)) as (Hd & Hu & Hl).
  specialize (Hl Hm). assert (0 < k).
  { destruct (decide (0 < k)); [done|].
    destruct (decide (k = 0)) as [->|]; [simpl in Hhi; lia|].
    rewrite Z.pow_neg_r in Hhi by lia. lia. }
  destruct (Z.lt_trichotomy (Zdigits2 m) k) as [Hc|[Hc|Hc]]; [|done|].
  - assert (2 ^ Zdigits2 m ≤ 2 ^ (k - 1)) by (apply Z.pow_le_mono_r; lia). lia.
  - assert (2 ^ k ≤ 2 ^ (Zdigits2 m - 1)) by (apply Z.pow_le_mono_r; lia). lia.
Qed.

Lemma Zdigits2_lower (m k : Z) : 2 ^ (k - 1) ≤ m → 0 < m → k ≤ Zdigits2 m.
Proof.
  intros Hlo Hm. destruct (Zdigits2_bounds m ltac:(lia)) as (Hd & Hu & _).
  destruct (decide (k ≤ Zdigits2 m)); [done|].
  assert (2 ^ Zdigits2 m ≤ 2 ^ (k - 1)) by (apply Z.pow_le_mono_r; lia). lia.
Qed.

(** Shifting [n] digits out leaves [d - n] digits, or nothing. *)
Lemma Zdigits2_div_pow2 (m n : Z) :
  0 ≤ m → 0 ≤ n →
  Zdigits2 (m / 2 ^ n) = Z.max 0 (Zdigits2 m - n).
Proof.
  intros Hm Hn. destruct (Zdigits2_bounds m Hm) as (Hd & Hu & Hl).
  assert (0 < 2 ^ n) by (apply Z.pow_pos_nonneg; lia).
  destruct (decide (n < Zdigits2 m)) as [Hlt|Hge].
  - assert (0 < m) as Hpos.
    { destruct (decide (0 < m)); [done|]. replace m with 0 in Hlt by lia. simpl in Hlt. lia. }
    specialize (Hl Hpos). rewrite Z.max_r by lia.
    assert (2 ^ (Zdigits2 m - n - 1) * 2 ^ n = 2 ^ (Zdigits2 m - 1)) as E1
      by (rewrite <-Z.pow_add_r by lia; f_equal; lia).
    assert (2 ^ (Zdigits2 m - n) * 2 ^ n = 2 ^ Zdigits2 m) as E2
      by (rewrite <-Z.pow_add_r by lia; f_equal; lia).
    apply Zdigits2_unique.
    + split; [apply Z.div_le_lower_bound | apply Z.div_lt_upper_bound]; lia.
    + apply Z.div_str_pos. split; [done|].
      assert (2 ^ n ≤ 2 ^ (Zdigits2 m - 1)) by (apply Z.pow_le_mono_r; lia). lia.
  - rewrite Z.max_l by lia. rewrite Z.div_small; [done|].
    assert (2 ^ Zdigits2 m ≤ 2 ^ n) by (apply Z.pow_le_mono_r; lia). lia.
Qed.

(** The mantissa after [p] shifts to the right. *)
Lemma shr_1_m (mrs : shr_record) : 0 ≤ shr_m mrs → shr_m (shr_1 mrs) = shr_m mrs / 2.
Proof.
  destruct mrs as [[|[p|p|]|p] r s]; cbn [shr_1 shr_m]; intros Hm; [done| | |done|lia].
  - rewrite Pos2Z.inj_xI. Z.div_mod_to_equations; lia.
  - rewrite Pos2Z.inj_xO. Z.div_mod_to_equations; lia.
Qed.

Lemma pow2_xO (p : positive) : 2 ^ Z.pos p~0 = 2 ^ Z.pos p * 2 ^ Z.pos p.
Proof. rewrite Pos2Z.inj_xO, <-Z.pow_add_r by lia. f_equal. lia. Qed.

Lemma pow2_xI (p : positive) : 2 ^ Z.pos p~1 = 2 * (2 ^ Z.pos p * 2 ^ Z.pos p).
Proof.
  rewrite Pos2Z.inj_xI, Z.pow_add_r, <-Pos2Z.inj_xO, pow2_xO by lia.
  change (2 ^ 1) with 2. lia.
Qed.

Lemma iter_shr_1_m (p : positive) (mrs : shr_record) :
  0 ≤ shr_m mrs →
  0 ≤ shr_m (SpecFloat.iter_pos shr_1 p mrs) ∧ shr_m (SpecFloat.iter_pos shr_1 p mrs) = shr_m mrs / 2 ^ Zpos p.
Proof.
  revert mrs. induction p as [p IH|p IH|]; intros mrs Hm; cbn [SpecFloat.iter_pos].
  - assert (0 ≤ shr_m (shr_1 mrs)) as H1 by (rewrite shr_1_m by done; apply Z.div_pos; lia).
    destruct (IH _ H1) as [H2 E2]. destruct (IH _ H2) as [H3 E3]. split; [done|].
    rewrite E3, E2, shr_1_m, pow2_xI by done.
    assert (0 < 2 ^ Z.pos p) by (apply Z.pow_pos_nonneg; lia).
    rewrite !Z.div_div by lia. done.
  - destruct (IH _ Hm) as [H2 E2]. destruct (IH _ H2) as [H3 E3]. split; [done|].
    assert (0 < 2 ^ Z.pos p) by (apply Z.pow_pos_nonneg; lia).
    rewrite E3, E2, pow2_xO, Z.div_div by lia. done.
  - rewrite shr_1_m by done. split; [apply Z.div_pos; lia | done].
Qed.

Lemma shr_record_of_loc_m (m : Z) (l : location) : shr_m (shr_record_of_loc m l) = m.
Proof. by destruct l as [|[]]. Qed.

Lemma Zdigits2_mono (a b : Z) : 0 ≤ a ≤ b → Zdigits2 a ≤ Zdigits2 b.
Proof.
  intros [Ha Hab]. destruct (Zdigits2_bounds a Ha) as (_ & _ & Hl).
  destruct (Zdigits2_bounds b ltac:(lia)) as (Hb & _ & _).
  destruct (decide (a = 0)) as [->|]; [done|]. apply Zdigits2_lower; lia.
Qed.

Lemma round_nearest_even_bounds (m : Z) (l : location) :
  m ≤ round_nearest_even m l ≤ m + 1.
Proof. destruct l as [|[]]; simpl; try destruct (Z.even m); lia. Qed.

(** One shift to the exponent of the format: the mantissa and the
    exponent that come out are those of a number of the format. *)
Lemma shr_fexp_aligned (m e : Z) (l : location) :
  0 ≤ m → e ≤ fexp (Zdigits2 m + e) →
  0 ≤ shr_m (shr_fexp prec emax m e l).1 ∧
  fexp (Zdigits2 (shr_m (shr_fexp prec emax m e l).1) + (shr_fexp prec emax m e l).2)
    = (shr_fexp prec emax m e l).2.
Proof.
  intros Hm He. unfold shr_fexp, shr. pose proof (Zdigits2_bounds m Hm) as (Hd & _).
  destruct (fexp (Zdigits2 m + e) - e) as [|p|p] eqn:En; cbn [fst snd]; [| |lia].
  - rewrite shr_record_of_loc_m. split; [done|lia].
  - assert (0 ≤ shr_m (shr_record_of_loc m l)) as H0 by by rewrite shr_record_of_loc_m.
    destruct (iter_shr_1_m p _ H0) as [H1 E]. rewrite E, shr_record_of_loc_m in *.
    split; [done|].
    rewrite Zdigits2_div_pow2 by lia. revert He En.
    unfold SpecFloat.fexp, SpecFloat.emin, prec, emax. lia.
Qed.

(** Rounding returns a float of the format, whatever the location, when
    the exponent is not above the one the format gives the mantissa. *)
Lemma binary_round_aux_valid (s : bool) (m e : Z) (l : location) :
  0 ≤ m → e ≤ fexp (Zdigits2 m + e) →
  valid_binary prec emax (binary_round_aux prec emax s m e l) = true.
Proof.
  intros Hm He. unfold binary_round_aux.
  destruct (shr_fexp_aligned m e l Hm He) as [H1 E1].
  destruct (shr_fexp prec emax m e l) as [mrs1 e1]. cbn [fst snd] in H1, E1.
  set (m1 := round_nearest_even _ _).
  pose proof (round_nearest_even_bounds (shr_m mrs1) (loc_of_shr_record mrs1)) as Hr.
  fold m1 in Hr.
  assert (e1 ≤ fexp (Zdigits2 m1 + e1)) as He1.
  { rewrite <-E1 at 1. apply fexp_mono.
    pose proof (Zdigits2_mono (shr_m mrs1) m1). lia. }
  destruct (shr_fexp_aligned m1 e1 loc_Exact ltac:(lia) He1) as [H2 E2].
  destruct (shr_fexp prec emax m1 e1 loc_Exact) as [mrs2 e2]. cbn [fst snd] in H2, E2.
  destruct (shr_m mrs2) as [|q|q]; [done| |done].
  destruct (Z.leb_spec e2 (emax - prec)) as [Hle|]; [|done].
  cbn [valid_binary]. unfold bounded, canonical_mantissa.
  apply andb_true_iff. split; [|by apply Z.leb_le].
  apply Z.eqb_eq. exact E2.
Qed.

Lemma Zdigits2_div_lower (a b s : Z) :
  0 < a → 0 < b → 0 ≤ s → Zdigits2 a + s - Zdigits2 b ≤ Zdigits2 (a * 2 ^ s / b).
Proof.
  intros Ha Hb Hs. destruct (Zdigits2_bounds a ltac:(lia)) as (Hda & _ & Hla).
  destruct (Zdigits2_bounds b ltac:(lia)) as (Hdb & Hub & _). specialize (Hla Ha).
  assert (0 < 2 ^ s) by (apply Z.pow_pos_nonneg; lia).
  destruct (decide (0 < Zdigits2 a + s - Zdigits2 b)) as [Hk|Hk].
  - remember (Zdigits2 a + s - Zdigits2 b) as k eqn:Ek.
    assert (1 ≤ Zdigits2 a) by (destruct a; simpl; lia).
    assert (0 < 2 ^ (k - 1)) by (apply Z.pow_pos_nonneg; lia).
    assert (2 ^ (k - 1) * 2 ^ Zdigits2 b = 2 ^ (Zdigits2 a - 1) * 2 ^ s) as E.
    { rewrite <-!Z.pow_add_r by lia. f_equal. lia. }
    assert (b * 2 ^ (k - 1) ≤ 2 ^ (k - 1) * 2 ^ Zdigits2 b) by nia.
    assert (2 ^ (Zdigits2 a - 1) * 2 ^ s ≤ a * 2 ^ s) by (apply Z.mul_le_mono_nonneg_r; lia).
    assert (2 ^ (k - 1) ≤ a * 2 ^ s / b) by (apply Z.div_le_lower_bound; lia).
    apply Zdigits2_lower; lia.
  - pose proof (Zdigits2_bounds (a * 2 ^ s / b)) as Hq.
    assert (0 ≤ a * 2 ^ s / b) by (apply Z.div_pos; nia). lia.
Qed.

(** The quotient and exponent the division hands to the rounding. *)
Lemma SFdiv_core_aligned (m1 m2 : positive) (e1 e2 : Z) :
  let r := SFdiv_core_binary prec emax (Zpos m1) e1 (Zpos m2) e2 in
  0 ≤ r.1.1 ∧ r.1.2 ≤ fexp (Zdigits2 r.1.1 + r.1.2).
Proof.
  cbn zeta. unfold SFdiv_core_binary.
  set (d := fexp (Zdigits2 (Zpos m1) + e1 - (Zdigits2 (Zpos m2) + e2))).
  set (e' := Z.min d (e1 - e2)). set (s := e1 - e2 - e').
  assert (0 ≤ s) as Hs by lia.
  assert (match s with Zpos _ => Z.shiftl (Zpos m1) s | 0 => Zpos m1 | Zneg _ => 0 end
          = Zpos m1 * 2 ^ s) as ->.
  { destruct s eqn:Es; [lia | by rewrite Z.shiftl_mul_pow2 | lia]. }
  pose proof (Zdigits2_div_lower (Zpos m1) (Zpos m2) s ltac:(lia) ltac:(lia) Hs) as Hq.
  assert (0 < 2 ^ s) by (apply Z.pow_pos_nonneg; lia).
  assert (0 ≤ Zpos m1 * 2 ^ s / Zpos m2) as Hq0 by (apply Z.div_pos; nia).
  unfold Z.div in Hq, Hq0. destruct (Z.div_eucl _ _) as [q r]. cbn [fst snd] in *.
  split; [done|]. trans d; [lia|]. apply fexp_mono. lia.
Qed.

(** Every quotient is a float of the format, whatever the operands are. *)
Lemma SFdiv_valid (x y : float64) : f64_valid (SFdiv prec emax x y).
Proof.
  unfold f64_valid. destruct x as [sx|sx| |sx mx ex], y as [sy|sy| |sy my ey]; try done.
  cbn [SFdiv]. pose proof (SFdiv_core_aligned mx my ex ey) as [H1 H2].
  destruct (SFdiv_core_binary _ _ _ _ _ _) as [[q e] l]. by apply binary_round_aux_valid.
Qed.
End validity.

(** ** Every word is a float of the format *)

Lemma f64_normal_valid (s : bool) (m : positive) (e : Z) :
  2 ^ 52 ≤ Zpos m < 2 ^ 53 → -1074 ≤ e ≤ 971 → f64_valid (S754_finite s m e).
Proof.
  intros Hm He. assert (Zdigits2 (Zpos m) = 53) as Hd by (apply Zdigits2_unique; [done|lia]).
  cbn [Zdigits2] in Hd.
  unfold f64_valid, valid_binary, bounded, canonical_mantissa, fexp, emin, prec, emax.
  rewrite Hd. apply andb_true_iff. split; [apply Z.eqb_eq | apply Z.leb_le]; lia.
Qed.

Lemma f64_subnormal_valid (s : bool) (m : positive) :
  Zpos m < 2 ^ 52 → f64_valid (S754_finite s m (-1074)).
Proof.
  intros Hm. pose proof (digits2_pos_bounds m) as [Hlo _].
  assert (Zpos (digits2_pos m) ≤ 52) as Hd.
  { destruct (decide (Zpos (digits2_pos m) ≤ 52)); [done|].
    assert (2 ^ 52 ≤ 2 ^ (Zpos (digits2_pos m) - 1)) by (apply Z.pow_le_mono_r; lia). lia. }
  unfold f64_valid, valid_binary, bounded, canonical_mantissa, fexp, emin, prec, emax.
  apply andb_true_iff. split; [apply Z.eqb_eq | apply Z.leb_le]; lia.
Qed.

(** The fields of any word are in range, and a 64-bit word is put
    together from its fields. *)
Lemma f64_word_fields (b : Z) :
  0 ≤ Z.land (Z.shiftr b 52) (Z.ones 11) < 2 ^ 11 ∧ 0 ≤ Z.land b (Z.ones 52) < 2 ^ 52 ∧
  (0 ≤ b < 2 ^ 64 →
   b = f64_sign_bit (Z.testbit b 63)
       + (Z.land (Z.shiftr b 52) (Z.ones 11) * 2 ^ 52 + Z.land b (Z.ones 52))).
Proof.
  rewrite !Z.land_ones, Z.shiftr_div_pow2, Z.testbit_odd, Z.shiftr_div_pow2 by lia.
  pow_consts. split_and!; [Z.div_mod_to_equations; lia..|]. intros Hb.
  assert (b / 9223372036854775808 = 0 ∨ b / 9223372036854775808 = 1) as [E|E]
    by (Z.div_mod_to_equations; lia);
    rewrite E; cbn [Z.odd f64_sign_bit]; pow_consts; Z.div_mod_to_equations; lia.
Qed.

Lemma f64_of_bits_valid (b : Z) : f64_valid (f64_of_bits b).
Proof.
  destruct (f64_word_fields b) as (Hex & Hf & _). unfold f64_of_bits.
  destruct (decide (_ = 0)) as [E0|E0].
  - destruct (Z.land b (Z.ones 52)) as [|m|m] eqn:Em; [done| |done].
    apply f64_subnormal_valid. lia.
  - destruct (decide (_ = 2047)) as [E1|E1]; [by destruct (decide _)|].
    pow_consts. apply f64_normal_valid; pow_consts; [|lia].
    rewrite Z2Pos.id by lia. lia.
Qed.

(** Writing the float of a word gives the word back, NaN apart. *)
Lemma f64_bits_of_word (b : Z) :
  0 ≤ b < 2 ^ 64 → f64_of_bits b ≠ S754_nan → f64_bits (f64_of_bits b) = b.
Proof.
  intros Hb. destruct (f64_word_fields b) as (Hex & Hf & Eb). specialize (Eb Hb).
  unfold f64_of_bits. set (s := Z.testbit b 63) in *.
  set (ex := Z.land (Z.shiftr b 52) (Z.ones 11)) in *. set (frac := Z.land b (Z.ones 52)) in *.
  clearbody s ex frac. subst b. clear Hb.
  destruct (decide (ex = 0)) as [->|E0].
  - destruct frac as [|m|m] eqn:Em; intros _; cbn [f64_bits]; [lia| |lia].
    by rewrite decide_True by lia.
  - destruct (decide (ex = 2047)) as [->|E1].
    + destruct (decide (frac = 0)) as [->|]; [intros _|done]. cbn [f64_bits]. lia.
    + intros _. cbn [f64_bits]. pow_consts. rewrite Z2Pos.id by lia.
      rewrite decide_False by lia. lia.
Qed.

(** ** The floats the program saves *)

Lemma round_scalar_valid (d : nat) (x : float64) : f64_valid (round_scalar d x).
Proof. apply SFdiv_valid. Qed.

Lemma np_round_valid (verts : list (vec3 float64)) (d : nat) :
  Forall (v3_Forall f64_valid) (np_round verts d).
Proof.
  apply Forall_fmap, Forall_true. intros [x y z]. split_and!; apply round_scalar_valid.
Qed.


Lemma unique_verts_valid `{!ArgSort float64, !ArgSortPerm float64}
    (verts : list (vec3 float64)) :
  Forall (v3_Forall f64_valid) (unique_verts verts).
Proof.
  apply Forall_forall. intros u Hu%np_unique_elem_of. revert u Hu.
  apply Forall_forall, np_round_valid.
Qed.

(** The two arrays of a successful run are arrays the format holds. *)
Lemma saved_arrays_valid `{!ArgSort float64, !ArgSortPerm float64}
    (verts : list (vec3 float64)) (faces fs : option (list (vec3 Z))) :
  remap_faces (inverse_indices verts) faces = Ok fs →
  Z.of_nat (length verts) < 2 ^ 63 → Z.of_nat (faces_count faces) < 2 ^ 63 →
  npy_valid f64_valid (NpyFloat (unique_verts verts)) ∧
  npy_valid f64_valid (npy_of_faces (A:=float64) fs).
Proof.
  intros Hfs Hn Hf. pose proof (unique_verts_length verts) as Hl.
  split; [split; [apply unique_verts_valid | lia]|].
  pose proof (remap_faces_valid _ _ _ Hfs) as Hv.
  apply remap_faces_ok in Hfs as [[_ ->]|(f & f' & -> & -> & Ht)]; [exact I|].
  cbn [npy_of_faces npy_valid from_option faces_count] in *.
  rewrite (np_take_length _ _ _ Ht). split; [|lia].
  eapply Forall_impl; [exact Hv|]. intros r (Hx & Hy & Hz). unfold i64_range.
  split_and!; lia.
Qed.

(** ** Theorems *)

(** C22: the word of a float.  A float of the format has a word of 64
    bits from which it is read back, also through its eight bytes; and,
    NaN apart, no other word reads as that float: the floats of the
    format other than NaN and the words other than the NaN patterns
    correspond one to one. *)
Theorem f64_bits_roundtrip (x : float64) :
  f64_valid x →
  0 ≤ f64_bits x < 2 ^ 64 ∧ f64_of_bits (f64_bits x) = x ∧
  f64_read (f64_bytes x) = Some x ∧
  (x ≠ S754_nan → ∀ b, 0 ≤ b < 2 ^ 64 → f64_of_bits b = x → b = f64_bits x).
Proof.
  intros Hx. destruct (f64_bits_of_bits x Hx) as [E Hb].
  split_and!; [lia | lia | done | exact (elem_read_bytes x Hx) |].
  intros Hn b Hr <-. symmetry. by apply f64_bits_of_word.
Qed.

Section float64_bytes_claims.
Context `{!ArgSort float64, !ArgSortPerm float64} {src : MeshSource float64}.
Variables (growth : bool) (pickled_none : list byte).


(** C15: the archive of a run, through its bytes.  When the parser
    returns a mesh with vertices [v :: vs] whose faces are remapped to
    [fs], with fewer than 2^63 vertices and faces, [preprocess_obj]
    stores the archive of the deduplicated vertices and of [fs], and
    from the bytes [np.savez] writes for it [vertices] is read back with
    every coordinate bit for bit (NaN as NaN), with or without pickles
    allowed; [faces] is read back as the 64-bit integers written when the
    mesh had faces; when it had none, [faces] is read back as [None] with
    pickles allowed and the read raises [ValueError] with [np.load]'s
    default.  No hypothesis is made on the coordinates. *)
Theorem float64_archive_bytes (input_path output_path : string) (w : world float64)
    f mesh v vs fs :
  files w !! input_path = Some f → trimesh_parse input_path f = Ok mesh →
  mesh_vertices mesh = Some (v :: vs) →
  remap_faces (inverse_indices (normalized v vs)) (as_int32 <$> mesh_faces mesh) = Ok fs →
  Z.of_nat (S (length vs)) < 2 ^ 63 → Z.of_nat (faces_count (mesh_faces mesh)) < 2 ^ 63 →
  let uv := unique_verts (normalized v vs) in
  let members := savez_members growth pickled_none uv fs in
  files (preprocess_obj input_path output_path w).2 !! npz_path output_path
    = Some (FileNpz (Archive {[ "vertices" := NpyFloat uv; "faces" := npy_of_faces fs ]} false)) ∧
  (∀ allow_pickle,
     members_load pickled_none members allow_pickle "vertices" = Ok (NpyFloat uv)) ∧
  members_load pickled_none members true "faces" = Ok (npy_of_faces fs) ∧
  members_load pickled_none members false "faces" =
    match fs with
    | Some f' => Ok (NpyInt f')
    | None => Raise (ValueError "Object arrays cannot be loaded when allow_pickle=False")
    end.
Proof.
  intros Ef Ep Ev Hfs Hn Hf uv members.
  destruct (saved_arrays_valid (normalized v vs) _ fs Hfs) as [Hv Hi].
  { by rewrite normalized_length. }
  { unfold faces_count, as_int32 in *. destruct (mesh_faces mesh); [|done].
    cbn [fmap option_fmap option_map from_option] in *. by rewrite length_fmap. }
  split_and!; [|intros allow_pickle|..].
  - rewrite preprocess_obj_cases, Ef. cbn zeta. rewrite Ep, Ev, Hfs. cbn [snd files].
    by rewrite lookup_insert_eq.
  - unfold members. rewrite members_load_savez by done. by rewrite lookup_insert_eq.
  - unfold members. rewrite members_load_savez by done.
    rewrite lookup_insert_ne, lookup_singleton_eq by done. by destruct fs.
  - unfold members. rewrite members_load_savez by done.
    rewrite lookup_insert_ne, lookup_singleton_eq by done. by destruct fs.
Qed.

End float64_bytes_claims.

Lemma f64_bits_roundtrip_witness :
  0 ≤ f64_bits (f64_lit 1 10) < 2 ^ 64 ∧
  f64_of_bits (f64_bits (f64_lit 1 10)) = f64_lit 1 10 ∧
  f64_read (f64_bytes (f64_lit 1 10)) = Some (f64_lit 1 10) ∧
  (f64_lit 1 10 ≠ S754_nan →
   ∀ b, 0 ≤ b < 2 ^ 64 → f64_of_bits b = f64_lit 1 10 → b = f64_bits (f64_lit 1 10)).
Proof. apply (f64_bits_roundtrip (f64_lit 1 10)). by vm_compute. Defined.


Lemma float64_archive_bytes_witness :
  let p := V3 (f64_lit 15 10) (f64_of_Z (-2)) (f64_lit 1 10) in
  let uv := unique_verts (normalized p (replicate 2 p)) in
  let fs := Some [V3 1 2 0] in
  let members := savez_members true [] uv fs in
  files (preprocess_obj (src:=f64_parse) "point.obj" "out" f64_world).2 !! npz_path "out"
    = Some (FileNpz (Archive {[ "vertices" := NpyFloat uv; "faces" := npy_of_faces fs ]} false)) ∧
  (∀ allow_pickle, members_load [] members allow_pickle "vertices" = Ok (NpyFloat uv)) ∧
  members_load [] members true "faces" = Ok (npy_of_faces fs) ∧
  members_load [] members false "faces" = Ok (NpyInt [V3 1 2 0]).
Proof.
  apply (float64_archive_bytes (ArgSortPerm0:=merge_argsort_perm) (src:=f64_parse) true []
           "point.obj" "out" f64_world (FileBytes "point")
           (MeshObject (Some point_verts) (Some [V3 0 1 2]))
           (V3 (f64_lit 15 10) (f64_of_Z (-2)) (f64_lit 1 10))
           (replicate 2 (V3 (f64_lit 15 10) (f64_of_Z (-2)) (f64_lit 1 10)))
           (Some [V3 1 2 0])); [reflexivity.. | by vm_compute | by vm_compute | by vm_compute].
Defined.

(** ** Concrete bytes *)

(** The words of 1.0, of the double nearest to 0.1 and of -2.0, and the
    bytes of 1.0. *)
Example f64_bits_samples :
  f64_bits f64_one = 0x3FF0000000000000 ∧ f64_bits (f64_lit 1 10) = 0x3FB999999999999A ∧
  f64_bits (f64_of_Z (-2)) = 0xC000000000000000 ∧
  f64_bytes f64_one
    = [Byte.x00; Byte.x00; Byte.x00; Byte.x00; Byte.x00; Byte.x00; Byte.xf0; Byte.x3f] ∧
  f64_of_bits 0x7FF0000000000000 = S754_infinity false ∧
  f64_of_bits 0xFFF8000000000001 = S754_nan ∧ f64_of_bits 1 = S754_finite false 1 (-1074).
Proof. by vm_compute. Qed.

(** The file of the array [[1.0, -2.0, 0.1]]: magic string, version 1.0,
    the length 118 of the header, the dictionary padded to the byte 128,
    and three little-endian doubles. *)
Example npy_bytes_sample :
  let bs := npy_bytes false [] (NpyFloat [V3 f64_one (f64_of_Z (-2)) (f64_lit 1 10)]) in
  take 10 bs = [Byte.x93; Byte.x4e; Byte.x55; Byte.x4d; Byte.x50; Byte.x59;
                Byte.x01; Byte.x00; Byte.x76; Byte.x00] ∧
  String.string_of_list_byte (take 118 (drop 10 bs))
    = ("{'descr': '<f8', 'fortran_order': False, 'shape': (1, 3), }"
         +:+ spaces 58 +:+ String (Ascii.ascii_of_nat 10) "")%string ∧
  drop 128 bs
    = [Byte.x00; Byte.x00; Byte.x00; Byte.x00; Byte.x00; Byte.x00; Byte.xf0; Byte.x3f;
       Byte.x00; Byte.x00; Byte.x00; Byte.x00; Byte.x00; Byte.x00; Byte.x00; Byte.xc0;
       Byte.x9a; Byte.x99; Byte.x99; Byte.x99; Byte.x99; Byte.x99; Byte.xb9; Byte.x3f].
Proof. by vm_compute. Qed.
